(** * go-fiber todo API: the authentication and session lifecycle

    A shallow embedding of [internal/services] (the auth service and the
    Redis session store), [internal/models] and the MongoDB user
    repository, together with the parts of the libraries they call
    (golang-jwt/jwt v5, bcrypt, go-redis, the MongoDB driver) that decide
    what the service returns.

    Conventions.
    - A Go [error] is a tree: [fmt.Errorf] without [%w] builds an
      [errorString], with one [%w] a [wrapError], and the joined errors of
      the jwt library a [wrapErrors].
    - A Go function returning [(T, error)] returns a [result T].
    - [time.Time] is a number of nanoseconds since the Unix epoch and
      [time.Duration] a number of nanoseconds, both in [Z].
    - Everything the service asks of the outside world (the clock, the
      random source, the user repository, the session store) is a command
      of [Cmd]; a service method is a program of [Prog] over them, and a
      handler gives the commands their meaning on a world.  Logging has no
      effect on any result and is left out. *)

From Stdlib Require Import ZArith Lia List Ascii.
From stdpp Require Import base option gmap strings list pretty.

Open Scope string_scope.
Open Scope Z_scope.

(** ** Errors and results *)

#[warnings="-register-all"]
Inductive error : Type :=
| errorString (s : string)
| wrapError (msg : string) (err : error)
| wrapErrors (msg : string) (errs : list error).

(** [err.Error()] *)
Definition Error (e : error) : string :=
  match e with
  | errorString s => s
  | wrapError msg _ => msg
  | wrapErrors msg _ => msg
  end.

(** [errors.Is(err, target)] for a sentinel [target] created by
    [errors.New]; sentinels are told apart by their text. *)
Fixpoint errors_Is (err : error) (target : string) : bool :=
  match err with
  | errorString s => String.eqb s target
  | wrapError _ e => errors_Is e target
  | wrapErrors _ es => existsb (fun e => errors_Is e target) es
  end.

(** [fmt.Errorf(msg)] *)
Definition fmt_Errorf (msg : string) : error := errorString msg.

(** [fmt.Errorf(prefix + "%w", err)] *)
Definition fmt_Errorf_w (prefix : string) (err : error) : error :=
  wrapError (prefix +:+ Error err) err.

Inductive result (A : Type) : Type :=
| Ok (a : A)
| Err (e : error).
Arguments Ok {A} a.
Arguments Err {A} e.

(** ** Time *)

Abbreviation Time := Z (only parsing).
Abbreviation Duration := Z (only parsing).

Definition time_Second : Duration := 1000000000.

(** The zero [time.Time], January 1 of year 1. *)
Definition time_Zero : Time := -62135596800 * time_Second.

(** [t.Add(d)] *)
Definition Time_Add (t : Time) (d : Duration) : Time := t + d.
(** [t.Unix()]: whole seconds, rounded down. *)
Definition Time_Unix (t : Time) : Z := t / time_Second.
(** [time.Unix(sec, 0)] *)
Definition time_Unix (sec : Z) : Time := sec * time_Second.
(** [t.Before(u)] and [t.After(u)] *)
Definition Time_Before (t u : Time) : bool := t <? u.
Definition Time_After (t u : Time) : bool := u <? t.

(** ** JSON values and claim maps

    A decoded JSON object ([map[string]interface{}]) with the values the
    token code looks at; numbers are the integral ones. *)

Inductive JValue : Type :=
| JNull
| JBool (b : bool)
| JNumber (n : Z)
| JString (s : string).

Abbreviation MapClaims := (gmap string JValue) (only parsing).

Inductive Hash : Type := SHA256 | SHA384 | SHA512.

(** What [Parser.ParseUnverified] has in hand once the token string has been
    split at its dots and the first two segments decoded: the header, the
    claims, the text the signature covers ([parts[0] + "." + parts[1]]) and
    the third segment as it stands. *)
Record Segments : Type := {
  seg_Header : MapClaims;
  seg_Claims : MapClaims;
  seg_text : string;
  seg_signature : string;
}.

(** ** The libraries below the token code

    The wire codec (encoding/json and base64url), the hash functions and
    bcrypt's comparison are taken as they are: functions of the library,
    with nothing assumed of them here. *)

Class Lib : Type := {
  (** [Token.SigningString]: the two encoded segments, joined by a dot. *)
  SigningString : MapClaims → MapClaims → string;
  (** [Token.EncodeSegment] and [Parser.DecodeSegment]: base64url. *)
  EncodeSegment : string → string;
  DecodeSegment : string → option string;
  (** The split and the decoding of header and claims; [None] for a string
      that does not have three segments or whose segments do not decode. *)
  SplitToken : string → option Segments;
  (** [crypto.Hash.Available] *)
  hash_Available : Hash → bool;
  (** [hmac.New(h, key)], [Write(msg)], [Sum(nil)] *)
  hmac_Sum : Hash → string → string → string;
  (** [bcrypt.CompareHashAndPassword(hash, password)] *)
  bcrypt_CompareHashAndPassword : string → string → option error;
  (** [bcrypt.GenerateFromPassword(password, cost)] on the salt it drew. *)
  bcrypt_hash : string → string → Z → result string;
  (** [ulid.MustNew(ms, entropy).String()] on the entropy it drew. *)
  ulid_String : Z → string → string;
}.

(** The codec reads back what it wrote. *)
Definition codec_roundtrip {L : Lib} : Prop :=
  ∀ (h c : MapClaims) (sig : string),
    SplitToken (SigningString h c +:+ "." +:+ EncodeSegment sig)
    = Some {| seg_Header := h; seg_Claims := c;
              seg_text := SigningString h c;
              seg_signature := EncodeSegment sig |}
    ∧ DecodeSegment (EncodeSegment sig) = Some sig.

(** ** Models *)

(** [models.User] *)
Record User : Type := {
  User_ID : string;
  User_Username : string;
  User_Password : string;
  User_Email : string;
  User_Image : string;
  User_CreatedAt : Time;
  User_UpdatedAt : Time;
}.

(** [models.UserResponse]: the user without the password hash. *)
Record UserResponse : Type := {
  UserResponse_ID : string;
  UserResponse_Username : string;
  UserResponse_Email : string;
  UserResponse_Image : string;
  UserResponse_CreatedAt : Time;
  UserResponse_UpdatedAt : Time;
}.

(** [User.ToResponse] *)
Definition ToResponse (u : User) : UserResponse :=
  {| UserResponse_ID := User_ID u;
     UserResponse_Username := User_Username u;
     UserResponse_Email := User_Email u;
     UserResponse_Image := User_Image u;
     UserResponse_CreatedAt := User_CreatedAt u;
     UserResponse_UpdatedAt := User_UpdatedAt u |}.

Record LoginRequest : Type := {
  LoginRequest_Username : string;
  LoginRequest_Password : string;
}.

Record LoginByEmailRequest : Type := {
  LoginByEmailRequest_Email : string;
  LoginByEmailRequest_Password : string;
}.

Record LoginResponse : Type := {
  LoginResponse_AccessToken : string;
  LoginResponse_RefreshToken : string;
  LoginResponse_ExpiresAt : Time;
  LoginResponse_User : UserResponse;
}.

Record RefreshTokenRequest : Type := {
  RefreshTokenRequest_RefreshToken : string;
}.

Record RefreshTokenResponse : Type := {
  RefreshTokenResponse_AccessToken : string;
  RefreshTokenResponse_ExpiresAt : Time;
}.

Record RegisterRequest : Type := {
  RegisterRequest_Username : string;
  RegisterRequest_Password : string;
  RegisterRequest_Email : string;
  RegisterRequest_Image : string;
}.

Record RegisterResponse : Type := {
  RegisterResponse_User : UserResponse;
  RegisterResponse_Message : string;
}.

Record LogoutRequest : Type := {
  LogoutRequest_RefreshToken : string;
}.

Record LogoutResponse : Type := {
  LogoutResponse_Message : string;
}.

Record AuthUserResponse : Type := {
  AuthUserResponse_User : UserResponse;
}.

(** [models.Claims] *)
Record Claims : Type := {
  Claims_UserID : string;
  Claims_Username : string;
  Claims_SessionID : string;
  Claims_Type : string;
}.

Definition TokenTypeAccess : string := "access".
Definition TokenTypeRefresh : string := "refresh".

(** [models.Session] *)
Record Session : Type := {
  Session_ID : string;
  Session_UserID : string;
  Session_CreatedAt : Time;
  Session_ExpiresAt : Time;
  Session_IsActive : bool;
}.

(** [config.JWTConfig] *)
Record JWTConfig : Type := {
  JWTConfig_Secret : string;
  JWTConfig_AccessExpiry : Duration;
  JWTConfig_RefreshExpiry : Duration;
  JWTConfig_Issuer : string;
}.

(** ** Commands and programs

    The interfaces the service is written against ([UserRepository],
    [SessionStore]) and the ambient calls it makes ([time.Now], the ULID
    generator, bcrypt's salted hashing) as commands, each with the type of
    its answer. *)

Inductive Cmd : Type → Type :=
| time_Now : Cmd Time
| ulid_MustNew (ms : Z) : Cmd string
| bcrypt_GenerateFromPassword (password : string) (cost : Z) : Cmd (result string)
| userRepo_ExistsByUsername (username : string) : Cmd (result bool)
| userRepo_ExistsByEmail (email : string) : Cmd (result bool)
| userRepo_Create (user : User) : Cmd (result User)
| userRepo_GetByUsername (username : string) : Cmd (result User)
| userRepo_GetByEmail (email : string) : Cmd (result User)
| userRepo_GetByID (id : string) : Cmd (result User)
| sessionStore_Set (sessionID : string) (session : Session) (expiration : Duration)
  : Cmd (option error)
| sessionStore_Get (sessionID : string) : Cmd (result Session)
| sessionStore_Delete (sessionID : string) : Cmd (option error).

Inductive Prog (A : Type) : Type :=
| Ret (a : A)
| Do {X : Type} (c : Cmd X) (k : X → Prog A).
Arguments Ret {A} a.
Arguments Do {A X} c k.

Fixpoint bind {A B : Type} (p : Prog A) (f : A → Prog B) : Prog B :=
  match p with
  | Ret a => f a
  | Do c k => Do c (fun x => bind (k x) f)
  end.

(** A single command as a program. *)
Definition call {X : Type} (c : Cmd X) : Prog X := Do c Ret.

#[global] Instance Prog_ret : MRet Prog := @Ret.
#[global] Instance Prog_bind : MBind Prog := fun A B f p => bind p f.

(** A handler answers every command on a world of its own. *)
Definition Handler (W : Type) : Type := ∀ X : Type, Cmd X → W → X * W.

(** A command that was issued, without its answer. *)
Definition Event : Type := { X : Type & Cmd X }.
Definition event {X : Type} (c : Cmd X) : Event := existT X c.

(** What running a program gives: its value, the world it leaves and the
    commands it issued, in order. *)
Record Outcome (W A : Type) : Type := {
  value : A;
  world : W;
  trace : list Event;
}.
Arguments value {W A} o.
Arguments world {W A} o.
Arguments trace {W A} o.

Fixpoint exec {W A : Type} (h : Handler W) (p : Prog A) (w : W) : Outcome W A :=
  match p with
  | Ret a => {| value := a; world := w; trace := [] |}
  | Do c k =>
      let xw := h _ c w in
      let o := exec h (k (fst xw)) (snd xw) in
      {| value := value o; world := world o; trace := event c :: trace o |}
  end.

(** The calls to the session store among the events of a trace. *)
Definition is_store_call (e : Event) : bool :=
  match projT2 e with
  | sessionStore_Set _ _ _ | sessionStore_Get _ | sessionStore_Delete _ => true
  | _ => false
  end.

Definition store_calls (tr : list Event) : list Event := List.filter is_store_call tr.

(** ** golang-jwt/jwt v5, as the service uses it

    [NewWithClaims], [SignedString] and [Parse] with the default parser
    and validator: no list of valid methods, no leeway, no expected
    issuer, audience or subject, and [iat] not verified. *)

Module jwt.

Inductive SigningMethod : Type :=
| SigningMethodHMAC (h : Hash)
| SigningMethodRSA (h : Hash)
| SigningMethodRSAPSS (h : Hash)
| SigningMethodECDSA (h : Hash)
| SigningMethodEd25519
| SigningMethodNone.

Definition SigningMethodHS256 : SigningMethod := SigningMethodHMAC SHA256.

Definition hash_bits (h : Hash) : string :=
  match h with SHA256 => "256" | SHA384 => "384" | SHA512 => "512" end.

(** [SigningMethod.Alg] *)
Definition Alg (m : SigningMethod) : string :=
  match m with
  | SigningMethodHMAC h => "HS" +:+ hash_bits h
  | SigningMethodRSA h => "RS" +:+ hash_bits h
  | SigningMethodRSAPSS h => "PS" +:+ hash_bits h
  | SigningMethodECDSA h => "ES" +:+ hash_bits h
  | SigningMethodEd25519 => "EdDSA"
  | SigningMethodNone => "none"
  end.

(** The methods the library registers at start-up. *)
Definition registered : list SigningMethod :=
  [ SigningMethodHMAC SHA256; SigningMethodHMAC SHA384; SigningMethodHMAC SHA512;
    SigningMethodRSA SHA256; SigningMethodRSA SHA384; SigningMethodRSA SHA512;
    SigningMethodRSAPSS SHA256; SigningMethodRSAPSS SHA384; SigningMethodRSAPSS SHA512;
    SigningMethodECDSA SHA256; SigningMethodECDSA SHA384; SigningMethodECDSA SHA512;
    SigningMethodEd25519; SigningMethodNone ].

(** [GetSigningMethod(alg)]; [None] is Go's [nil]. *)
Definition GetSigningMethod (alg : string) : option SigningMethod :=
  List.find (fun m => String.eqb (Alg m) alg) registered.

(** [jwt.Token] *)
Record Token : Type := {
  Token_Method : SigningMethod;
  Token_Header : MapClaims;
  Token_Claims : MapClaims;
  Token_Signature : string;
  Token_Valid : bool;
}.

(** The sentinel errors. *)
Definition ErrInvalidKeyType : string := "key is of invalid type".
Definition ErrHashUnavailable : string := "the requested hash function is unavailable".
Definition ErrTokenMalformed : string := "token is malformed".
Definition ErrTokenUnverifiable : string := "token is unverifiable".
Definition ErrTokenSignatureInvalid : string := "token signature is invalid".
Definition ErrSignatureInvalid : string := "signature is invalid".
Definition ErrTokenExpired : string := "token is expired".
Definition ErrTokenNotValidYet : string := "token is not valid yet".
Definition ErrTokenInvalidClaims : string := "token has invalid claims".
Definition ErrInvalidType : string := "invalid type for claim".

(** [newError(message, err, more...)]: the errors joined under one text. *)
Definition newError (message : string) (err : error) (more : list error) : error :=
  let first := if String.eqb message "" then Error err
               else Error err +:+ ": " +:+ message in
  wrapErrors (fold_left (fun acc e => acc +:+ ": " +:+ Error e) more first)
             (err :: more).

(** [joinErrors(errs...)] *)
Definition joinErrors (errs : list error) : error :=
  wrapErrors (String.concat ", " (List.map Error errs)) errs.

(** [NewWithClaims(method, claims)] *)
Definition NewWithClaims (method : SigningMethod) (claims : MapClaims) : Token :=
  {| Token_Method := method;
     Token_Header := <["typ" := JString "JWT"]> (<["alg" := JString (Alg method)]> ∅);
     Token_Claims := claims;
     Token_Signature := "";
     Token_Valid := false |}.

Section WithLib.
Context {L : Lib}.

(** [SigningMethod.Sign(signingString, key)] with a [[]byte] key: the HMAC
    methods sign when their hash is linked in; every other method wants a
    key of another type. *)
Definition Sign (m : SigningMethod) (signingString key : string) : result string :=
  match m with
  | SigningMethodHMAC h =>
      if hash_Available h then Ok (hmac_Sum h key signingString)
      else Err (errorString ErrHashUnavailable)
  | _ => Err (errorString ErrInvalidKeyType)
  end.

(** [SigningMethod.Verify(signingString, sig, key)] with a [[]byte] key:
    [None] is Go's [nil]. *)
Definition Verify (m : SigningMethod) (signingString sig key : string) : option error :=
  match m with
  | SigningMethodHMAC h =>
      if hash_Available h then
        if String.eqb sig (hmac_Sum h key signingString) then None
        else Some (errorString ErrSignatureInvalid)
      else Some (errorString ErrHashUnavailable)
  | _ => Some (errorString ErrInvalidKeyType)
  end.

(** [Token.SignedString(key)] *)
Definition SignedString (t : Token) (key : string) : result string :=
  let sstr := SigningString (Token_Header t) (Token_Claims t) in
  match Sign (Token_Method t) sstr key with
  | Err err => Err err
  | Ok sig => Ok (sstr +:+ "." +:+ EncodeSegment sig)
  end.

End WithLib.

(** [MapClaims.parseNumericDate(key)]: an absent claim and a claim of 0
    both give no date; a claim that is not a number is an error. *)
Definition parseNumericDate (m : MapClaims) (key : string) : result (option Time) :=
  match m !! key with
  | None => Ok None
  | Some (JNumber n) => if n =? 0 then Ok None else Ok (Some (time_Unix n))
  | Some _ => Err (newError (key +:+ " is invalid") (errorString ErrInvalidType) [])
  end.

(** [Validator.verifyExpiresAt(claims, now, false)] *)
Definition verifyExpiresAt (claims : MapClaims) (cmp : Time) : option error :=
  match parseNumericDate claims "exp" with
  | Err err => Some err
  | Ok None => None
  | Ok (Some exp) =>
      if Time_Before cmp exp then None else Some (errorString ErrTokenExpired)
  end.

(** [Validator.verifyNotBefore(claims, now, false)] *)
Definition verifyNotBefore (claims : MapClaims) (cmp : Time) : option error :=
  match parseNumericDate claims "nbf" with
  | Err err => Some err
  | Ok None => None
  | Ok (Some nbf) =>
      if negb (Time_Before cmp nbf) then None
      else Some (errorString ErrTokenNotValidYet)
  end.

(** [Validator.Validate(claims)] at the instant [now] it read from the
    clock. *)
Definition Validate (claims : MapClaims) (now : Time) : option error :=
  let errs := (option_list (verifyExpiresAt claims now)
               ++ option_list (verifyNotBefore claims now))%list in
  match errs with
  | [] => None
  | _ => Some (joinErrors errs)
  end.

Section WithLib.
Context {L : Lib}.

(** [Parse(tokenString, keyFunc)], its checks in the order of v5.2: the
    split and the decoding (a string the codec cannot split and decode is
    malformed, whichever segment is at fault), the signing method, the
    signature segment, the key function, the signature, the claims.  The
    clock is read by the validator, once the signature has been accepted.
    On an error the token Go returns beside it is dropped, as the caller
    drops it. *)
Definition Parse (tokenString : string) (keyFunc : Token → result string)
  : Prog (result Token) :=
  match SplitToken tokenString with
  | None => mret (Err (newError "could not decode the token"
                                (errorString ErrTokenMalformed) []))
  | Some parts =>
      match seg_Header parts !! "alg" with
      | Some (JString alg) =>
          match GetSigningMethod alg with
          | None => mret (Err (newError "signing method (alg) is unavailable"
                                        (errorString ErrTokenUnverifiable) []))
          | Some method =>
              match DecodeSegment (seg_signature parts) with
              | None => mret (Err (newError "could not base64 decode signature"
                                            (errorString ErrTokenMalformed) []))
              | Some sig =>
                  let token :=
                    {| Token_Method := method;
                       Token_Header := seg_Header parts;
                       Token_Claims := seg_Claims parts;
                       Token_Signature := sig;
                       Token_Valid := false |} in
                  match keyFunc token with
                  | Err err =>
                      mret (Err (newError "error while executing keyfunc"
                                          (errorString ErrTokenUnverifiable) [err]))
                  | Ok key =>
                      match Verify method (seg_text parts) sig key with
                      | Some err =>
                          mret (Err (newError ""
                                       (errorString ErrTokenSignatureInvalid) [err]))
                      | None =>
                          now ← call time_Now;
                          match Validate (seg_Claims parts) now with
                          | Some err =>
                              mret (Err (newError ""
                                           (errorString ErrTokenInvalidClaims) [err]))
                          | None =>
                              mret (Ok {| Token_Method := method;
                                          Token_Header := seg_Header parts;
                                          Token_Claims := seg_Claims parts;
                                          Token_Signature := sig;
                                          Token_Valid := true |})
                          end
                      end
                  end
              end
          end
      | _ => mret (Err (newError "signing method (alg) is unspecified"
                                 (errorString ErrTokenUnverifiable) []))
      end
  end.

End WithLib.

End jwt.

(** ** The auth service ([internal/services/auth.go]) *)

(** [AuthService]: the repository and the session store are reached
    through the commands; what is left of the struct is its configuration. *)
Record AuthService : Type := {
  config : JWTConfig;
  bcryptCost : Z;
}.

Definition bcrypt_DefaultCost : Z := 10.

(** [NewAuthService] *)
Definition NewAuthService (config : JWTConfig) : AuthService :=
  {| config := config; bcryptCost := bcrypt_DefaultCost |}.

(** [SetBcryptCost] *)
Definition SetBcryptCost (s : AuthService) (cost : Z) : AuthService :=
  {| config := config s; bcryptCost := cost |}.

(** [ulid.Timestamp(t)]: milliseconds since the epoch. *)
Definition ulid_Timestamp (t : Time) : Z := t / 1000000.

(** [v, _ := claims[key].(string)] *)
Definition claim_string (claims : MapClaims) (key : string) : string :=
  match claims !! key with
  | Some (JString s) => s
  | _ => ""
  end.

(** [%v] of [token.Header["alg"]]; the key function runs only once the
    method has been looked up by that entry, which is then a string. *)
Definition fmt_v (v : option JValue) : string :=
  match v with
  | Some (JString s) => s
  | Some (JBool true) => "true"
  | Some (JBool false) => "false"
  | Some (JNumber _) => "<number>"
  | Some JNull | None => "<nil>"
  end.

Section Service.
Context {L : Lib}.

(** [hashPassword] *)
Definition hashPassword (s : AuthService) (password : string) : Prog (result string) :=
  r ← call (bcrypt_GenerateFromPassword password (bcryptCost s));
  match r with
  | Err err => mret (Err err)
  | Ok hashedBytes => mret (Ok hashedBytes)
  end.

(** [verifyPassword] *)
Definition verifyPassword (hashedPassword password : string) : option error :=
  bcrypt_CompareHashAndPassword hashedPassword password.

(** The claims both kinds of token carry. *)
Definition token_claims (s : AuthService) (claims : Claims) (exp iat : Z) : MapClaims :=
  <["userId" := JString (Claims_UserID claims)]>
  (<["username" := JString (Claims_Username claims)]>
  (<["sessionId" := JString (Claims_SessionID claims)]>
  (<["type" := JString (Claims_Type claims)]>
  (<["iss" := JString (JWTConfig_Issuer (config s))]>
  (<["exp" := JNumber exp]>
  (<["iat" := JNumber iat]> ∅)))))).

(** [generateAccessToken] *)
Definition generateAccessToken (s : AuthService) (userID username sessionID : string)
  : Prog (result string) :=
  let claims := {| Claims_UserID := userID; Claims_Username := username;
                   Claims_SessionID := sessionID; Claims_Type := TokenTypeAccess |} in
  t_exp ← call time_Now;
  t_iat ← call time_Now;
  let token := jwt.NewWithClaims jwt.SigningMethodHS256
                 (token_claims s claims
                    (Time_Unix (Time_Add t_exp (JWTConfig_AccessExpiry (config s))))
                    (Time_Unix t_iat)) in
  mret (jwt.SignedString token (JWTConfig_Secret (config s))).

(** [generateRefreshToken] *)
Definition generateRefreshToken (s : AuthService) (userID username sessionID : string)
  : Prog (result string) :=
  let claims := {| Claims_UserID := userID; Claims_Username := username;
                   Claims_SessionID := sessionID; Claims_Type := TokenTypeRefresh |} in
  t_exp ← call time_Now;
  t_iat ← call time_Now;
  let token := jwt.NewWithClaims jwt.SigningMethodHS256
                 (token_claims s claims
                    (Time_Unix (Time_Add t_exp (JWTConfig_RefreshExpiry (config s))))
                    (Time_Unix t_iat)) in
  mret (jwt.SignedString token (JWTConfig_Secret (config s))).

(** The key function [validateToken] hands to [jwt.Parse]. *)
Definition keyFunc (s : AuthService) (token : jwt.Token) : result string :=
  match jwt.Token_Method token with
  | jwt.SigningMethodHMAC _ => Ok (JWTConfig_Secret (config s))
  | _ => Err (fmt_Errorf ("unexpected signing method: "
                          +:+ fmt_v (jwt.Token_Header token !! "alg")))
  end.

(** [validateToken]; [token.Claims] is a [jwt.MapClaims] by its type here,
    so the type assertion on it has no failing branch. *)
Definition validateToken (s : AuthService) (tokenString expectedType : string)
  : Prog (result Claims) :=
  r ← jwt.Parse tokenString (keyFunc s);
  match r with
  | Err err => mret (Err (fmt_Errorf_w "failed to parse token: " err))
  | Ok token =>
      if negb (jwt.Token_Valid token) then mret (Err (fmt_Errorf "invalid token"))
      else
        let claims := jwt.Token_Claims token in
        match claims !! "type" with
        | Some (JString tokenType) =>
            if negb (String.eqb tokenType expectedType)
            then mret (Err (fmt_Errorf "invalid token type"))
            else
              let userID := claim_string claims "userId" in
              let username := claim_string claims "username" in
              let sessionID := claim_string claims "sessionId" in
              if String.eqb userID "" || String.eqb username ""
                 || String.eqb sessionID ""
              then mret (Err (fmt_Errorf "missing required claims"))
              else mret (Ok {| Claims_UserID := userID;
                               Claims_Username := username;
                               Claims_SessionID := sessionID;
                               Claims_Type := tokenType |})
        | _ => mret (Err (fmt_Errorf "invalid token type"))
        end
  end.

(** [ValidateAccessToken] *)
Definition ValidateAccessToken (s : AuthService) (tokenString : string)
  : Prog (result Claims) :=
  validateToken s tokenString TokenTypeAccess.

(** [Register] *)
Definition Register (s : AuthService) (req : RegisterRequest)
  : Prog (result RegisterResponse) :=
  r ← call (userRepo_ExistsByUsername (RegisterRequest_Username req));
  match r with
  | Err err => mret (Err (fmt_Errorf_w "failed to check username: " err))
  | Ok true => mret (Err (fmt_Errorf "username already exists"))
  | Ok false =>
      checked ←
        (if negb (String.eqb (RegisterRequest_Email req) "") then
           r ← call (userRepo_ExistsByEmail (RegisterRequest_Email req));
           match r with
           | Err err => mret (Some (fmt_Errorf_w "failed to check email: " err))
           | Ok true => mret (Some (fmt_Errorf "email already exists"))
           | Ok false => mret None
           end
         else mret None);
      match checked with
      | Some err => mret (Err err)
      | None =>
          r ← hashPassword s (RegisterRequest_Password req);
          match r with
          | Err err => mret (Err (fmt_Errorf_w "failed to hash password: " err))
          | Ok hashedPassword =>
              let user := {| User_ID := "";
                             User_Username := RegisterRequest_Username req;
                             User_Password := hashedPassword;
                             User_Email := RegisterRequest_Email req;
                             User_Image := RegisterRequest_Image req;
                             User_CreatedAt := time_Zero;
                             User_UpdatedAt := time_Zero |} in
              r ← call (userRepo_Create user);
              match r with
              | Err err => mret (Err (fmt_Errorf_w "failed to create user: " err))
              | Ok createdUser =>
                  mret (Ok {| RegisterResponse_User := ToResponse createdUser;
                              RegisterResponse_Message :=
                                "User registered successfully" |})
              end
          end
      end
  end.

(** What [Login] and [LoginByEmail] both do once the password has been
    verified (the source writes it out in each): a new session is stored,
    then the two tokens are generated. *)
Definition openSession (s : AuthService) (user : User) : Prog (result LoginResponse) :=
  t_id ← call time_Now;
  sessionID ← call (ulid_MustNew (ulid_Timestamp t_id));
  t_created ← call time_Now;
  t_expires ← call time_Now;
  let session :=
    {| Session_ID := sessionID;
       Session_UserID := User_ID user;
       Session_CreatedAt := t_created;
       Session_ExpiresAt := Time_Add t_expires (JWTConfig_RefreshExpiry (config s));
       Session_IsActive := true |} in
  e ← call (sessionStore_Set sessionID session (JWTConfig_RefreshExpiry (config s)));
  match e with
  | Some err => mret (Err (fmt_Errorf_w "failed to create session: " err))
  | None =>
      r ← generateAccessToken s (User_ID user) (User_Username user) sessionID;
      match r with
      | Err err => mret (Err (fmt_Errorf_w "failed to generate access token: " err))
      | Ok accessToken =>
          r ← generateRefreshToken s (User_ID user) (User_Username user) sessionID;
          match r with
          | Err err =>
              mret (Err (fmt_Errorf_w "failed to generate refresh token: " err))
          | Ok refreshToken =>
              t ← call time_Now;
              mret (Ok {| LoginResponse_AccessToken := accessToken;
                          LoginResponse_RefreshToken := refreshToken;
                          LoginResponse_ExpiresAt :=
                            Time_Add t (JWTConfig_AccessExpiry (config s));
                          LoginResponse_User := ToResponse user |})
          end
      end
  end.

(** [Login] *)
Definition Login (s : AuthService) (req : LoginRequest) : Prog (result LoginResponse) :=
  r ← call (userRepo_GetByUsername (LoginRequest_Username req));
  match r with
  | Err _ => mret (Err (fmt_Errorf "invalid credentials"))
  | Ok user =>
      match verifyPassword (User_Password user) (LoginRequest_Password req) with
      | Some _ => mret (Err (fmt_Errorf "invalid credentials"))
      | None => openSession s user
      end
  end.

(** [LoginByEmail] *)
Definition LoginByEmail (s : AuthService) (req : LoginByEmailRequest)
  : Prog (result LoginResponse) :=
  r ← call (userRepo_GetByEmail (LoginByEmailRequest_Email req));
  match r with
  | Err _ => mret (Err (fmt_Errorf "invalid credentials"))
  | Ok user =>
      match verifyPassword (User_Password user) (LoginByEmailRequest_Password req) with
      | Some _ => mret (Err (fmt_Errorf "invalid credentials"))
      | None => openSession s user
      end
  end.

(** [RefreshToken]; [time.Now] is read only when the session is active,
    as Go's [||] evaluates. *)
Definition RefreshToken (s : AuthService) (req : RefreshTokenRequest)
  : Prog (result RefreshTokenResponse) :=
  r ← validateToken s (RefreshTokenRequest_RefreshToken req) TokenTypeRefresh;
  match r with
  | Err _ => mret (Err (fmt_Errorf "invalid refresh token"))
  | Ok claims =>
      r ← call (sessionStore_Get (Claims_SessionID claims));
      match r with
      | Err _ => mret (Err (fmt_Errorf "invalid session"))
      | Ok session =>
          expired ←
            (if negb (Session_IsActive session) then mret true
             else now ← call time_Now;
                  mret (Time_After now (Session_ExpiresAt session)));
          if expired : bool then mret (Err (fmt_Errorf "session expired"))
          else
            r ← generateAccessToken s (Claims_UserID claims) (Claims_Username claims)
                  (Claims_SessionID claims);
            match r with
            | Err err =>
                mret (Err (fmt_Errorf_w "failed to generate access token: " err))
            | Ok accessToken =>
                t ← call time_Now;
                mret (Ok {| RefreshTokenResponse_AccessToken := accessToken;
                            RefreshTokenResponse_ExpiresAt :=
                              Time_Add t (JWTConfig_AccessExpiry (config s)) |})
            end
      end
  end.

(** [Logout]: whatever the deletion answers is logged and dropped. *)
Definition Logout (s : AuthService) (req : LogoutRequest) : Prog (result LogoutResponse) :=
  _ ← (if negb (String.eqb (LogoutRequest_RefreshToken req) "") then
         r ← validateToken s (LogoutRequest_RefreshToken req) TokenTypeRefresh;
         match r with
         | Ok claims =>
             _ ← call (sessionStore_Delete (Claims_SessionID claims));
             mret ()
         | Err _ => mret ()
         end
       else mret ());
  mret (Ok {| LogoutResponse_Message := "Logged out successfully" |}).

(** [GetAuthenticatedUser] *)
Definition GetAuthenticatedUser (s : AuthService) (userID : string)
  : Prog (result AuthUserResponse) :=
  r ← call (userRepo_GetByID userID);
  match r with
  | Err err => mret (Err (fmt_Errorf_w "failed to get user: " err))
  | Ok user => mret (Ok {| AuthUserResponse_User := ToResponse user |})
  end.

End Service.

(** ** The Redis session store ([internal/services/session_store.go])

    The Redis server is a keyspace of values with an optional deadline, a
    clock of its own, and a fault: while [redis_err] is set every command
    fails with it and changes nothing.  A key whose deadline has passed is
    gone for every command. *)

(** What a key holds: the JSON of a session, or other bytes. *)
Inductive RedisData : Type :=
| JSON_Session (s : Session)
| Bytes (b : string).

(** [json.Marshal(session)]: a [Session] always encodes. *)
Definition json_Marshal (session : Session) : RedisData := JSON_Session session.

(** [json.Unmarshal(data, &session)] *)
Definition json_Unmarshal (data : RedisData) : result Session :=
  match data with
  | JSON_Session s => Ok s
  | Bytes _ => Err (errorString "invalid character looking for beginning of value")
  end.

Record Redis : Type := {
  redis_keys : gmap string (RedisData * option Time);
  redis_time : Time;
  redis_err : option error;
}.

Definition redis_Nil : string := "redis: nil".
Definition redis_KeepTTL : Duration := -1.

(** [err == sentinel] *)
Definition is_sentinel (err : error) (sentinel : string) : bool :=
  match err with
  | errorString s => String.eqb s sentinel
  | _ => false
  end.

(** The entry of a key that has not expired. *)
Definition redis_live (r : Redis) (key : string) : option (RedisData * option Time) :=
  match redis_keys r !! key with
  | Some (data, Some deadline) =>
      if deadline <=? redis_time r then None else Some (data, Some deadline)
  | Some (data, None) => Some (data, None)
  | None => None
  end.

(** [client.Set(ctx, key, value, expiration).Err()]: a positive expiration
    sets a deadline, [KeepTTL] keeps the one the key has, any other leaves
    the key without one. *)
Definition redis_Set (key : string) (value : RedisData) (expiration : Duration)
    (r : Redis) : option error * Redis :=
  match redis_err r with
  | Some err => (Some err, r)
  | None =>
      let deadline :=
        if 0 <? expiration then Some (redis_time r + expiration)
        else if expiration =? redis_KeepTTL then
          match redis_live r key with
          | Some (_, d) => d
          | None => None
          end
        else None in
      (None, {| redis_keys := <[key := (value, deadline)]> (redis_keys r);
                redis_time := redis_time r;
                redis_err := redis_err r |})
  end.

(** [client.Get(ctx, key).Result()] *)
Definition redis_Get (key : string) (r : Redis) : result RedisData :=
  match redis_err r with
  | Some err => Err err
  | None =>
      match redis_live r key with
      | Some (data, _) => Ok data
      | None => Err (errorString redis_Nil)
      end
  end.

(** [client.Del(ctx, key).Result()]: the number of keys removed. *)
Definition redis_Del (key : string) (r : Redis) : result Z * Redis :=
  match redis_err r with
  | Some err => (Err err, r)
  | None =>
      (Ok (match redis_live r key with Some _ => 1 | None => 0 end),
       {| redis_keys := delete key (redis_keys r);
          redis_time := redis_time r;
          redis_err := redis_err r |})
  end.

(** [RedisSessionStore]: the client is the [Redis] of the world. *)
Record RedisSessionStore : Type := {
  prefix : string;
}.

(** [NewRedisSessionStore] *)
Definition NewRedisSessionStore : RedisSessionStore := {| prefix := "session:" |}.

(** [getKey] *)
Definition getKey (s : RedisSessionStore) (sessionID : string) : string :=
  prefix s +:+ sessionID.

(** [RedisSessionStore.Set] *)
Definition RedisSessionStore_Set (s : RedisSessionStore) (sessionID : string)
    (session : Session) (expiration : Duration) (r : Redis) : option error * Redis :=
  let key := getKey s sessionID in
  let data := json_Marshal session in
  match redis_Set key data expiration r with
  | (Some err, r') => (Some (fmt_Errorf_w "failed to store session: " err), r')
  | (None, r') => (None, r')
  end.

(** [RedisSessionStore.Get] *)
Definition RedisSessionStore_Get (s : RedisSessionStore) (sessionID : string)
    (r : Redis) : result Session :=
  let key := getKey s sessionID in
  match redis_Get key r with
  | Err err =>
      if is_sentinel err redis_Nil then Err (fmt_Errorf "session not found")
      else Err (fmt_Errorf_w "failed to get session: " err)
  | Ok data =>
      match json_Unmarshal data with
      | Err err => Err (fmt_Errorf_w "failed to unmarshal session: " err)
      | Ok session => Ok session
      end
  end.

(** [RedisSessionStore.Delete] *)
Definition RedisSessionStore_Delete (s : RedisSessionStore) (sessionID : string)
    (r : Redis) : option error * Redis :=
  let key := getKey s sessionID in
  match redis_Del key r with
  | (Err err, r') => (Some (fmt_Errorf_w "failed to delete session: " err), r')
  | (Ok result, r') =>
      if result =? 0 then (Some (fmt_Errorf "session not found"), r')
      else (None, r')
  end.

(** ** The MongoDB user repository ([internal/repository/mongodb/user.go])

    The [users] collection is the list of its documents in insertion
    order, under the unique indexes of [scripts/mongo-init.js]: [_id],
    [username], and [email] where the document has one (the index is
    sparse and an empty email is not stored).  While [mongo_err] is set
    every operation fails with it and changes nothing. *)

(** [MongoUser] *)
Record MongoUser : Type := {
  MongoUser_ID : string;
  MongoUser_Username : string;
  MongoUser_PasswordHash : string;
  MongoUser_Email : string;
  MongoUser_Image : string;
  MongoUser_CreatedAt : Time;
  MongoUser_UpdatedAt : Time;
  MongoUser_DeletedAt : option Time;
}.

Record Mongo : Type := {
  mongo_users : list MongoUser;
  mongo_err : option error;
}.

Definition mongo_ErrNoDocuments : string := "mongo: no documents in result".

(** [{"deletedAt": {"$exists": false}}] *)
Definition not_deleted (d : MongoUser) : bool :=
  match MongoUser_DeletedAt d with
  | None => true
  | Some _ => false
  end.

(** The three filters of the repository. *)
Definition by_id (id : string) (d : MongoUser) : bool :=
  String.eqb (MongoUser_ID d) id && not_deleted d.
Definition by_username (username : string) (d : MongoUser) : bool :=
  String.eqb (MongoUser_Username d) username && not_deleted d.
Definition by_email (email : string) (d : MongoUser) : bool :=
  String.eqb (MongoUser_Email d) email && not_deleted d.

(** [collection.FindOne(ctx, filter).Decode(&doc)] *)
Definition mongo_FindOne (filter : MongoUser → bool) (m : Mongo) : result MongoUser :=
  match mongo_err m with
  | Some err => Err err
  | None =>
      match List.find filter (mongo_users m) with
      | Some d => Ok d
      | None => Err (errorString mongo_ErrNoDocuments)
      end
  end.

(** [collection.CountDocuments(ctx, filter)] *)
Definition mongo_CountDocuments (filter : MongoUser → bool) (m : Mongo) : result Z :=
  match mongo_err m with
  | Some err => Err err
  | None => Ok (Z.of_nat (length (List.filter filter (mongo_users m))))
  end.

(** A document in the way of [d] under one of the unique indexes. *)
Definition duplicate_key (d : MongoUser) (m : Mongo) : bool :=
  existsb (fun d' =>
             String.eqb (MongoUser_ID d') (MongoUser_ID d)
             || String.eqb (MongoUser_Username d') (MongoUser_Username d)
             || (negb (String.eqb (MongoUser_Email d) "")
                 && String.eqb (MongoUser_Email d') (MongoUser_Email d)))
          (mongo_users m).

(** [collection.InsertOne(ctx, doc)] *)
Definition mongo_InsertOne (d : MongoUser) (m : Mongo) : option error * Mongo :=
  match mongo_err m with
  | Some err => (Some err, m)
  | None =>
      if duplicate_key d m
      then (Some (errorString "E11000 duplicate key error"), m)
      else (None, {| mongo_users := (mongo_users m ++ [d])%list;
                     mongo_err := mongo_err m |})
  end.

(** [mongoUserToModel] *)
Definition mongoUserToModel (mongoUser : MongoUser) : User :=
  {| User_ID := MongoUser_ID mongoUser;
     User_Username := MongoUser_Username mongoUser;
     User_Password := MongoUser_PasswordHash mongoUser;
     User_Email := MongoUser_Email mongoUser;
     User_Image := MongoUser_Image mongoUser;
     User_CreatedAt := MongoUser_CreatedAt mongoUser;
     User_UpdatedAt := MongoUser_UpdatedAt mongoUser |}.

(** [userRepository.Create], on the id and the instant it drew. *)
Definition userRepository_Create (id : string) (now : Time) (user : User) (m : Mongo)
  : result User * Mongo :=
  let mongoUser :=
    {| MongoUser_ID := id;
       MongoUser_Username := User_Username user;
       MongoUser_PasswordHash := User_Password user;
       MongoUser_Email := User_Email user;
       MongoUser_Image := User_Image user;
       MongoUser_CreatedAt := now;
       MongoUser_UpdatedAt := now;
       MongoUser_DeletedAt := None |} in
  match mongo_InsertOne mongoUser m with
  | (Some err, m') => (Err (fmt_Errorf_w "failed to create user: " err), m')
  | (None, m') => (Ok (mongoUserToModel mongoUser), m')
  end.

(** What [GetByID], [GetByEmail] and [GetByUsername] do with the answer of
    [FindOne]. *)
Definition found_user (r : result MongoUser) : result User :=
  match r with
  | Err err =>
      if is_sentinel err mongo_ErrNoDocuments then Err (fmt_Errorf "user not found")
      else Err (fmt_Errorf_w "failed to get user: " err)
  | Ok mongoUser => Ok (mongoUserToModel mongoUser)
  end.

(** [userRepository.GetByID] *)
Definition userRepository_GetByID (id : string) (m : Mongo) : result User :=
  found_user (mongo_FindOne (by_id id) m).

(** [userRepository.GetByEmail] *)
Definition userRepository_GetByEmail (email : string) (m : Mongo) : result User :=
  if String.eqb email "" then Err (fmt_Errorf "email cannot be empty")
  else found_user (mongo_FindOne (by_email email) m).

(** [userRepository.GetByUsername] *)
Definition userRepository_GetByUsername (username : string) (m : Mongo) : result User :=
  found_user (mongo_FindOne (by_username username) m).

(** What [ExistsByEmail] and [ExistsByUsername] do with the count. *)
Definition counted (r : result Z) : result bool :=
  match r with
  | Err err => Err (fmt_Errorf_w "failed to check if user exists: " err)
  | Ok count => Ok (0 <? count)
  end.

(** [userRepository.ExistsByEmail] *)
Definition userRepository_ExistsByEmail (email : string) (m : Mongo) : result bool :=
  if String.eqb email "" then Ok false
  else counted (mongo_CountDocuments (by_email email) m).

(** [userRepository.ExistsByUsername] *)
Definition userRepository_ExistsByUsername (username : string) (m : Mongo) : result bool :=
  counted (mongo_CountDocuments (by_username username) m).

(** ** The world of the running server

    As [setupDependencies] wires it: the MongoDB repository and the Redis
    session store, a clock that answers [time.Now] with its next reading
    and a random source that answers with its next draw. *)

Record World : Type := {
  clock : nat → Time;
  ticks : nat;
  random : nat → string;
  draws : nat;
  redis : Redis;
  mongo : Mongo;
}.

Definition tick (w : World) : World :=
  {| clock := clock w; ticks := S (ticks w); random := random w; draws := draws w;
     redis := redis w; mongo := mongo w |}.

Definition draw (w : World) : World :=
  {| clock := clock w; ticks := ticks w; random := random w; draws := S (draws w);
     redis := redis w; mongo := mongo w |}.

Definition with_redis (w : World) (r : Redis) : World :=
  {| clock := clock w; ticks := ticks w; random := random w; draws := draws w;
     redis := r; mongo := mongo w |}.

Definition with_mongo (w : World) (m : Mongo) : World :=
  {| clock := clock w; ticks := ticks w; random := random w; draws := draws w;
     redis := redis w; mongo := m |}.

Section Server.
Context {L : Lib}.

(** The handler of the running server.  [userRepository.Create] draws its
    id ([ulid.MustNew] at [time.Now]) and then reads [time.Now] again. *)
Definition server (store : RedisSessionStore) : Handler World :=
  fun X c =>
    match c in Cmd X return World → X * World with
    | time_Now => fun w => (clock w (ticks w), tick w)
    | ulid_MustNew ms => fun w => (ulid_String ms (random w (draws w)), draw w)
    | bcrypt_GenerateFromPassword password cost => fun w =>
        (bcrypt_hash (random w (draws w)) password cost, draw w)
    | userRepo_ExistsByUsername username => fun w =>
        (userRepository_ExistsByUsername username (mongo w), w)
    | userRepo_ExistsByEmail email => fun w =>
        (userRepository_ExistsByEmail email (mongo w), w)
    | userRepo_Create user => fun w =>
        let t_id := clock w (ticks w) in
        let id := ulid_String (ulid_Timestamp t_id) (random w (draws w)) in
        let w1 := draw (tick w) in
        let now := clock w1 (ticks w1) in
        let w2 := tick w1 in
        let rm := userRepository_Create id now user (mongo w2) in
        (fst rm, with_mongo w2 (snd rm))
    | userRepo_GetByUsername username => fun w =>
        (userRepository_GetByUsername username (mongo w), w)
    | userRepo_GetByEmail email => fun w =>
        (userRepository_GetByEmail email (mongo w), w)
    | userRepo_GetByID id => fun w =>
        (userRepository_GetByID id (mongo w), w)
    | sessionStore_Set sessionID session expiration => fun w =>
        let er := RedisSessionStore_Set store sessionID session expiration (redis w) in
        (fst er, with_redis w (snd er))
    | sessionStore_Get sessionID => fun w =>
        (RedisSessionStore_Get store sessionID (redis w), w)
    | sessionStore_Delete sessionID => fun w =>
        let er := RedisSessionStore_Delete store sessionID (redis w) in
        (fst er, with_redis w (snd er))
    end.

End Server.

(** ** The rest of the session store ([internal/services/session_store.go])

    [KEYS pattern] answers with the keys the pattern matches, in no
    particular order; the matching of a key against a glob pattern is the
    Redis server's. *)

Class Glob : Type := stringmatch : string → string → bool.

(** [client.Keys(ctx, pattern).Result()] *)
Definition redis_Keys {G : Glob} (pattern : string) (r : Redis) : result (list string) :=
  match redis_err r with
  | Some err => Err err
  | None =>
      Ok (List.filter
            (λ key, stringmatch pattern key
                    && match redis_live r key with Some _ => true | None => false end)
            (List.map fst (map_to_list (redis_keys r))))
  end.

(** [client.Del(ctx, keys...).Result()]: the keys are removed one after
    the other, and the answer is the number of those that were there. *)
Definition redis_Del_keys (keys : list string) (r : Redis) : result Z * Redis :=
  match redis_err r with
  | Some err => (Err err, r)
  | None =>
      let removed :=
        fold_left
          (λ (acc : Z * Redis) (key : string),
             (fst acc + match redis_live (snd acc) key with Some _ => 1 | None => 0 end,
              {| redis_keys := delete key (redis_keys (snd acc));
                 redis_time := redis_time (snd acc);
                 redis_err := redis_err (snd acc) |}))
          keys (0, r) in
      (Ok (fst removed), snd removed)
  end.

(** [client.Exists(ctx, key).Result()]: the number of the keys that exist. *)
Definition redis_Exists (key : string) (r : Redis) : result Z :=
  match redis_err r with
  | Some err => Err err
  | None => Ok (match redis_live r key with Some _ => 1 | None => 0 end)
  end.

(** go-redis [formatSec]: the whole seconds of a duration, and one second
    for a positive duration below a second. *)
Definition formatSec (dur : Duration) : Z :=
  if (0 <? dur) && (dur <? time_Second) then 1 else Z.quot dur time_Second.

(** [client.Expire(ctx, key, expiration)]: [EXPIRE key seconds].  The
    answer says whether the key was there; a timeout that is not positive
    removes the key. *)
Definition redis_Expire (key : string) (expiration : Duration) (r : Redis)
  : result bool * Redis :=
  match redis_err r with
  | Some err => (Err err, r)
  | None =>
      match redis_live r key with
      | None => (Ok false, r)
      | Some (data, _) =>
          let seconds := formatSec expiration in
          (Ok true,
           {| redis_keys :=
                if seconds <=? 0 then delete key (redis_keys r)
                else <[key := (data, Some (redis_time r + seconds * time_Second))]>
                       (redis_keys r);
              redis_time := redis_time r;
              redis_err := redis_err r |})
      end
  end.

(** The body of the loop of [DeleteUserSessions] and [CountUserSessions]:
    whether the key holds a session of the user; a key that cannot be
    read or decoded is skipped. *)
Definition holds_session_of (userID : string) (r : Redis) (key : string) : bool :=
  match redis_Get key r with
  | Err _ => false
  | Ok data =>
      match json_Unmarshal data with
      | Err _ => false
      | Ok session => String.eqb (Session_UserID session) userID
      end
  end.

Section Keys.
Context {G : Glob}.

(** [RedisSessionStore.DeleteUserSessions] *)
Definition RedisSessionStore_DeleteUserSessions (s : RedisSessionStore) (userID : string)
    (r : Redis) : option error * Redis :=
  let pattern := prefix s +:+ "*" in
  match redis_Keys pattern r with
  | Err err => (Some (fmt_Errorf_w "failed to get session keys: " err), r)
  | Ok keys =>
      let userSessionKeys := List.filter (holds_session_of userID r) keys in
      if 0 <? Z.of_nat (length userSessionKeys) then
        match redis_Del_keys userSessionKeys r with
        | (Err err, r') => (Some (fmt_Errorf_w "failed to delete user sessions: " err), r')
        | (Ok _, r') => (None, r')
        end
      else (None, r)
  end.

(** [RedisSessionStore.Count] *)
Definition RedisSessionStore_Count (s : RedisSessionStore) (r : Redis) : result Z :=
  let pattern := prefix s +:+ "*" in
  match redis_Keys pattern r with
  | Err err => Err (fmt_Errorf_w "failed to count sessions: " err)
  | Ok keys => Ok (Z.of_nat (length keys))
  end.

(** [RedisSessionStore.CountUserSessions] *)
Definition RedisSessionStore_CountUserSessions (s : RedisSessionStore) (userID : string)
    (r : Redis) : result Z :=
  let pattern := prefix s +:+ "*" in
  match redis_Keys pattern r with
  | Err err => Err (fmt_Errorf_w "failed to get session keys: " err)
  | Ok keys => Ok (Z.of_nat (length (List.filter (holds_session_of userID r) keys)))
  end.

End Keys.

(** [RedisSessionStore.Exists] *)
Definition RedisSessionStore_Exists (s : RedisSessionStore) (sessionID : string)
    (r : Redis) : result bool :=
  let key := getKey s sessionID in
  match redis_Exists key r with
  | Err err => Err (fmt_Errorf_w "failed to check session existence: " err)
  | Ok result => Ok (0 <? result)
  end.

(** [RedisSessionStore.Extend] *)
Definition RedisSessionStore_Extend (s : RedisSessionStore) (sessionID : string)
    (expiration : Duration) (r : Redis) : option error * Redis :=
  let key := getKey s sessionID in
  match redis_Exists key r with
  | Err err => (Some (fmt_Errorf_w "failed to check session existence: " err), r)
  | Ok exists_ =>
      if exists_ =? 0 then (Some (fmt_Errorf "session not found"), r)
      else
        match redis_Expire key expiration r with
        | (Err err, r') =>
            (Some (fmt_Errorf_w "failed to extend session expiration: " err), r')
        | (Ok _, r') => (None, r')
        end
  end.

(** ** The rest of the MongoDB user repository

    [UpdateOne] changes the first document the filter matches and answers
    with the number it matched; none of the fields these methods set is
    under an index. *)

Fixpoint update_first (filter : MongoUser → bool) (update : MongoUser → MongoUser)
    (docs : list MongoUser) : option (list MongoUser) :=
  match docs with
  | [] => None
  | d :: rest =>
      if filter d then Some (update d :: rest)
      else match update_first filter update rest with
           | Some rest' => Some (d :: rest')
           | None => None
           end
  end.

(** [collection.UpdateOne(ctx, filter, update)], answering [MatchedCount]. *)
Definition mongo_UpdateOne (filter : MongoUser → bool) (update : MongoUser → MongoUser)
    (m : Mongo) : result Z * Mongo :=
  match mongo_err m with
  | Some err => (Err err, m)
  | None =>
      match update_first filter update (mongo_users m) with
      | Some docs => (Ok 1, {| mongo_users := docs; mongo_err := mongo_err m |})
      | None => (Ok 0, m)
      end
  end.

(** [userRepository.Delete], on the two instants it read: the document
    stays in the collection, marked as deleted. *)
Definition userRepository_Delete (deletedAt updatedAt : Time) (id : string) (m : Mongo)
  : option error * Mongo :=
  let update (d : MongoUser) :=
    {| MongoUser_ID := MongoUser_ID d;
       MongoUser_Username := MongoUser_Username d;
       MongoUser_PasswordHash := MongoUser_PasswordHash d;
       MongoUser_Email := MongoUser_Email d;
       MongoUser_Image := MongoUser_Image d;
       MongoUser_CreatedAt := MongoUser_CreatedAt d;
       MongoUser_UpdatedAt := updatedAt;
       MongoUser_DeletedAt := Some deletedAt |} in
  match mongo_UpdateOne (by_id id) update m with
  | (Err err, m') => (Some (fmt_Errorf_w "failed to delete user: " err), m')
  | (Ok MatchedCount, m') =>
      if MatchedCount =? 0 then (Some (fmt_Errorf "user not found"), m')
      else (None, m')
  end.

(** [userRepository.UpdateImage], on the instant it read. *)
Definition userRepository_UpdateImage (now : Time) (id imageURL : string) (m : Mongo)
  : option error * Mongo :=
  let update (d : MongoUser) :=
    {| MongoUser_ID := MongoUser_ID d;
       MongoUser_Username := MongoUser_Username d;
       MongoUser_PasswordHash := MongoUser_PasswordHash d;
       MongoUser_Email := MongoUser_Email d;
       MongoUser_Image := imageURL;
       MongoUser_CreatedAt := MongoUser_CreatedAt d;
       MongoUser_UpdatedAt := now;
       MongoUser_DeletedAt := MongoUser_DeletedAt d |} in
  match mongo_UpdateOne (by_id id) update m with
  | (Err err, m') => (Some (fmt_Errorf_w "failed to update user image: " err), m')
  | (Ok MatchedCount, m') =>
      if MatchedCount =? 0 then (Some (fmt_Errorf "user not found"), m')
      else (None, m')
  end.

(** [userRepository.UpdatePassword], on the instant it read. *)
Definition userRepository_UpdatePassword (now : Time) (id hashedPassword : string)
    (m : Mongo) : option error * Mongo :=
  let update (d : MongoUser) :=
    {| MongoUser_ID := MongoUser_ID d;
       MongoUser_Username := MongoUser_Username d;
       MongoUser_PasswordHash := hashedPassword;
       MongoUser_Email := MongoUser_Email d;
       MongoUser_Image := MongoUser_Image d;
       MongoUser_CreatedAt := MongoUser_CreatedAt d;
       MongoUser_UpdatedAt := now;
       MongoUser_DeletedAt := MongoUser_DeletedAt d |} in
  match mongo_UpdateOne (by_id id) update m with
  | (Err err, m') => (Some (fmt_Errorf_w "failed to update user password: " err), m')
  | (Ok MatchedCount, m') =>
      if MatchedCount =? 0 then (Some (fmt_Errorf "user not found"), m')
      else (None, m')
  end.

(** ** The HTTP layer: Fiber, as the middleware and the handlers use it

    Of a [fiber.Ctx] the middleware reads the [Authorization] header and
    writes the locals; every local the application stores is a string.
    A handler ends by handing the request on ([c.Next()]), by sending a
    status with a JSON body, a [fiber.Map] of strings or a value of the
    response type of the route, or by sending a status alone
    ([c.SendStatus]). *)

Record Ctx : Type := {
  Ctx_Authorization : string;
  Ctx_Locals : gmap string string;
}.

(** [c.Locals(key, value)] *)
Definition Locals (c : Ctx) (key value : string) : Ctx :=
  {| Ctx_Authorization := Ctx_Authorization c;
     Ctx_Locals := <[key := value]> (Ctx_Locals c) |}.

(** [fiber.Map{...}] *)
Definition fiber_Map (entries : list (string * string)) : gmap string string :=
  list_to_map entries.

Inductive Handled (A : Type) : Type :=
| Next (c : Ctx)
| Status_Map (status : Z) (body : gmap string string)
| Status_JSON (status : Z) (body : A)
| SendStatus (status : Z).
Arguments Next {A} c.
Arguments Status_Map {A} status body.
Arguments Status_JSON {A} status body.
Arguments SendStatus {A} status.

Definition fiber_StatusOK : Z := 200.
Definition fiber_StatusCreated : Z := 201.
Definition fiber_StatusBadRequest : Z := 400.
Definition fiber_StatusUnauthorized : Z := 401.
Definition fiber_StatusConflict : Z := 409.
Definition fiber_StatusInternalServerError : Z := 500.

(** A route with a middleware in front of its handler: the handler runs
    on the context the middleware hands on. *)
Definition route {A : Type} (middleware handler : Ctx → Prog (Handled A)) (c : Ctx)
  : Prog (Handled A) :=
  r ← middleware c;
  match r with
  | Next c' => handler c'
  | sent => mret sent
  end.

(** [strings.HasPrefix] and [strings.TrimPrefix] *)
Definition strings_HasPrefix (s prefix : string) : bool := String.prefix prefix s.

Definition strings_TrimPrefix (s prefix : string) : string :=
  if strings_HasPrefix s prefix
  then String.substring (String.length prefix)
         (String.length s - String.length prefix)%nat s
  else s.

(** ** The authentication middleware ([internal/middleware/auth.go]) *)

Section Middleware.
Context {L : Lib} {A : Type}.

(** [AuthMiddleware] *)
Definition AuthMiddleware (authService : AuthService) (c : Ctx) : Prog (Handled A) :=
  let authHeader := Ctx_Authorization c in
  if String.eqb authHeader "" then
    mret (Status_Map fiber_StatusUnauthorized
            (fiber_Map [("error", "Unauthorized");
                        ("message", "Missing authorization header")]))
  else if negb (strings_HasPrefix authHeader "Bearer ") then
    mret (Status_Map fiber_StatusUnauthorized
            (fiber_Map [("error", "Unauthorized");
                        ("message", "Invalid authorization header format")]))
  else
    let token := strings_TrimPrefix authHeader "Bearer " in
    if String.eqb token "" then
      mret (Status_Map fiber_StatusUnauthorized
              (fiber_Map [("error", "Unauthorized"); ("message", "Empty token")]))
    else
      r ← ValidateAccessToken authService token;
      match r with
      | Err _ =>
          mret (Status_Map fiber_StatusUnauthorized
                  (fiber_Map [("error", "Unauthorized"); ("message", "Invalid token")]))
      | Ok claims =>
          let c := Locals c "userID" (Claims_UserID claims) in
          let c := Locals c "username" (Claims_Username claims) in
          let c := Locals c "sessionID" (Claims_SessionID claims) in
          mret (Next c)
      end.

(** [OptionalAuthMiddleware] *)
Definition OptionalAuthMiddleware (authService : AuthService) (c : Ctx)
  : Prog (Handled A) :=
  let authHeader := Ctx_Authorization c in
  if String.eqb authHeader "" then mret (Next c)
  else if negb (strings_HasPrefix authHeader "Bearer ") then mret (Next c)
  else
    let token := strings_TrimPrefix authHeader "Bearer " in
    if String.eqb token "" then mret (Next c)
    else
      r ← ValidateAccessToken authService token;
      match r with
      | Err _ => mret (Next c)
      | Ok claims =>
          let c := Locals c "userID" (Claims_UserID claims) in
          let c := Locals c "username" (Claims_Username claims) in
          let c := Locals c "sessionID" (Claims_SessionID claims) in
          mret (Next c)
      end.

End Middleware.

(** [GetUserID], [GetUsername] and [GetSessionID]: the local, or [""]
    when there is none. *)
Definition GetUserID (c : Ctx) : string :=
  match Ctx_Locals c !! "userID" with
  | Some userID => userID
  | None => ""
  end.

Definition GetUsername (c : Ctx) : string :=
  match Ctx_Locals c !! "username" with
  | Some username => username
  | None => ""
  end.

Definition GetSessionID (c : Ctx) : string :=
  match Ctx_Locals c !! "sessionID" with
  | Some sessionID => sessionID
  | None => ""
  end.

(** [RequireAuth]: what it sends, or nothing. *)
Definition RequireAuth (c : Ctx) : option (Z * gmap string string) :=
  let userID := GetUserID c in
  if String.eqb userID "" then
    Some (fiber_StatusUnauthorized,
          fiber_Map [("error", "Unauthorized"); ("message", "Authentication required")])
  else None.

(** [IsAuthenticated] *)
Definition IsAuthenticated (c : Ctx) : bool := negb (String.eqb (GetUserID c) "").

(** [utils.ExtractTokenFromHeader] ([internal/utils/jwt.go]) *)
Definition ExtractTokenFromHeader (authHeader : string) : result string :=
  if String.eqb authHeader "" then Err (fmt_Errorf "authorization header is empty")
  else
    let bearerPrefix := "Bearer " in
    if (String.length authHeader <? String.length bearerPrefix)%nat
       || negb (String.eqb (String.substring 0 (String.length bearerPrefix) authHeader)
                           bearerPrefix)
    then Err (fmt_Errorf "authorization header must start with 'Bearer '")
    else
      let token := String.substring (String.length bearerPrefix)
                     (String.length authHeader - String.length bearerPrefix)%nat
                     authHeader in
      if String.eqb token "" then Err (fmt_Errorf "token is empty")
      else Ok token.

(** ** The auth handlers ([internal/handlers/auth.go])

    A handler runs on what [c.BodyParser(&req)] made of the body of the
    request, the request or an error, and on the answer of
    [h.validator.Struct(&req)]. *)

Section Handlers.
Context {L : Lib}.

(** [AuthHandler.Register] *)
Definition AuthHandler_Register (authService : AuthService)
    (BodyParser : result RegisterRequest)
    (validator_Struct : RegisterRequest → option error)
  : Prog (Handled RegisterResponse) :=
  match BodyParser with
  | Err _ =>
      mret (Status_Map fiber_StatusBadRequest
              (fiber_Map [("error", "Bad Request"); ("message", "Invalid request body")]))
  | Ok req =>
      match validator_Struct req with
      | Some err =>
          mret (Status_Map fiber_StatusBadRequest
                  (fiber_Map [("error", "Validation Error");
                              ("message", "Invalid input data");
                              ("details", Error err)]))
      | None =>
          r ← Register authService req;
          match r with
          | Err err =>
              if String.eqb (Error err) "username already exists"
                 || String.eqb (Error err) "email already exists"
              then mret (Status_Map fiber_StatusConflict
                           (fiber_Map [("error", "Conflict"); ("message", Error err)]))
              else mret (Status_Map fiber_StatusInternalServerError
                           (fiber_Map [("error", "Internal Server Error");
                                       ("message", "Failed to register user")]))
          | Ok response => mret (Status_JSON fiber_StatusCreated response)
          end
      end
  end.

(** [AuthHandler.Login] *)
Definition AuthHandler_Login (authService : AuthService)
    (BodyParser : result LoginRequest)
    (validator_Struct : LoginRequest → option error)
  : Prog (Handled LoginResponse) :=
  match BodyParser with
  | Err _ =>
      mret (Status_Map fiber_StatusBadRequest
              (fiber_Map [("error", "Bad Request"); ("message", "Invalid request body")]))
  | Ok req =>
      match validator_Struct req with
      | Some err =>
          mret (Status_Map fiber_StatusBadRequest
                  (fiber_Map [("error", "Validation Error");
                              ("message", "Invalid input data");
                              ("details", Error err)]))
      | None =>
          r ← Login authService req;
          match r with
          | Err err =>
              if String.eqb (Error err) "invalid credentials"
              then mret (Status_Map fiber_StatusUnauthorized
                           (fiber_Map [("error", "Unauthorized");
                                       ("message", "Invalid credentials")]))
              else mret (Status_Map fiber_StatusInternalServerError
                           (fiber_Map [("error", "Internal Server Error");
                                       ("message", "Failed to login user")]))
          | Ok response => mret (Status_JSON fiber_StatusOK response)
          end
      end
  end.

(** [AuthHandler.LoginByEmail] *)
Definition AuthHandler_LoginByEmail (authService : AuthService)
    (BodyParser : result LoginByEmailRequest)
    (validator_Struct : LoginByEmailRequest → option error)
  : Prog (Handled LoginResponse) :=
  match BodyParser with
  | Err _ =>
      mret (Status_Map fiber_StatusBadRequest
              (fiber_Map [("error", "Bad Request"); ("message", "Invalid request body")]))
  | Ok req =>
      match validator_Struct req with
      | Some err =>
          mret (Status_Map fiber_StatusBadRequest
                  (fiber_Map [("error", "Validation Error");
                              ("message", "Invalid input data");
                              ("details", Error err)]))
      | None =>
          r ← LoginByEmail authService req;
          match r with
          | Err err =>
              if String.eqb (Error err) "invalid credentials"
              then mret (Status_Map fiber_StatusUnauthorized
                           (fiber_Map [("error", "Unauthorized");
                                       ("message", "Invalid credentials")]))
              else mret (Status_Map fiber_StatusInternalServerError
                           (fiber_Map [("error", "Internal Server Error");
                                       ("message", "Failed to login user")]))
          | Ok response => mret (Status_JSON fiber_StatusOK response)
          end
      end
  end.

(** [AuthHandler.RefreshToken] *)
Definition AuthHandler_RefreshToken (authService : AuthService)
    (BodyParser : result RefreshTokenRequest)
    (validator_Struct : RefreshTokenRequest → option error)
  : Prog (Handled RefreshTokenResponse) :=
  match BodyParser with
  | Err _ =>
      mret (Status_Map fiber_StatusBadRequest
              (fiber_Map [("error", "Bad Request"); ("message", "Invalid request body")]))
  | Ok req =>
      match validator_Struct req with
      | Some err =>
          mret (Status_Map fiber_StatusBadRequest
                  (fiber_Map [("error", "Validation Error");
                              ("message", "Invalid input data");
                              ("details", Error err)]))
      | None =>
          r ← RefreshToken authService req;
          match r with
          | Err err =>
              if String.eqb (Error err) "invalid refresh token"
                 || String.eqb (Error err) "invalid session"
                 || String.eqb (Error err) "session expired"
              then mret (Status_Map fiber_StatusUnauthorized
                           (fiber_Map [("error", "Unauthorized"); ("message", Error err)]))
              else mret (Status_Map fiber_StatusInternalServerError
                           (fiber_Map [("error", "Internal Server Error");
                                       ("message", "Failed to refresh token")]))
          | Ok response => mret (Status_JSON fiber_StatusOK response)
          end
      end
  end.

(** [AuthHandler.Logout]: a body that does not parse is an empty request. *)
Definition AuthHandler_Logout (authService : AuthService)
    (BodyParser : result LogoutRequest) : Prog (Handled LogoutResponse) :=
  let req := match BodyParser with
             | Err _ => {| LogoutRequest_RefreshToken := "" |}
             | Ok req => req
             end in
  r ← Logout authService req;
  match r with
  | Err err =>
      mret (Status_Map fiber_StatusInternalServerError
              (fiber_Map [("error", "Internal Server Error");
                          ("message", "Failed to logout user")]))
  | Ok response => mret (Status_JSON fiber_StatusOK response)
  end.

(** [AuthHandler.Me] *)
Definition AuthHandler_Me (authService : AuthService) (c : Ctx)
  : Prog (Handled AuthUserResponse) :=
  let userID := GetUserID c in
  if String.eqb userID "" then
    mret (Status_Map fiber_StatusUnauthorized
            (fiber_Map [("error", "Unauthorized"); ("message", "Authentication required")]))
  else
    r ← GetAuthenticatedUser authService userID;
    match r with
    | Err err =>
        mret (Status_Map fiber_StatusInternalServerError
                (fiber_Map [("error", "Internal Server Error");
                            ("message", "Failed to get user information")]))
    | Ok response => mret (Status_JSON fiber_StatusOK response)
    end.

(** The routes of [setupRoutes] that stand behind the middleware
    ([internal/server/routes.go]): [POST /auth/logout] and [GET /auth/me]. *)
Definition route_logout (authService : AuthService) (BodyParser : result LogoutRequest)
  : Ctx → Prog (Handled LogoutResponse) :=
  route (AuthMiddleware authService) (λ _, AuthHandler_Logout authService BodyParser).

Definition route_me (authService : AuthService) : Ctx → Prog (Handled AuthUserResponse) :=
  route (AuthMiddleware authService) (AuthHandler_Me authService).

End Handlers.

(** ** The configuration ([internal/config/config.go]) *)

Record ServerConfig : Type := {
  ServerConfig_Host : string;
  ServerConfig_Port : Z;
  ServerConfig_ReadTimeout : Duration;
  ServerConfig_WriteTimeout : Duration;
  ServerConfig_Environment : string;
}.

Record DatabaseConfig : Type := {
  DatabaseConfig_Driver : string;
  DatabaseConfig_PostgresURL : string;
  DatabaseConfig_MongoURL : string;
  DatabaseConfig_MaxOpenConns : Z;
  DatabaseConfig_MaxIdleConns : Z;
}.

Record RedisConfig : Type := {
  RedisConfig_URL : string;
  RedisConfig_Password : string;
  RedisConfig_DB : Z;
}.

Record RateLimitConfig : Type := {
  RateLimitConfig_Requests : Z;
  RateLimitConfig_Window : Duration;
}.

Record LogConfig : Type := {
  LogConfig_Level : string;
  LogConfig_Format : string;
}.

Record Config : Type := {
  Config_Server : ServerConfig;
  Config_Database : DatabaseConfig;
  Config_Redis : RedisConfig;
  Config_JWT : JWTConfig;
  Config_RateLimit : RateLimitConfig;
  Config_Log : LogConfig;
}.

(** [validate] *)
Definition validate (config : Config) : option error :=
  let port := ServerConfig_Port (Config_Server config) in
  let driver := DatabaseConfig_Driver (Config_Database config) in
  if (port <=? 0) || (65535 <? port) then
    Some (fmt_Errorf ("invalid server port: " +:+ pretty port))
  else if negb (String.eqb driver "postgres") && negb (String.eqb driver "mongodb") then
    Some (fmt_Errorf ("unsupported database driver: " +:+ driver))
  else if String.eqb driver "postgres"
          && String.eqb (DatabaseConfig_PostgresURL (Config_Database config)) "" then
    Some (fmt_Errorf "postgres_url is required when using postgres driver")
  else if String.eqb driver "mongodb"
          && String.eqb (DatabaseConfig_MongoURL (Config_Database config)) "" then
    Some (fmt_Errorf "mongo_url is required when using mongodb driver")
  else if String.eqb (JWTConfig_Secret (Config_JWT config)) "" then
    Some (fmt_Errorf "jwt secret is required")
  else if (String.length (JWTConfig_Secret (Config_JWT config)) <? 32)%nat then
    Some (fmt_Errorf "jwt secret must be at least 32 characters long")
  else if String.eqb (RedisConfig_URL (Config_Redis config)) "" then
    Some (fmt_Errorf "redis url is required")
  else None.

(** [Config.GetAddress] *)
Definition GetAddress (c : Config) : string :=
  ServerConfig_Host (Config_Server c) +:+ ":" +:+ pretty (ServerConfig_Port (Config_Server c)).

(** [Config.IsDevelopment] and [Config.IsProduction] *)
Definition IsDevelopment (c : Config) : bool :=
  String.eqb (ServerConfig_Environment (Config_Server c)) "development".

Definition IsProduction (c : Config) : bool :=
  String.eqb (ServerConfig_Environment (Config_Server c)) "production".

(** ** Todos ([internal/models/todo.go]) *)

Record Todo : Type := {
  Todo_ID : string;
  Todo_UserID : string;
  Todo_Title : string;
  Todo_Description : string;
  Todo_Status : string;
  Todo_Priority : string;
  Todo_DueDate : option Time;
  Todo_CreatedAt : Time;
  Todo_UpdatedAt : Time;
}.

Record CreateTodoRequest : Type := {
  CreateTodoRequest_Title : string;
  CreateTodoRequest_Description : string;
  CreateTodoRequest_Priority : string;
  CreateTodoRequest_DueDate : option Time;
}.

Record UpdateTodoRequest : Type := {
  UpdateTodoRequest_Title : string;
  UpdateTodoRequest_Description : string;
  UpdateTodoRequest_Status : string;
  UpdateTodoRequest_Priority : string;
  UpdateTodoRequest_DueDate : option Time;
}.

Record UpdateTodoStatusRequest : Type := {
  UpdateTodoStatusRequest_Status : string;
}.

Record TodoListResponse : Type := {
  TodoListResponse_Todos : list Todo;
  TodoListResponse_Total : Z;
  TodoListResponse_Limit : Z;
  TodoListResponse_Offset : Z;
}.

Definition TodoStatusPending : string := "pending".
Definition TodoStatusInProgress : string := "in_progress".
Definition TodoStatusCompleted : string := "completed".

Definition TodoPriorityLow : string := "low".
Definition TodoPriorityMedium : string := "medium".
Definition TodoPriorityHigh : string := "high".

(** [models.IsValidStatus] and [models.IsValidPriority] *)
Definition IsValidStatus (status : string) : bool :=
  String.eqb status TodoStatusPending
  || String.eqb status TodoStatusInProgress
  || String.eqb status TodoStatusCompleted.

Definition IsValidPriority (priority : string) : bool :=
  String.eqb priority TodoPriorityLow
  || String.eqb priority TodoPriorityMedium
  || String.eqb priority TodoPriorityHigh.

(** ** The todo handlers ([internal/handlers/todo.go])

    The handlers are written against the interface [TodoRepository]
    ([internal/repository/interfaces/todo.go]); its methods are the
    commands of their programs.  A method that returns a page returns the
    todos and their total, or an error. *)

Inductive TodoCmd : Type → Type :=
| todoRepo_Create (todo : Todo) : TodoCmd (result Todo)
| todoRepo_GetByID (id : string) : TodoCmd (result Todo)
| todoRepo_GetByUserID (userID : string) (limit offset : Z)
  : TodoCmd (result (list Todo * Z))
| todoRepo_Update (todo : Todo) : TodoCmd (result Todo)
| todoRepo_Delete (id : string) : TodoCmd (option error)
| todoRepo_UpdateStatus (id status : string) : TodoCmd (option error)
| todoRepo_GetByStatus (userID status : string) (limit offset : Z)
  : TodoCmd (result (list Todo * Z))
| todoRepo_GetByPriority (userID priority : string) (limit offset : Z)
  : TodoCmd (result (list Todo * Z))
| todoRepo_GetOverdue (userID : string) (limit offset : Z)
  : TodoCmd (result (list Todo * Z))
| todoRepo_Search (userID query : string) (limit offset : Z)
  : TodoCmd (result (list Todo * Z))
| todoRepo_CountByStatus (userID : string) : TodoCmd (result (gmap string Z)).

Inductive TodoProg (A : Type) : Type :=
| TodoRet (a : A)
| TodoDo {X : Type} (c : TodoCmd X) (k : X → TodoProg A).
Arguments TodoRet {A} a.
Arguments TodoDo {A X} c k.

Fixpoint todo_bind {A B : Type} (p : TodoProg A) (f : A → TodoProg B) : TodoProg B :=
  match p with
  | TodoRet a => f a
  | TodoDo c k => TodoDo c (fun x => todo_bind (k x) f)
  end.

Definition todo_call {X : Type} (c : TodoCmd X) : TodoProg X := TodoDo c TodoRet.

#[global] Instance TodoProg_ret : MRet TodoProg := @TodoRet.
#[global] Instance TodoProg_bind : MBind TodoProg := fun A B f p => todo_bind p f.

(** An implementation of the repository, on a state of its own, and the
    calls a handler made. *)
Definition TodoRepository (W : Type) : Type := ∀ X : Type, TodoCmd X → W → X * W.

Definition TodoEvent : Type := { X : Type & TodoCmd X }.
Definition todo_event {X : Type} (c : TodoCmd X) : TodoEvent := existT X c.

Record Handling (W A : Type) : Type := {
  reply : A;
  repository : W;
  calls : list TodoEvent;
}.
Arguments reply {W A} h.
Arguments repository {W A} h.
Arguments calls {W A} h.

Fixpoint handle {W A : Type} (repo : TodoRepository W) (p : TodoProg A) (w : W)
  : Handling W A :=
  match p with
  | TodoRet a => {| reply := a; repository := w; calls := [] |}
  | TodoDo c k =>
      let xw := repo _ c w in
      let o := handle repo (k (fst xw)) (snd xw) in
      {| reply := reply o; repository := repository o; calls := todo_event c :: calls o |}
  end.

Definition fiber_StatusNoContent : Z := 204.
Definition fiber_StatusNotFound : Z := 404.

(** The page a handler asks for, from what [strconv.Atoi] made of the
    query parameters [limit] and [offset]. *)
Definition page_limit (limit : Z) : Z :=
  if (limit <=? 0) || (100 <? limit) then 10 else limit.

Definition page_offset (offset : Z) : Z :=
  if offset <? 0 then 0 else offset.

(** [TodoHandler.CreateTodo] *)
Definition TodoHandler_CreateTodo (c : Ctx) (BodyParser : result CreateTodoRequest)
    (validator_Struct : CreateTodoRequest → option error) : TodoProg (Handled Todo) :=
  let userID := GetUserID c in
  if String.eqb userID "" then
    mret (Status_Map fiber_StatusUnauthorized
            (fiber_Map [("error", "Unauthorized"); ("message", "Authentication required")]))
  else
    match BodyParser with
    | Err _ =>
        mret (Status_Map fiber_StatusBadRequest
                (fiber_Map [("error", "Bad Request"); ("message", "Invalid request body")]))
    | Ok req =>
        match validator_Struct req with
        | Some err =>
            mret (Status_Map fiber_StatusBadRequest
                    (fiber_Map [("error", "Validation Error");
                                ("message", "Invalid input data");
                                ("details", Error err)]))
        | None =>
            let todo :=
              {| Todo_ID := "";
                 Todo_UserID := userID;
                 Todo_Title := CreateTodoRequest_Title req;
                 Todo_Description := CreateTodoRequest_Description req;
                 Todo_Status := "";
                 Todo_Priority := CreateTodoRequest_Priority req;
                 Todo_DueDate := CreateTodoRequest_DueDate req;
                 Todo_CreatedAt := time_Zero;
                 Todo_UpdatedAt := time_Zero |} in
            r ← todo_call (todoRepo_Create todo);
            match r with
            | Err _ =>
                mret (Status_Map fiber_StatusInternalServerError
                        (fiber_Map [("error", "Internal Server Error");
                                    ("message", "Failed to create todo")]))
            | Ok createdTodo => mret (Status_JSON fiber_StatusCreated createdTodo)
            end
        end
    end.

(** The end of the handlers that answer with a page. *)
Definition page_response (r : result (list Todo * Z)) (limit offset : Z)
    (message : string) : Handled TodoListResponse :=
  match r with
  | Err _ =>
      Status_Map fiber_StatusInternalServerError
        (fiber_Map [("error", "Internal Server Error"); ("message", message)])
  | Ok (todos, total) =>
      Status_JSON fiber_StatusOK
        {| TodoListResponse_Todos := todos;
           TodoListResponse_Total := total;
           TodoListResponse_Limit := limit;
           TodoListResponse_Offset := offset |}
  end.

(** [TodoHandler.GetTodos], on the query parameters: [limit] and [offset]
    as [strconv.Atoi] read them (0 for a text that is no number, 10 and 0
    where the parameter is missing), [status] and [priority] as they
    stand. *)
Definition TodoHandler_GetTodos (c : Ctx) (limit offset : Z) (status priority : string)
  : TodoProg (Handled TodoListResponse) :=
  let userID := GetUserID c in
  if String.eqb userID "" then
    mret (Status_Map fiber_StatusUnauthorized
            (fiber_Map [("error", "Unauthorized"); ("message", "Authentication required")]))
  else
    let limit := page_limit limit in
    let offset := page_offset offset in
    r ← (if negb (String.eqb status "") && IsValidStatus status then
           todo_call (todoRepo_GetByStatus userID status limit offset)
         else if negb (String.eqb priority "") && IsValidPriority priority then
           todo_call (todoRepo_GetByPriority userID priority limit offset)
         else todo_call (todoRepo_GetByUserID userID limit offset));
    mret (page_response r limit offset "Failed to get todos").

(** What the handlers of a single todo answer for none, and for a
    repository that failed. *)
Definition todo_not_found {A : Type} : Handled A :=
  Status_Map fiber_StatusNotFound
    (fiber_Map [("error", "Not Found"); ("message", "Todo not found")]).

Definition failed_to_get_todo {A : Type} : Handled A :=
  Status_Map fiber_StatusInternalServerError
    (fiber_Map [("error", "Internal Server Error"); ("message", "Failed to get todo")]).

(** [TodoHandler.GetTodo], on the parameter [id] of the path. *)
Definition TodoHandler_GetTodo (c : Ctx) (todoID : string) : TodoProg (Handled Todo) :=
  let userID := GetUserID c in
  if String.eqb userID "" then
    mret (Status_Map fiber_StatusUnauthorized
            (fiber_Map [("error", "Unauthorized"); ("message", "Authentication required")]))
  else if String.eqb todoID "" then
    mret (Status_Map fiber_StatusBadRequest
            (fiber_Map [("error", "Bad Request"); ("message", "Todo ID is required")]))
  else
    r ← todo_call (todoRepo_GetByID todoID);
    match r with
    | Err err =>
        if String.eqb (Error err) "todo not found" then mret todo_not_found
        else mret failed_to_get_todo
    | Ok todo =>
        if negb (String.eqb (Todo_UserID todo) userID) then mret todo_not_found
        else mret (Status_JSON fiber_StatusOK todo)
    end.

(** The fields of the request that are set, written over those of the
    todo. *)
Definition update_fields (req : UpdateTodoRequest) (existingTodo : Todo) : Todo :=
  {| Todo_ID := Todo_ID existingTodo;
     Todo_UserID := Todo_UserID existingTodo;
     Todo_Title :=
       if negb (String.eqb (UpdateTodoRequest_Title req) "")
       then UpdateTodoRequest_Title req else Todo_Title existingTodo;
     Todo_Description :=
       if negb (String.eqb (UpdateTodoRequest_Description req) "")
       then UpdateTodoRequest_Description req else Todo_Description existingTodo;
     Todo_Status :=
       if negb (String.eqb (UpdateTodoRequest_Status req) "")
       then UpdateTodoRequest_Status req else Todo_Status existingTodo;
     Todo_Priority :=
       if negb (String.eqb (UpdateTodoRequest_Priority req) "")
       then UpdateTodoRequest_Priority req else Todo_Priority existingTodo;
     Todo_DueDate :=
       match UpdateTodoRequest_DueDate req with
       | Some dueDate => Some dueDate
       | None => Todo_DueDate existingTodo
       end;
     Todo_CreatedAt := Todo_CreatedAt existingTodo;
     Todo_UpdatedAt := Todo_UpdatedAt existingTodo |}.

(** [TodoHandler.UpdateTodo] *)
Definition TodoHandler_UpdateTodo (c : Ctx) (todoID : string)
    (BodyParser : result UpdateTodoRequest)
    (validator_Struct : UpdateTodoRequest → option error) : TodoProg (Handled Todo) :=
  let userID := GetUserID c in
  if String.eqb userID "" then
    mret (Status_Map fiber_StatusUnauthorized
            (fiber_Map [("error", "Unauthorized"); ("message", "Authentication required")]))
  else if String.eqb todoID "" then
    mret (Status_Map fiber_StatusBadRequest
            (fiber_Map [("error", "Bad Request"); ("message", "Todo ID is required")]))
  else
    match BodyParser with
    | Err _ =>
        mret (Status_Map fiber_StatusBadRequest
                (fiber_Map [("error", "Bad Request"); ("message", "Invalid request body")]))
    | Ok req =>
        match validator_Struct req with
        | Some err =>
            mret (Status_Map fiber_StatusBadRequest
                    (fiber_Map [("error", "Validation Error");
                                ("message", "Invalid input data");
                                ("details", Error err)]))
        | None =>
            r ← todo_call (todoRepo_GetByID todoID);
            match r with
            | Err err =>
                if String.eqb (Error err) "todo not found" then mret todo_not_found
                else mret failed_to_get_todo
            | Ok existingTodo =>
                if negb (String.eqb (Todo_UserID existingTodo) userID)
                then mret todo_not_found
                else
                  u ← todo_call (todoRepo_Update (update_fields req existingTodo));
                  match u with
                  | Err _ =>
                      mret (Status_Map fiber_StatusInternalServerError
                              (fiber_Map [("error", "Internal Server Error");
                                          ("message", "Failed to update todo")]))
                  | Ok updatedTodo => mret (Status_JSON fiber_StatusOK updatedTodo)
                  end
            end
        end
    end.

(** [TodoHandler.DeleteTodo] *)
Definition TodoHandler_DeleteTodo (c : Ctx) (todoID : string) : TodoProg (Handled Todo) :=
  let userID := GetUserID c in
  if String.eqb userID "" then
    mret (Status_Map fiber_StatusUnauthorized
            (fiber_Map [("error", "Unauthorized"); ("message", "Authentication required")]))
  else if String.eqb todoID "" then
    mret (Status_Map fiber_StatusBadRequest
            (fiber_Map [("error", "Bad Request"); ("message", "Todo ID is required")]))
  else
    r ← todo_call (todoRepo_GetByID todoID);
    match r with
    | Err err =>
        if String.eqb (Error err) "todo not found" then mret todo_not_found
        else mret failed_to_get_todo
    | Ok existingTodo =>
        if negb (String.eqb (Todo_UserID existingTodo) userID) then mret todo_not_found
        else
          d ← todo_call (todoRepo_Delete todoID);
          match d with
          | Some _ =>
              mret (Status_Map fiber_StatusInternalServerError
                      (fiber_Map [("error", "Internal Server Error");
                                  ("message", "Failed to delete todo")]))
          | None => mret (SendStatus fiber_StatusNoContent)
          end
    end.

(** [TodoHandler.UpdateTodoStatus] *)
Definition TodoHandler_UpdateTodoStatus (c : Ctx) (todoID : string)
    (BodyParser : result UpdateTodoStatusRequest)
    (validator_Struct : UpdateTodoStatusRequest → option error)
  : TodoProg (Handled Todo) :=
  let userID := GetUserID c in
  if String.eqb userID "" then
    mret (Status_Map fiber_StatusUnauthorized
            (fiber_Map [("error", "Unauthorized"); ("message", "Authentication required")]))
  else if String.eqb todoID "" then
    mret (Status_Map fiber_StatusBadRequest
            (fiber_Map [("error", "Bad Request"); ("message", "Todo ID is required")]))
  else
    match BodyParser with
    | Err _ =>
        mret (Status_Map fiber_StatusBadRequest
                (fiber_Map [("error", "Bad Request"); ("message", "Invalid request body")]))
    | Ok req =>
        match validator_Struct req with
        | Some err =>
            mret (Status_Map fiber_StatusBadRequest
                    (fiber_Map [("error", "Validation Error");
                                ("message", "Invalid input data");
                                ("details", Error err)]))
        | None =>
            r ← todo_call (todoRepo_GetByID todoID);
            match r with
            | Err err =>
                if String.eqb (Error err) "todo not found" then mret todo_not_found
                else mret failed_to_get_todo
            | Ok existingTodo =>
                if negb (String.eqb (Todo_UserID existingTodo) userID)
                then mret todo_not_found
                else
                  u ← todo_call (todoRepo_UpdateStatus todoID
                                   (UpdateTodoStatusRequest_Status req));
                  match u with
                  | Some _ =>
                      mret (Status_Map fiber_StatusInternalServerError
                              (fiber_Map [("error", "Internal Server Error");
                                          ("message", "Failed to update todo status")]))
                  | None =>
                      mret (Status_Map fiber_StatusOK
                              (fiber_Map
                                 [("message", "Todo status updated successfully");
                                  ("status", UpdateTodoStatusRequest_Status req)]))
                  end
            end
        end
    end.

(** [TodoHandler.GetOverdueTodos] *)
Definition TodoHandler_GetOverdueTodos (c : Ctx) (limit offset : Z)
  : TodoProg (Handled TodoListResponse) :=
  let userID := GetUserID c in
  if String.eqb userID "" then
    mret (Status_Map fiber_StatusUnauthorized
            (fiber_Map [("error", "Unauthorized"); ("message", "Authentication required")]))
  else
    let limit := page_limit limit in
    let offset := page_offset offset in
    r ← todo_call (todoRepo_GetOverdue userID limit offset);
    mret (page_response r limit offset "Failed to get overdue todos").

(** [TodoHandler.SearchTodos], on the query parameter [q]. *)
Definition TodoHandler_SearchTodos (c : Ctx) (query : string) (limit offset : Z)
  : TodoProg (Handled TodoListResponse) :=
  let userID := GetUserID c in
  if String.eqb userID "" then
    mret (Status_Map fiber_StatusUnauthorized
            (fiber_Map [("error", "Unauthorized"); ("message", "Authentication required")]))
  else if String.eqb query "" then
    mret (Status_Map fiber_StatusBadRequest
            (fiber_Map [("error", "Bad Request"); ("message", "Search query is required")]))
  else
    let limit := page_limit limit in
    let offset := page_offset offset in
    r ← todo_call (todoRepo_Search userID query limit offset);
    mret (page_response r limit offset "Failed to search todos").

(** [TodoHandler.GetTodoStats]: the body is [fiber.Map{"stats": stats}]. *)
Definition TodoHandler_GetTodoStats (c : Ctx)
  : TodoProg (Handled (gmap string (gmap string Z))) :=
  let userID := GetUserID c in
  if String.eqb userID "" then
    mret (Status_Map fiber_StatusUnauthorized
            (fiber_Map [("error", "Unauthorized"); ("message", "Authentication required")]))
  else
    r ← todo_call (todoRepo_CountByStatus userID);
    match r with
    | Err _ =>
        mret (Status_Map fiber_StatusInternalServerError
                (fiber_Map [("error", "Internal Server Error");
                            ("message", "Failed to get todo statistics")]))
    | Ok stats => mret (Status_JSON fiber_StatusOK {[ "stats" := stats ]})
    end.

(** ** The routes of the todos ([TodoHandler.RegisterRoutes])

    The routes of the group [/todos], in the order of their registration.
    Fiber tries the routes of the method of the request in that order and
    runs the handler of the first whose path matches; none of the
    handlers here hands the request on.  A path matches segment by
    segment: [:name] matches any segment and binds the parameter, every
    other segment matches itself. *)

Inductive TodoRoute : Type :=
| CreateTodo | GetTodos | GetTodo | UpdateTodo | DeleteTodo | UpdateTodoStatus
| GetOverdueTodos | SearchTodos | GetTodoStats.

Definition fiber_MethodGet : string := "GET".
Definition fiber_MethodPost : string := "POST".
Definition fiber_MethodPut : string := "PUT".
Definition fiber_MethodDelete : string := "DELETE".
Definition fiber_MethodPatch : string := "PATCH".

Definition RegisterRoutes : list (string * string * TodoRoute) :=
  [ (fiber_MethodPost, "/", CreateTodo);
    (fiber_MethodGet, "/", GetTodos);
    (fiber_MethodGet, "/:id", GetTodo);
    (fiber_MethodPut, "/:id", UpdateTodo);
    (fiber_MethodDelete, "/:id", DeleteTodo);
    (fiber_MethodPatch, "/:id/status", UpdateTodoStatus);
    (fiber_MethodGet, "/overdue", GetOverdueTodos);
    (fiber_MethodGet, "/search", SearchTodos);
    (fiber_MethodGet, "/stats", GetTodoStats) ].

(** The segments of a path: the texts between its slashes. *)
Fixpoint segments_from (segment path : string) : list string :=
  match path with
  | EmptyString => if String.eqb segment "" then [] else [segment]
  | String c rest =>
      if Ascii.eqb c "/"
      then if String.eqb segment "" then segments_from "" rest
           else segment :: segments_from "" rest
      else segments_from (segment +:+ String c "") rest
  end.

Definition segments (path : string) : list string := segments_from "" path.

Fixpoint match_segments (pattern path : list string) : option (list (string * string)) :=
  match pattern, path with
  | [], [] => Some []
  | p :: pattern, s :: path =>
      match p with
      | String ":" name =>
          match match_segments pattern path with
          | Some params => Some ((name, s) :: params)
          | None => None
          end
      | _ => if String.eqb p s then match_segments pattern path else None
      end
  | _, _ => None
  end.

Fixpoint find_route (routes : list (string * string * TodoRoute)) (method : string)
    (path : list string) : option (TodoRoute * list (string * string)) :=
  match routes with
  | [] => None
  | (m, pattern, handler) :: routes =>
      if String.eqb m method then
        match match_segments (segments pattern) path with
        | Some params => Some (handler, params)
        | None => find_route routes method path
        end
      else find_route routes method path
  end.

(** The handler that serves a request to the group, with the parameters
    of its path; [path] is the path below [/todos]. *)
Definition dispatch (method path : string) : option (TodoRoute * list (string * string)) :=
  find_route RegisterRoutes method (segments path).

(** The commands that change the todos, and the user a command names. *)
Definition is_write (e : TodoEvent) : bool :=
  match projT2 e with
  | todoRepo_Create _ | todoRepo_Update _ | todoRepo_Delete _
  | todoRepo_UpdateStatus _ _ => true
  | _ => false
  end.

Definition user_of (e : TodoEvent) : option string :=
  match projT2 e with
  | todoRepo_Create todo | todoRepo_Update todo => Some (Todo_UserID todo)
  | todoRepo_GetByUserID userID _ _ | todoRepo_GetByStatus userID _ _ _
  | todoRepo_GetByPriority userID _ _ _ | todoRepo_GetOverdue userID _ _
  | todoRepo_Search userID _ _ _ | todoRepo_CountByStatus userID => Some userID
  | todoRepo_GetByID _ | todoRepo_Delete _ | todoRepo_UpdateStatus _ _ => None
  end.

(** ** Notions the properties are stated with *)

(** The calls that write to the session store, and to the repository. *)
Definition writes_store (e : Event) : bool :=
  match projT2 e with
  | sessionStore_Set _ _ _ | sessionStore_Delete _ => true
  | _ => false
  end.

Definition writes_users (e : Event) : bool :=
  match projT2 e with
  | userRepo_Create _ => true
  | _ => false
  end.


(** The names of the HMAC family. *)
Definition hmac_alg (alg : string) : bool :=
  String.eqb alg "HS256" || String.eqb alg "HS384" || String.eqb alg "HS512".

(** The token string [generateAccessToken] and [generateRefreshToken]
    return for the claims [claims], expiring at [exp] and issued at [iat]
    (in seconds), when the signature can be computed. *)
Definition issued {L : Lib} (s : AuthService) (claims : Claims) (exp iat : Z) : string :=
  let token := jwt.NewWithClaims jwt.SigningMethodHS256 (token_claims s claims exp iat) in
  let sstr := SigningString (jwt.Token_Header token) (jwt.Token_Claims token) in
  sstr +:+ "." +:+ EncodeSegment (hmac_Sum SHA256 (JWTConfig_Secret (config s)) sstr).

(** The claims of an access token and of a refresh token. *)
Definition access_claims (userID username sessionID : string) : Claims :=
  {| Claims_UserID := userID; Claims_Username := username;
     Claims_SessionID := sessionID; Claims_Type := TokenTypeAccess |}.
Definition refresh_claims (userID username sessionID : string) : Claims :=
  {| Claims_UserID := userID; Claims_Username := username;
     Claims_SessionID := sessionID; Claims_Type := TokenTypeRefresh |}.


(** The compact serialization of a header, claims and a signature. *)
Definition compact {L : Lib} (header claims : MapClaims) (sig : string) : string :=
  SigningString header claims +:+ "." +:+ EncodeSegment sig.

(** What a token string declares, as the codec decodes it: the entry
    [key] of its header and of its claims. *)
Definition declared_header {L : Lib} (tokenString key : string) : option JValue :=
  match SplitToken tokenString with
  | Some parts => seg_Header parts !! key
  | None => None
  end.
Definition declared_claim {L : Lib} (tokenString key : string) : option JValue :=
  match SplitToken tokenString with
  | Some parts => seg_Claims parts !! key
  | None => None
  end.

(** The string a token declares under [key] in its claims, [""] when it
    declares none. *)
Definition declared_string {L : Lib} (tokenString key : string) : string :=
  match declared_claim tokenString key with
  | Some (JString v) => v
  | _ => ""
  end.

(** A token string signed under the secret of the service with one of the
    HMAC methods: the checks of [jwt.Parse] up to and including that of the
    signature pass. *)
Definition well_signed {L : Lib} (s : AuthService) (tokenString : string) : Prop :=
  ∃ parts alg hs sig,
    SplitToken tokenString = Some parts
    ∧ seg_Header parts !! "alg" = Some (JString alg)
    ∧ jwt.GetSigningMethod alg = Some (jwt.SigningMethodHMAC hs)
    ∧ DecodeSegment (seg_signature parts) = Some sig
    ∧ jwt.Verify (jwt.SigningMethodHMAC hs) (seg_text parts) sig
        (JWTConfig_Secret (config s)) = None.

(** What [Login] and [LoginByEmail] make of [user] on the running server
    in the world [w]: the id of the session (drawn at the first reading of
    the clock), the session they store, and the response with the two
    tokens, each expiring its time after the reading of the clock that
    precedes it. *)
Definition login_sessionID {L : Lib} (w : World) : string :=
  ulid_String (ulid_Timestamp (clock w (ticks w))) (random w (draws w)).

Definition login_session {L : Lib} (s : AuthService) (user : User) (w : World) : Session :=
  {| Session_ID := login_sessionID w;
     Session_UserID := User_ID user;
     Session_CreatedAt := clock w (1 + ticks w)%nat;
     Session_ExpiresAt :=
       Time_Add (clock w (2 + ticks w)%nat) (JWTConfig_RefreshExpiry (config s));
     Session_IsActive := true |}.

Definition login_response {L : Lib} (s : AuthService) (user : User) (w : World)
  : LoginResponse :=
  {| LoginResponse_AccessToken :=
       issued s (access_claims (User_ID user) (User_Username user) (login_sessionID w))
         (Time_Unix (Time_Add (clock w (3 + ticks w)%nat)
                       (JWTConfig_AccessExpiry (config s))))
         (Time_Unix (clock w (4 + ticks w)%nat));
     LoginResponse_RefreshToken :=
       issued s (refresh_claims (User_ID user) (User_Username user) (login_sessionID w))
         (Time_Unix (Time_Add (clock w (5 + ticks w)%nat)
                       (JWTConfig_RefreshExpiry (config s))))
         (Time_Unix (clock w (6 + ticks w)%nat));
     LoginResponse_ExpiresAt :=
       Time_Add (clock w (7 + ticks w)%nat) (JWTConfig_AccessExpiry (config s));
     LoginResponse_User := ToResponse user |}.

(** ** A library and a world to run the service on

    A stand-in for the libraries, small enough to compute with: the codec
    writes the header and the claims as the binary digits of their code
    and leaves the signature as it is, the MAC of a text under a key is
    the two joined, and the bcrypt hash of a password is the password
    behind a marker.  [available] says whether the hash functions are
    linked in. *)

#[global] Instance JValue_eq_dec : EqDecision JValue.
Proof. solve_decision. Defined.

#[global] Instance JValue_countable : Countable JValue.
Proof.
  refine (inj_countable'
            (λ v, match v with
                  | JNull => inl ()
                  | JBool b => inr (inl b)
                  | JNumber n => inr (inr (inl n))
                  | JString s => inr (inr (inr s))
                  end)
            (λ x, match x with
                  | inl _ => JNull
                  | inr (inl b) => JBool b
                  | inr (inr (inl n)) => JNumber n
                  | inr (inr (inr s)) => JString s
                  end) _).
  by intros [].
Defined.

Fixpoint bits (p : positive) : string :=
  match p with
  | xH => ""
  | xO q => String "0"%char (bits q)
  | xI q => String "1"%char (bits q)
  end.

Fixpoint unbits (s : string) : option positive :=
  match s with
  | "" => Some xH
  | String c r =>
      match unbits r with
      | None => None
      | Some q =>
          if Ascii.eqb c "0"%char then Some (xO q)
          else if Ascii.eqb c "1"%char then Some (xI q)
          else None
      end
  end.

(** The text before the first dot and the text after it. *)
Fixpoint cut (s : string) : option (string * string) :=
  match s with
  | "" => None
  | String c r =>
      if Ascii.eqb c "."%char then Some ("", r)
      else match cut r with
           | Some (a, b) => Some (String c a, b)
           | None => None
           end
  end.

Definition demo_SigningString (h c : MapClaims) : string := bits (encode (h, c)).

Definition demo_SplitToken (tokenString : string) : option Segments :=
  match cut tokenString with
  | None => None
  | Some (text, sig) =>
      match unbits text with
      | None => None
      | Some p =>
          match decode p with
          | Some (h, c) =>
              Some {| seg_Header := h; seg_Claims := c;
                      seg_text := text; seg_signature := sig |}
          | None => None
          end
      end
  end.

Definition demo_marker : string := "$2a$".

Definition demo (available : bool) : Lib :=
  {| SigningString := demo_SigningString;
     EncodeSegment := λ s, s;
     DecodeSegment := λ s, Some s;
     SplitToken := demo_SplitToken;
     hash_Available := λ _, available;
     hmac_Sum := λ h key text, key +:+ "/" +:+ text;
     bcrypt_CompareHashAndPassword := λ hashed password,
       if String.eqb hashed (demo_marker +:+ password) then None
       else Some (errorString
              "crypto/bcrypt: hashedPassword is not the hash of the given password");
     bcrypt_hash := λ salt password cost, Ok (demo_marker +:+ password);
     ulid_String := λ ms entropy, entropy |}.

Definition demo_config : JWTConfig :=
  {| JWTConfig_Secret := "test-secret";
     JWTConfig_AccessExpiry := 3600 * time_Second;
     JWTConfig_RefreshExpiry := 86400 * time_Second;
     JWTConfig_Issuer := "test-issuer" |}.

Definition demo_service : AuthService := NewAuthService demo_config.

(** A clock that starts at [start] seconds and advances a second at each
    reading. *)
Definition demo_clock (start : Z) (n : nat) : Time := (start + Z.of_nat n) * time_Second.

Definition demo_random (n : nat) : string := "01J" +:+ bits (Pos.of_succ_nat n).

Definition demo_world (start : Z) (sessions : gmap string (RedisData * option Time))
    (users : list MongoUser) : World :=
  {| clock := demo_clock start; ticks := 0;
     random := demo_random; draws := 0;
     redis := {| redis_keys := sessions; redis_time := start * time_Second;
                 redis_err := None |};
     mongo := {| mongo_users := users; mongo_err := None |} |}.

(** A registered user whose password is ["password123"]. *)
Definition demo_alice : MongoUser :=
  {| MongoUser_ID := "01HALICE";
     MongoUser_Username := "alice";
     MongoUser_PasswordHash := demo_marker +:+ "password123";
     MongoUser_Email := "alice@example.com";
     MongoUser_Image := "";
     MongoUser_CreatedAt := 1690000000 * time_Second;
     MongoUser_UpdatedAt := 1690000000 * time_Second;
     MongoUser_DeletedAt := None |}.

(** An unsigned token that names the algorithm "none" and claims to be
    an access token of "admin". *)
Definition demo_unsigned : string :=
  compact (L := demo true)
    (<["typ" := JString "JWT"]> (<["alg" := JString "none"]> ∅))
    (token_claims demo_service
       (access_claims "admin-id" "admin" "no-session") 4102444800 1700000000)
    "".

(** A stored session of "user-id", its key in Redis and the refresh token
    that names it. *)
Definition demo_session : Session :=
  {| Session_ID := "session-id";
     Session_UserID := "user-id";
     Session_CreatedAt := 1700000000 * time_Second;
     Session_ExpiresAt := 1700086400 * time_Second;
     Session_IsActive := true |}.

Definition demo_sessions : gmap string (RedisData * option Time) :=
  {[ "session:session-id" := (JSON_Session demo_session, Some (1700086400 * time_Second)) ]}.

Definition demo_refresh_token : string :=
  issued (L := demo true) demo_service
    (refresh_claims "user-id" "testuser" "session-id") 1700086400 1700000000.

(** The world at 1700000000 s with "alice" registered, and the same with
    Redis refusing connections. *)
Definition demo_start : World := demo_world 1700000000 ∅ [demo_alice].


Definition demo_login : LoginRequest :=
  {| LoginRequest_Username := "alice"; LoginRequest_Password := "password123" |}.

Definition demo_register : RegisterRequest :=
  {| RegisterRequest_Username := "bob";
     RegisterRequest_Password := "hunter22";
     RegisterRequest_Email := "bob@example.com";
     RegisterRequest_Image := "" |}.

(** The life of a session: "bob" registers and logs in, validates his
    access token, refreshes, validates the second access token, logs out
    and refreshes again.  What each step after the login answers, and
    whether the two access tokens differ. *)
Definition demo_lifecycle
  : result (result Claims * bool * result Claims * result LogoutResponse
            * result RefreshTokenResponse) :=
  let h := server (L := demo true) NewRedisSessionStore in
  let registered := exec h (Register demo_service demo_register) demo_start in
  let logged_in :=
    exec h (Login (L := demo true) demo_service
              {| LoginRequest_Username := "bob"; LoginRequest_Password := "hunter22" |})
         (world registered) in
  match value logged_in with
  | Err err => Err err
  | Ok login =>
      let at1 := LoginResponse_AccessToken login in
      let rt1 := {| RefreshTokenRequest_RefreshToken := LoginResponse_RefreshToken login |} in
      let validated1 :=
        exec h (ValidateAccessToken (L := demo true) demo_service at1) (world logged_in) in
      let refreshed :=
        exec h (RefreshToken (L := demo true) demo_service rt1) (world validated1) in
      match value refreshed with
      | Err err => Err err
      | Ok refresh =>
          let at2 := RefreshTokenResponse_AccessToken refresh in
          let validated2 :=
            exec h (ValidateAccessToken (L := demo true) demo_service at2)
                 (world refreshed) in
          let logged_out :=
            exec h (Logout (L := demo true) demo_service
                      {| LogoutRequest_RefreshToken := LoginResponse_RefreshToken login |})
                 (world validated2) in
          let again :=
            exec h (RefreshToken (L := demo true) demo_service rt1) (world logged_out) in
          Ok (value validated1, negb (String.eqb at1 at2), value validated2,
              value logged_out,
              match value again with
              | Ok _ => Ok {| RefreshTokenResponse_AccessToken := "";
                              RefreshTokenResponse_ExpiresAt := 0 |}
              | Err err => Err err
              end)
      end
  end.

(** A stand-in for the glob matching of the Redis server: patterns of
    plain characters that may end in a star. *)
Fixpoint demo_stringmatch (pattern key : string) : bool :=
  match pattern with
  | "" => match key with "" => true | _ => false end
  | String p pattern' =>
      if Ascii.eqb p "*"%char && String.eqb pattern' "" then true
      else match key with
           | "" => false
           | String k key' => Ascii.eqb p k && demo_stringmatch pattern' key'
           end
  end.

Definition demo_glob : Glob := demo_stringmatch.

(** A Redis with two sessions of "user-id", one of "other-id", a key of
    the prefix that holds no session and a key of another application. *)
Definition demo_session_of (id userID : string) : Session :=
  {| Session_ID := id;
     Session_UserID := userID;
     Session_CreatedAt := 1700000000 * time_Second;
     Session_ExpiresAt := 1700086400 * time_Second;
     Session_IsActive := true |}.

Definition demo_redis : Redis :=
  {| redis_keys :=
       <["session:s1" := (JSON_Session (demo_session_of "s1" "user-id"),
                          Some (1700086400 * time_Second))]>
       (<["session:s2" := (JSON_Session (demo_session_of "s2" "user-id"),
                           Some (1700086400 * time_Second))]>
       (<["session:s3" := (JSON_Session (demo_session_of "s3" "other-id"),
                           Some (1700086400 * time_Second))]>
       (<["session:junk" := (Bytes "not json", None)]>
       (<["cache:page" := (Bytes "<html>", None)]> ∅))));
     redis_time := 1700000000 * time_Second;
     redis_err := None |}.

(** The world at 1700000000 s in which "alice" has been deleted. *)
Definition demo_alice_deleted : World :=
  with_mongo demo_start
    (snd (userRepository_Delete (1700000000 * time_Second) (1700000000 * time_Second)
            "01HALICE" (mongo demo_start))).

(** What the login of "alice" answers in [demo_start], and the world it
    leaves. *)
Definition demo_alice_login : LoginResponse :=
  login_response (L := demo true) demo_service (mongoUserToModel demo_alice) demo_start.

Definition demo_logged_in : World :=
  world (exec (server (L := demo true) NewRedisSessionStore)
           (Login (L := demo true) demo_service demo_login) demo_start).

(** A request that carries a token in its [Authorization] header. *)
Definition demo_bearer (token : string) : Ctx :=
  {| Ctx_Authorization := "Bearer " +:+ token; Ctx_Locals := ∅ |}.

(** A stand-in for a repository of todos: the todos in a list, two of
    "user-id" and one of "other-id", and a request of "user-id". *)
Definition demo_page (todos : list Todo) (limit offset : Z) : result (list Todo * Z) :=
  Ok (take (Z.to_nat limit) (drop (Z.to_nat offset) todos), Z.of_nat (length todos)).

Definition demo_of (userID : string) (todo : Todo) : bool :=
  String.eqb (Todo_UserID todo) userID.

Definition demo_todoRepo : TodoRepository (list Todo) :=
  λ X cmd,
    match cmd in TodoCmd X return list Todo → X * list Todo with
    | todoRepo_Create todo => λ w, (Ok todo, (w ++ [todo])%list)
    | todoRepo_GetByID id => λ w,
        (match List.find (λ t, String.eqb (Todo_ID t) id) w with
         | Some todo => Ok todo
         | None => Err (errorString "todo not found")
         end, w)
    | todoRepo_GetByUserID userID limit offset => λ w,
        (demo_page (List.filter (demo_of userID) w) limit offset, w)
    | todoRepo_Update todo => λ w,
        (Ok todo,
         List.map (λ t, if String.eqb (Todo_ID t) (Todo_ID todo) then todo else t) w)
    | todoRepo_Delete id => λ w,
        (None, List.filter (λ t, negb (String.eqb (Todo_ID t) id)) w)
    | todoRepo_UpdateStatus id status => λ w,
        (None,
         List.map (λ t, if String.eqb (Todo_ID t) id
                        then {| Todo_ID := Todo_ID t;
                                Todo_UserID := Todo_UserID t;
                                Todo_Title := Todo_Title t;
                                Todo_Description := Todo_Description t;
                                Todo_Status := status;
                                Todo_Priority := Todo_Priority t;
                                Todo_DueDate := Todo_DueDate t;
                                Todo_CreatedAt := Todo_CreatedAt t;
                                Todo_UpdatedAt := Todo_UpdatedAt t |}
                        else t) w)
    | todoRepo_GetByStatus userID status limit offset => λ w,
        (demo_page (List.filter (λ t, demo_of userID t && String.eqb (Todo_Status t) status)
                      w) limit offset, w)
    | todoRepo_GetByPriority userID priority limit offset => λ w,
        (demo_page (List.filter (λ t, demo_of userID t
                                      && String.eqb (Todo_Priority t) priority) w)
           limit offset, w)
    | todoRepo_GetOverdue userID limit offset => λ w, (demo_page [] limit offset, w)
    | todoRepo_Search userID query limit offset => λ w,
        (demo_page (List.filter (λ t, demo_of userID t && String.eqb (Todo_Title t) query)
                      w) limit offset, w)
    | todoRepo_CountByStatus userID => λ w,
        (Ok {[ TodoStatusPending :=
                 Z.of_nat (length (List.filter
                                     (λ t, demo_of userID t
                                           && String.eqb (Todo_Status t) TodoStatusPending)
                                     w)) ]}, w)
    end.

Definition demo_todo (id userID title status : string) : Todo :=
  {| Todo_ID := id;
     Todo_UserID := userID;
     Todo_Title := title;
     Todo_Description := "";
     Todo_Status := status;
     Todo_Priority := TodoPriorityMedium;
     Todo_DueDate := None;
     Todo_CreatedAt := 1700000000 * time_Second;
     Todo_UpdatedAt := 1700000000 * time_Second |}.

Definition demo_todos : list Todo :=
  [ demo_todo "t1" "user-id" "write" TodoStatusPending;
    demo_todo "t2" "other-id" "read" TodoStatusPending;
    demo_todo "t3" "user-id" "sleep" TodoStatusCompleted ].

Definition demo_user_ctx : Ctx :=
  Locals {| Ctx_Authorization := ""; Ctx_Locals := ∅ |} "userID" "user-id".

(** * Properties *)

(** ** Running programs *)

Section Exec.
Context {W : Type} (h : Handler W).

Lemma exec_ret {A : Type} (a : A) (w : W) :
  exec h (mret a) w = {| value := a; world := w; trace := [] |}.
Proof. reflexivity. Qed.

Lemma exec_call {X : Type} (c : Cmd X) (w : W) :
  exec h (call c) w
  = {| value := fst (h X c w); world := snd (h X c w); trace := [event c] |}.
Proof. reflexivity. Qed.

Lemma exec_bind {A B : Type} (p : Prog A) (f : A → Prog B) (w : W) :
  exec h (p ≫= f) w
  = {| value := value (exec h (f (value (exec h p w))) (world (exec h p w)));
       world := world (exec h (f (value (exec h p w))) (world (exec h p w)));
       trace := (trace (exec h p w)
                 ++ trace (exec h (f (value (exec h p w))) (world (exec h p w))))%list |}.
Proof.
  revert w. induction p as [a | X c k IH]; intros w.
  - simpl. by destruct (exec h (f a) w).
  - change (exec h (Do c k ≫= f) w)
      with {| value := value (exec h (k (fst (h X c w)) ≫= f) (snd (h X c w)));
              world := world (exec h (k (fst (h X c w)) ≫= f) (snd (h X c w)));
              trace := event c :: trace (exec h (k (fst (h X c w)) ≫= f) (snd (h X c w))) |}.
    rewrite IH. reflexivity.
Qed.

(** A command followed by the rest of the program. *)
Lemma exec_call_bind {X A : Type} (c : Cmd X) (k : X → Prog A) (w : W) :
  exec h (call c ≫= k) w
  = {| value := value (exec h (k (fst (h X c w))) (snd (h X c w)));
       world := world (exec h (k (fst (h X c w))) (snd (h X c w)));
       trace := event c :: trace (exec h (k (fst (h X c w))) (snd (h X c w))) |}.
Proof. reflexivity. Qed.

End Exec.

(** Normal form of a run: binds and calls pushed through [exec]. *)
Ltac exec_norm :=
  repeat (first [ rewrite exec_call_bind | rewrite exec_ret
                | rewrite exec_call | rewrite exec_bind ];
          cbn [value world trace fst snd]).

(** ** Login: one error for both causes *)

Section Credentials.
Context {L : Lib} {W : Type} (h : Handler W) (s : AuthService).

Lemma Login_lookup_error (req : LoginRequest) (w : W) (err : error) :
  fst (h _ (userRepo_GetByUsername (LoginRequest_Username req)) w) = Err err →
  value (exec h (Login s req) w) = Err (fmt_Errorf "invalid credentials").
Proof. intros E. unfold Login. rewrite exec_call_bind, E. reflexivity. Qed.

Lemma Login_password_error (req : LoginRequest) (w : W) (user : User) (err : error) :
  fst (h _ (userRepo_GetByUsername (LoginRequest_Username req)) w) = Ok user →
  verifyPassword (User_Password user) (LoginRequest_Password req) = Some err →
  value (exec h (Login s req) w) = Err (fmt_Errorf "invalid credentials").
Proof. intros E V. unfold Login. rewrite exec_call_bind, E. simpl. rewrite V. reflexivity. Qed.

Lemma LoginByEmail_lookup_error (req : LoginByEmailRequest) (w : W) (err : error) :
  fst (h _ (userRepo_GetByEmail (LoginByEmailRequest_Email req)) w) = Err err →
  value (exec h (LoginByEmail s req) w) = Err (fmt_Errorf "invalid credentials").
Proof. intros E. unfold LoginByEmail. rewrite exec_call_bind, E. reflexivity. Qed.

Lemma LoginByEmail_password_error (req : LoginByEmailRequest) (w : W) (user : User)
    (err : error) :
  fst (h _ (userRepo_GetByEmail (LoginByEmailRequest_Email req)) w) = Ok user →
  verifyPassword (User_Password user) (LoginByEmailRequest_Password req) = Some err →
  value (exec h (LoginByEmail s req) w) = Err (fmt_Errorf "invalid credentials").
Proof.
  intros E V. unfold LoginByEmail. rewrite exec_call_bind, E. simpl. rewrite V.
  reflexivity.
Qed.

End Credentials.

(** C1.  Login and LoginByEmail answer a failed user lookup and a failed
    password verification with the same error, of the same kind and with
    the same text, "invalid credentials": whatever the repository said,
    whichever request and world each failure comes from, the two calls
    return equal errors. *)
Theorem Login_failure_causes_indistinguishable
    {L : Lib} {W : Type} (h : Handler W) (s : AuthService) :
  (∀ (req1 req2 : LoginRequest) (w1 w2 : W) (e1 e2 : error) (user : User),
      fst (h _ (userRepo_GetByUsername (LoginRequest_Username req1)) w1) = Err e1 →
      fst (h _ (userRepo_GetByUsername (LoginRequest_Username req2)) w2) = Ok user →
      verifyPassword (User_Password user) (LoginRequest_Password req2) = Some e2 →
      value (exec h (Login s req1) w1) = value (exec h (Login s req2) w2)
      ∧ value (exec h (Login s req2) w2) = Err (errorString "invalid credentials"))
  ∧ (∀ (req1 req2 : LoginByEmailRequest) (w1 w2 : W) (e1 e2 : error) (user : User),
      fst (h _ (userRepo_GetByEmail (LoginByEmailRequest_Email req1)) w1) = Err e1 →
      fst (h _ (userRepo_GetByEmail (LoginByEmailRequest_Email req2)) w2) = Ok user →
      verifyPassword (User_Password user) (LoginByEmailRequest_Password req2) = Some e2 →
      value (exec h (LoginByEmail s req1) w1) = value (exec h (LoginByEmail s req2) w2)
      ∧ value (exec h (LoginByEmail s req2) w2)
        = Err (errorString "invalid credentials")).
Proof.
  split; intros req1 req2 w1 w2 e1 e2 user Hlookup Hfound Hverify.
  - rewrite (Login_lookup_error h s req1 w1 e1 Hlookup).
    rewrite (Login_password_error h s req2 w2 user e2 Hfound Hverify).
    done.
  - rewrite (LoginByEmail_lookup_error h s req1 w1 e1 Hlookup).
    rewrite (LoginByEmail_password_error h s req2 w2 user e2 Hfound Hverify).
    done.
Qed.

(** On the running server: "bob" is unknown, "alice" is known and the
    password is wrong. *)
Lemma Login_failure_causes_indistinguishable_witness :
  let h := server (L := demo true) NewRedisSessionStore in
  let w := demo_world 1700000000 ∅ [demo_alice] in
  value (exec h (Login (L := demo true) demo_service
                   {| LoginRequest_Username := "bob";
                      LoginRequest_Password := "password123" |}) w)
  = value (exec h (Login (L := demo true) demo_service
                     {| LoginRequest_Username := "alice";
                        LoginRequest_Password := "wrongpassword" |}) w)
  ∧ value (exec h (LoginByEmail (L := demo true) demo_service
                     {| LoginByEmailRequest_Email := "bob@example.com";
                        LoginByEmailRequest_Password := "password123" |}) w)
    = value (exec h (LoginByEmail (L := demo true) demo_service
                       {| LoginByEmailRequest_Email := "alice@example.com";
                          LoginByEmailRequest_Password := "wrongpassword" |}) w).
Proof.
  intros h w.
  destruct (Login_failure_causes_indistinguishable (L := demo true) h demo_service)
    as [HLogin HEmail].
  split.
  - refine (proj1 (HLogin _ _ w w _ _ _ _ _ _)); reflexivity.
  - refine (proj1 (HEmail _ _ w w _ _ _ _ _ _)); reflexivity.
Defined.

(** ** The token codec *)

Lemma GetSigningMethod_Alg (alg : string) (m : jwt.SigningMethod) :
  jwt.GetSigningMethod alg = Some m → jwt.Alg m = alg.
Proof.
  unfold jwt.GetSigningMethod. intros Hfind.
  apply find_some in Hfind as [_ Heq]. by apply String.eqb_eq.
Qed.

Lemma GetSigningMethod_HS256 :
  jwt.GetSigningMethod "HS256" = Some jwt.SigningMethodHS256.
Proof. reflexivity. Qed.

Lemma GetSigningMethod_HMAC (alg : string) (hs : Hash) :
  jwt.GetSigningMethod alg = Some (jwt.SigningMethodHMAC hs) → hmac_alg alg = true.
Proof.
  intros Hget. apply GetSigningMethod_Alg in Hget as <-. by destruct hs.
Qed.

Section TokenClaims.
Context {L : Lib} (s : AuthService) (claims : Claims) (exp iat : Z).

Lemma token_claims_type :
  token_claims s claims exp iat !! "type" = Some (JString (Claims_Type claims)).
Proof. reflexivity. Qed.

Lemma token_claims_exp : token_claims s claims exp iat !! "exp" = Some (JNumber exp).
Proof. reflexivity. Qed.

Lemma token_claims_nbf : token_claims s claims exp iat !! "nbf" = None.
Proof. reflexivity. Qed.

Lemma token_claims_userId :
  claim_string (token_claims s claims exp iat) "userId" = Claims_UserID claims.
Proof. reflexivity. Qed.

Lemma token_claims_username :
  claim_string (token_claims s claims exp iat) "username" = Claims_Username claims.
Proof. reflexivity. Qed.

Lemma token_claims_sessionId :
  claim_string (token_claims s claims exp iat) "sessionId" = Claims_SessionID claims.
Proof. reflexivity. Qed.

(** A token of the service is valid at [now] when [now] is before its
    expiry. *)
Lemma Validate_token_claims (now : Time) :
  Time_Before now (time_Unix exp) = true →
  jwt.Validate (token_claims s claims exp iat) now = None.
Proof.
  intros Hbefore. unfold jwt.Validate, jwt.verifyExpiresAt, jwt.verifyNotBefore,
    jwt.parseNumericDate.
  rewrite token_claims_exp, token_claims_nbf.
  destruct (exp =? 0); [done |]. by rewrite Hbefore.
Qed.

End TokenClaims.

Section Parse.
Context {L : Lib} {W : Type} (h : Handler W).

(** What [jwt.Parse] has checked when it accepts a token. *)
Lemma Parse_ok_inv (tokenString : string) (kf : jwt.Token → result string) (w : W)
    (token : jwt.Token) :
  value (exec h (jwt.Parse tokenString kf) w) = Ok token →
  ∃ parts alg method sig key,
    SplitToken tokenString = Some parts
    ∧ seg_Header parts !! "alg" = Some (JString alg)
    ∧ jwt.GetSigningMethod alg = Some method
    ∧ DecodeSegment (seg_signature parts) = Some sig
    ∧ kf {| jwt.Token_Method := method; jwt.Token_Header := seg_Header parts;
            jwt.Token_Claims := seg_Claims parts; jwt.Token_Signature := sig;
            jwt.Token_Valid := false |} = Ok key
    ∧ jwt.Verify method (seg_text parts) sig key = None
    ∧ jwt.Validate (seg_Claims parts) (fst (h _ time_Now w)) = None
    ∧ token = {| jwt.Token_Method := method; jwt.Token_Header := seg_Header parts;
                 jwt.Token_Claims := seg_Claims parts; jwt.Token_Signature := sig;
                 jwt.Token_Valid := true |}
    ∧ world (exec h (jwt.Parse tokenString kf) w) = snd (h _ time_Now w)
    ∧ trace (exec h (jwt.Parse tokenString kf) w) = [event time_Now].
Proof.
  unfold jwt.Parse.
  destruct (SplitToken tokenString) as [parts|] eqn:Hsplit; [| done].
  destruct (seg_Header parts !! "alg") as [[| | |alg]|] eqn:Halg; try done.
  destruct (jwt.GetSigningMethod alg) as [method|] eqn:Hmethod; [| done].
  destruct (DecodeSegment (seg_signature parts)) as [sig|] eqn:Hsig; [| done].
  destruct (kf _) as [key|] eqn:Hkey; [| done].
  destruct (jwt.Verify method (seg_text parts) sig key) eqn:Hverify; [done |].
  rewrite exec_call_bind.
  destruct (jwt.Validate (seg_Claims parts) (fst (h _ time_Now w))) eqn:Hvalid;
    [done |].
  simpl. intros [= <-]. by exists parts, alg, method, sig, key.
Qed.

(** A rejected token: either no command was issued, or the clock was read
    once, and the world is as the clock left it. *)
Lemma Parse_trace (tokenString : string) (kf : jwt.Token → result string) (w : W) :
  (trace (exec h (jwt.Parse tokenString kf) w) = []
   ∧ world (exec h (jwt.Parse tokenString kf) w) = w
   ∧ ∃ err, value (exec h (jwt.Parse tokenString kf) w) = Err err)
  ∨ (trace (exec h (jwt.Parse tokenString kf) w) = [event time_Now]
     ∧ world (exec h (jwt.Parse tokenString kf) w) = snd (h _ time_Now w)).
Proof.
  unfold jwt.Parse.
  repeat case_match;
    first [ by left; split_and!; try done; eexists
          | right; rewrite exec_call_bind; by case_match ].
Qed.

End Parse.

Section Tokens.
Context {L : Lib} {W : Type} (h : Handler W) (s : AuthService).

(** [generateAccessToken] reads the clock twice and signs. *)
Lemma generateAccessToken_exec (userID username sessionID : string) (w : W) :
  let n1 := h _ time_Now w in
  let n2 := h _ time_Now (snd n1) in
  exec h (generateAccessToken s userID username sessionID) w
  = {| value :=
         if hash_Available SHA256
         then Ok (issued s (access_claims userID username sessionID)
                    (Time_Unix (Time_Add (fst n1) (JWTConfig_AccessExpiry (config s))))
                    (Time_Unix (fst n2)))
         else Err (errorString jwt.ErrHashUnavailable);
       world := snd n2;
       trace := [event time_Now; event time_Now] |}.
Proof.
  intros n1 n2. unfold generateAccessToken. rewrite !exec_call_bind. simpl.
  unfold jwt.SignedString, issued. simpl. by destruct (hash_Available SHA256).
Qed.

(** [generateRefreshToken] likewise. *)
Lemma generateRefreshToken_exec (userID username sessionID : string) (w : W) :
  let n1 := h _ time_Now w in
  let n2 := h _ time_Now (snd n1) in
  exec h (generateRefreshToken s userID username sessionID) w
  = {| value :=
         if hash_Available SHA256
         then Ok (issued s (refresh_claims userID username sessionID)
                    (Time_Unix (Time_Add (fst n1) (JWTConfig_RefreshExpiry (config s))))
                    (Time_Unix (fst n2)))
         else Err (errorString jwt.ErrHashUnavailable);
       world := snd n2;
       trace := [event time_Now; event time_Now] |}.
Proof.
  intros n1 n2. unfold generateRefreshToken. rewrite !exec_call_bind. simpl.
  unfold jwt.SignedString, issued. simpl. by destruct (hash_Available SHA256).
Qed.

(** What [validateToken] has checked when it returns claims. *)
Lemma validateToken_ok_inv (tokenString expectedType : string) (w : W) (claims : Claims) :
  value (exec h (validateToken s tokenString expectedType) w) = Ok claims →
  ∃ token,
    value (exec h (jwt.Parse tokenString (keyFunc s)) w) = Ok token
    ∧ jwt.Token_Claims token !! "type" = Some (JString expectedType)
    ∧ claims = {| Claims_UserID := claim_string (jwt.Token_Claims token) "userId";
                  Claims_Username := claim_string (jwt.Token_Claims token) "username";
                  Claims_SessionID := claim_string (jwt.Token_Claims token) "sessionId";
                  Claims_Type := expectedType |}
    ∧ Claims_UserID claims ≠ "" ∧ Claims_Username claims ≠ ""
    ∧ Claims_SessionID claims ≠ "".
Proof.
  unfold validateToken. rewrite exec_bind.
  destruct (value (exec h (jwt.Parse tokenString (keyFunc s)) w)) as [token|err];
    [| done].
  destruct (jwt.Token_Valid token); [| done]. simpl.
  destruct (jwt.Token_Claims token !! "type") as [[| | |tokenType]|] eqn:Hty;
    try done.
  destruct (String.eqb tokenType expectedType) eqn:Htype; [| done].
  apply String.eqb_eq in Htype as ->. simpl.
  destruct (String.eqb (claim_string _ "userId") "") eqn:Huser; [done |].
  destruct (String.eqb (claim_string _ "username") "") eqn:Hname; [done |].
  destruct (String.eqb (claim_string _ "sessionId") "") eqn:Hsession; [done |].
  simpl. intros [= <-]. exists token. simpl.
  apply String.eqb_neq in Huser, Hname, Hsession. done.
Qed.

(** [validateToken] issues what [jwt.Parse] issues and leaves the world
    where [jwt.Parse] leaves it. *)
Lemma validateToken_world (tokenString expectedType : string) (w : W) :
  world (exec h (validateToken s tokenString expectedType) w)
  = world (exec h (jwt.Parse tokenString (keyFunc s)) w)
  ∧ trace (exec h (validateToken s tokenString expectedType) w)
    = trace (exec h (jwt.Parse tokenString (keyFunc s)) w).
Proof.
  unfold validateToken. rewrite exec_bind. simpl.
  assert (∀ p : Prog (result Claims),
             (∃ v, p = mret v) →
             world (exec h p (world (exec h (jwt.Parse tokenString (keyFunc s)) w)))
             = world (exec h (jwt.Parse tokenString (keyFunc s)) w)
             ∧ (trace (exec h (jwt.Parse tokenString (keyFunc s)) w)
                ++ trace (exec h p (world (exec h (jwt.Parse tokenString (keyFunc s)) w))))%list
               = trace (exec h (jwt.Parse tokenString (keyFunc s)) w)) as Hret.
  { intros p [v ->]. simpl. by rewrite app_nil_r. }
  apply Hret. repeat case_match; by eexists.
Qed.

End Tokens.

Section Issued.
Context {L : Lib} {W : Type} (h : Handler W) (s : AuthService).
Hypothesis codec : codec_roundtrip.
Hypothesis sha256 : hash_Available SHA256 = true.

(** [jwt.Parse] on a token of the service: the signature is accepted and
    the claims are validated at the instant the clock gives. *)
Lemma Parse_issued (claims : Claims) (exp iat : Z) (w : W) :
  exec h (jwt.Parse (issued s claims exp iat) (keyFunc s)) w
  = {| value :=
         match jwt.Validate (token_claims s claims exp iat) (fst (h _ time_Now w)) with
         | Some err =>
             Err (jwt.newError "" (errorString jwt.ErrTokenInvalidClaims) [err])
         | None =>
             let token := jwt.NewWithClaims jwt.SigningMethodHS256
                            (token_claims s claims exp iat) in
             Ok {| jwt.Token_Method := jwt.SigningMethodHS256;
                   jwt.Token_Header := jwt.Token_Header token;
                   jwt.Token_Claims := token_claims s claims exp iat;
                   jwt.Token_Signature :=
                     hmac_Sum SHA256 (JWTConfig_Secret (config s))
                       (SigningString (jwt.Token_Header token)
                          (token_claims s claims exp iat));
                   jwt.Token_Valid := true |}
         end;
       world := snd (h _ time_Now w);
       trace := [event time_Now] |}.
Proof.
  unfold issued, jwt.Parse. simpl.
  destruct (codec (jwt.Token_Header (jwt.NewWithClaims jwt.SigningMethodHS256
                                       (token_claims s claims exp iat)))
                  (token_claims s claims exp iat)
                  (hmac_Sum SHA256 (JWTConfig_Secret (config s))
                     (SigningString
                        (jwt.Token_Header (jwt.NewWithClaims jwt.SigningMethodHS256
                                             (token_claims s claims exp iat)))
                        (token_claims s claims exp iat)))) as [Hsplit Hsig].
  simpl in Hsplit, Hsig. rewrite Hsplit. simpl.
  match goal with
  | |- context [?hd !! "alg"] => change (hd !! "alg") with (Some (JString "HS256"))
  end.
  cbv beta iota. rewrite GetSigningMethod_HS256, Hsig. simpl.
  rewrite sha256, String.eqb_refl. simpl.
  by destruct (jwt.Validate _ _).
Qed.

(** [validateToken] on a token of the service, before its expiry. *)
Lemma validateToken_issued (claims : Claims) (exp iat : Z) (expectedType : string) (w : W) :
  Time_Before (fst (h _ time_Now w)) (time_Unix exp) = true →
  Claims_UserID claims ≠ "" → Claims_Username claims ≠ "" →
  Claims_SessionID claims ≠ "" →
  exec h (validateToken s (issued s claims exp iat) expectedType) w
  = {| value := if String.eqb (Claims_Type claims) expectedType then Ok claims
                else Err (fmt_Errorf "invalid token type");
       world := snd (h _ time_Now w);
       trace := [event time_Now] |}.
Proof.
  intros Hbefore Huser Hname Hsession.
  unfold validateToken. rewrite exec_bind, Parse_issued.
  rewrite (Validate_token_claims s claims exp iat _ Hbefore). simpl.
  rewrite token_claims_type.
  destruct (String.eqb (Claims_Type claims) expectedType) eqn:Htype; [| done].
  simpl. rewrite token_claims_userId, token_claims_username, token_claims_sessionId.
  apply String.eqb_neq in Huser, Hname, Hsession. rewrite Huser, Hname, Hsession.
  simpl. by destruct claims.
Qed.

End Issued.

(** ** The stand-in codec reads back what it wrote *)

Lemma unbits_bits (p : positive) : unbits (bits p) = Some p.
Proof. induction p as [q IH | q IH |]; simpl; by rewrite ?IH. Qed.

Lemma cut_bits (p : positive) (rest : string) :
  cut (bits p +:+ "." +:+ rest) = Some (bits p, rest).
Proof. induction p as [q IH | q IH |]; simpl; by rewrite ?IH. Qed.

Lemma demo_codec_roundtrip (available : bool) : codec_roundtrip (L := demo available).
Proof.
  intros hd c sig. split; [| done]. simpl.
  unfold demo_SplitToken, demo_SigningString.
  by rewrite cut_bits, unbits_bits, decode_encode.
Qed.

(** ** Issued access tokens validate *)

(** C2.  Round trip.  For non-empty user id, username and session id,
    [generateAccessToken] returns a token, and [ValidateAccessToken] on
    that token, at any instant before the expiry written into it (the
    whole seconds of the issuing instant plus the access lifetime),
    returns claims with the same user id, username and session id and the
    type "access".  The codec is assumed to read back what it wrote and
    SHA-256 to be linked in. *)
Theorem access_token_roundtrip
    {L : Lib} {W : Type} (h : Handler W) (s : AuthService)
    (userID username sessionID : string) (w w' : W) :
  userID ≠ "" → username ≠ "" → sessionID ≠ "" →
  codec_roundtrip →
  hash_Available SHA256 = true →
  Time_Before (fst (h _ time_Now w'))
    (time_Unix (Time_Unix (Time_Add (fst (h _ time_Now w))
                             (JWTConfig_AccessExpiry (config s))))) = true →
  ∃ token,
    value (exec h (generateAccessToken s userID username sessionID) w) = Ok token
    ∧ value (exec h (ValidateAccessToken s token) w')
      = Ok {| Claims_UserID := userID; Claims_Username := username;
              Claims_SessionID := sessionID; Claims_Type := TokenTypeAccess |}.
Proof.
  intros Huser Hname Hsession Hcodec Hsha Hbefore.
  rewrite generateAccessToken_exec. simpl. rewrite Hsha.
  eexists. split; [reflexivity |].
  unfold ValidateAccessToken.
  by rewrite (validateToken_issued h s Hcodec Hsha
                (access_claims userID username sessionID) _ _ _ _
                Hbefore Huser Hname Hsession).
Qed.

(** A token issued at 1700000000 s with a lifetime of an hour, validated
    100 s later. *)
Lemma access_token_roundtrip_witness :
  let h := server (L := demo true) NewRedisSessionStore in
  ∃ token,
    value (exec h (generateAccessToken (L := demo true) demo_service
                     "user-id" "testuser" "session-id")
             (demo_world 1700000000 ∅ [])) = Ok token
    ∧ value (exec h (ValidateAccessToken (L := demo true) demo_service token)
               (demo_world 1700000100 ∅ []))
      = Ok {| Claims_UserID := "user-id"; Claims_Username := "testuser";
              Claims_SessionID := "session-id"; Claims_Type := TokenTypeAccess |}.
Proof.
  intros h.
  apply (access_token_roundtrip (L := demo true) h demo_service
           "user-id" "testuser" "session-id"
           (demo_world 1700000000 ∅ []) (demo_world 1700000100 ∅ []));
    [done | done | done | apply demo_codec_roundtrip | reflexivity | reflexivity].
Defined.

(** ** What [validateToken] rejects *)

Section Rejections.
Context {L : Lib} {W : Type} (h : Handler W) (s : AuthService).

(** A token whose declared algorithm is not of the HMAC family is rejected
    before the clock is read. *)
Lemma Parse_not_hmac (tokenString alg : string) (w : W) :
  declared_header tokenString "alg" = Some (JString alg) →
  hmac_alg alg = false →
  ∃ err, exec h (jwt.Parse tokenString (keyFunc s)) w
         = {| value := Err err; world := w; trace := [] |}.
Proof.
  unfold declared_header, jwt.Parse. intros Halg Hnot.
  destruct (SplitToken tokenString) as [parts|]; [| done]. rewrite Halg.
  destruct (jwt.GetSigningMethod alg) as [method|] eqn:Hmethod; [| by eexists].
  destruct (DecodeSegment (seg_signature parts)) as [sig|]; [| by eexists].
  destruct method as [hs| | | | |]; try by eexists.
  apply GetSigningMethod_HMAC in Hmethod. congruence.
Qed.

(** In a well-signed token the claims are validated, at the instant the
    clock gives. *)
Lemma Parse_well_signed (tokenString : string) (w : W) :
  well_signed s tokenString →
  ∃ parts token,
    SplitToken tokenString = Some parts
    ∧ jwt.Token_Claims token = seg_Claims parts
    ∧ jwt.Token_Valid token = true
    ∧ exec h (jwt.Parse tokenString (keyFunc s)) w
      = {| value :=
             match jwt.Validate (seg_Claims parts) (fst (h _ time_Now w)) with
             | Some err =>
                 Err (jwt.newError "" (errorString jwt.ErrTokenInvalidClaims) [err])
             | None => Ok token
             end;
           world := snd (h _ time_Now w);
           trace := [event time_Now] |}.
Proof.
  intros (parts & alg & hs & sig & Hsplit & Halg & Hmethod & Hsig & Hverify).
  exists parts. eexists. split; [done |]. unfold jwt.Parse.
  rewrite Hsplit, Halg, Hmethod, Hsig. unfold keyFunc. cbn [jwt.Token_Method].
  rewrite Hverify, exec_call_bind. split_and!; [| | by destruct (jwt.Validate _ _)]; done.
Qed.

(** At the instant of its expiry, after the epoch, the claims of a token
    are not valid, and the error is that of an expired token. *)
Lemma Validate_at_exp (claims : MapClaims) (e : Z) (now : Time) :
  claims !! "exp" = Some (JNumber e) →
  now = time_Unix e → 0 < now →
  ∃ err, jwt.Validate claims now = Some err
         ∧ errors_Is err jwt.ErrTokenExpired = true.
Proof.
  intros Hexp -> Hpos. unfold jwt.Validate, jwt.verifyExpiresAt, jwt.parseNumericDate.
  rewrite Hexp.
  assert ((e =? 0) = false) as -> by (unfold time_Unix, time_Second in Hpos; lia).
  assert (Time_Before (time_Unix e) (time_Unix e) = false) as ->
    by (unfold Time_Before; lia).
  simpl. eexists. split; [reflexivity |]. reflexivity.
Qed.

End Rejections.

Section IssuedSigned.
Context {L : Lib} (s : AuthService).
Hypothesis codec : codec_roundtrip.
Hypothesis sha256 : hash_Available SHA256 = true.

Lemma issued_split (claims : Claims) (exp iat : Z) :
  let hd := jwt.Token_Header (jwt.NewWithClaims jwt.SigningMethodHS256
                                (token_claims s claims exp iat)) in
  let c := token_claims s claims exp iat in
  let sig := hmac_Sum SHA256 (JWTConfig_Secret (config s)) (SigningString hd c) in
  SplitToken (issued s claims exp iat)
  = Some {| seg_Header := hd; seg_Claims := c;
            seg_text := SigningString hd c; seg_signature := EncodeSegment sig |}
  ∧ DecodeSegment (EncodeSegment sig) = Some sig.
Proof. intros hd c sig. apply codec. Qed.

Lemma issued_declared_claim (claims : Claims) (exp iat : Z) (key : string) :
  declared_claim (issued s claims exp iat) key = token_claims s claims exp iat !! key.
Proof.
  unfold declared_claim. by destruct (issued_split claims exp iat) as [-> _].
Qed.

Lemma issued_well_signed (claims : Claims) (exp iat : Z) :
  well_signed s (issued s claims exp iat).
Proof.
  destruct (issued_split claims exp iat) as [Hsplit Hsig].
  unfold well_signed. eexists _, "HS256", SHA256, _. rewrite Hsplit.
  cbn [seg_Header seg_Claims seg_text seg_signature].
  split_and!; [done | done | done | exact Hsig |].
  unfold jwt.Verify. by rewrite sha256, String.eqb_refl.
Qed.

End IssuedSigned.

(** C7.  No type confusion.  A token that [jwt.Parse] accepts (well signed,
    not expired at the instant of the check) and whose type claim is
    "refresh" is answered by [ValidateAccessToken] with the error "invalid
    token type"; and whatever else holds of a token whose type claim is
    "refresh", [ValidateAccessToken] returns an error for it, never
    claims. *)
Theorem refresh_token_rejected_as_access_token
    {L : Lib} {W : Type} (h : Handler W) (s : AuthService) (tokenString : string) (w : W) :
  declared_claim tokenString "type" = Some (JString TokenTypeRefresh) →
  (∃ err, value (exec h (ValidateAccessToken s tokenString) w) = Err err)
  ∧ (∀ token, value (exec h (jwt.Parse tokenString (keyFunc s)) w) = Ok token →
              value (exec h (ValidateAccessToken s tokenString) w)
              = Err (errorString "invalid token type")).
Proof.
  intros Htype.
  assert (∀ token, value (exec h (jwt.Parse tokenString (keyFunc s)) w) = Ok token →
                   value (exec h (ValidateAccessToken s tokenString) w)
                   = Err (errorString "invalid token type")) as Haccepted.
  { intros token Hparse.
    destruct (Parse_ok_inv h _ _ _ _ Hparse)
      as (parts & alg & method & sig & key & Hsplit & _ & _ & _ & _ & _ & _ & Htoken & _).
    unfold declared_claim in Htype. rewrite Hsplit in Htype.
    unfold ValidateAccessToken, validateToken. rewrite exec_bind, Hparse, Htoken. simpl.
    by rewrite Htype. }
  split; [| done].
  destruct (value (exec h (jwt.Parse tokenString (keyFunc s)) w)) as [token|err] eqn:Hparse.
  - eexists. by apply (Haccepted token).
  - unfold ValidateAccessToken, validateToken. rewrite exec_bind, Hparse. by eexists.
Qed.

(** The refresh token of the service, presented as an access token a
    hundred seconds after it was issued. *)
Lemma refresh_token_rejected_as_access_token_witness :
  let h := server (L := demo true) NewRedisSessionStore in
  let token := issued (L := demo true) demo_service
                 (refresh_claims "user-id" "testuser" "session-id")
                 1700086400 1700000000 in
  value (exec h (ValidateAccessToken (L := demo true) demo_service token)
           (demo_world 1700000100 ∅ []))
  = Err (errorString "invalid token type").
Proof.
  intros h token.
  destruct (refresh_token_rejected_as_access_token (L := demo true) h demo_service
              token (demo_world 1700000100 ∅ [])) as [_ Haccepted].
  - unfold token. by rewrite (issued_declared_claim _ (demo_codec_roundtrip true)).
  - eapply Haccepted. unfold token.
    rewrite (Parse_issued h _ (demo_codec_roundtrip true) eq_refl). reflexivity.
Defined.

(** C8.  Expiry boundary.  When the validator reads the clock at exactly
    the instant the [exp] claim of the token names (whole seconds, an
    instant after the epoch), [validateToken] rejects the token, whatever
    type is expected; and when the token is well signed the error is the
    library's "token is expired" under "failed to parse token".  There is no
    grace at the boundary. *)
Theorem token_rejected_at_expiry
    {L : Lib} {W : Type} (h : Handler W) (s : AuthService)
    (tokenString expectedType : string) (e : Z) (w : W) :
  declared_claim tokenString "exp" = Some (JNumber e) →
  fst (h _ time_Now w) = time_Unix e →
  0 < fst (h _ time_Now w) →
  (∃ err, value (exec h (validateToken s tokenString expectedType) w) = Err err)
  ∧ (well_signed s tokenString →
     ∃ err, value (exec h (validateToken s tokenString expectedType) w) = Err err
            ∧ errors_Is err jwt.ErrTokenExpired = true).
Proof.
  intros Hexp Hnow Hpos.
  assert (∀ token,
             value (exec h (jwt.Parse tokenString (keyFunc s)) w) = Ok token → False)
    as Hrejected.
  { intros token Hparse.
    destruct (Parse_ok_inv h _ _ _ _ Hparse)
      as (parts & alg & method & sig & key & Hsplit & _ & _ & _ & _ & _ & Hvalid & _).
    unfold declared_claim in Hexp. rewrite Hsplit in Hexp.
    destruct (Validate_at_exp _ _ _ Hexp Hnow Hpos) as (err & Herr & _). congruence. }
  split.
  - unfold validateToken. rewrite exec_bind.
    destruct (value (exec h (jwt.Parse tokenString (keyFunc s)) w)) as [token|err]
      eqn:Hparse; [by destruct (Hrejected token) | by eexists].
  - intros Hsigned.
    destruct (Parse_well_signed h s tokenString w Hsigned)
      as (parts & token & Hsplit & _ & _ & Hparse).
    unfold declared_claim in Hexp. rewrite Hsplit in Hexp.
    destruct (Validate_at_exp _ _ _ Hexp Hnow Hpos) as (err & Herr & His).
    unfold validateToken. rewrite exec_bind, Hparse. simpl. rewrite Herr. simpl.
    eexists. split; [reflexivity |]. simpl. by rewrite His.
Qed.

(** An access token of the service expiring at 1700003600 s, validated
    when the clock reads 1700003600 s exactly. *)
Lemma token_rejected_at_expiry_witness :
  let h := server (L := demo true) NewRedisSessionStore in
  let token := issued (L := demo true) demo_service
                 (access_claims "user-id" "testuser" "session-id")
                 1700003600 1700000000 in
  ∃ err,
    value (exec h (validateToken (L := demo true) demo_service token TokenTypeAccess)
             (demo_world 1700003600 ∅ [])) = Err err
    ∧ errors_Is err jwt.ErrTokenExpired = true.
Proof.
  intros h token.
  destruct (token_rejected_at_expiry (L := demo true) h demo_service
              token TokenTypeAccess 1700003600 (demo_world 1700003600 ∅ []))
    as [_ Hexpired].
  - unfold token. by rewrite (issued_declared_claim _ (demo_codec_roundtrip true)).
  - reflexivity.
  - reflexivity.
  - apply Hexpired. apply (issued_well_signed _ (demo_codec_roundtrip true) eq_refl).
Defined.

(** C10.  Algorithm pinning.  A token whose header declares an algorithm
    outside the HMAC family ("none", RS256, ES256, a name no method is
    registered under, ...) is rejected by [validateToken] for every
    expected type, whatever its claims and its signature, before the clock
    is read; so [ValidateAccessToken] rejects it, and [RefreshToken]
    answers "invalid refresh token". *)
Theorem non_hmac_algorithm_rejected
    {L : Lib} {W : Type} (h : Handler W) (s : AuthService)
    (tokenString alg : string) (w : W) :
  declared_header tokenString "alg" = Some (JString alg) →
  hmac_alg alg = false →
  (∀ expectedType,
      ∃ err, exec h (validateToken s tokenString expectedType) w
             = {| value := Err err; world := w; trace := [] |})
  ∧ (∃ err, value (exec h (ValidateAccessToken s tokenString) w) = Err err)
  ∧ value (exec h (RefreshToken s {| RefreshTokenRequest_RefreshToken := tokenString |}) w)
    = Err (errorString "invalid refresh token").
Proof.
  intros Halg Hnot.
  destruct (Parse_not_hmac h s tokenString alg w Halg Hnot) as [err Hparse].
  assert (∀ expectedType,
             exec h (validateToken s tokenString expectedType) w
             = {| value := Err (fmt_Errorf_w "failed to parse token: " err);
                  world := w; trace := [] |}) as Hvalidate.
  { intros expectedType. unfold validateToken. by rewrite exec_bind, Hparse. }
  split_and!.
  - intros expectedType. eexists. apply Hvalidate.
  - unfold ValidateAccessToken. rewrite Hvalidate. by eexists.
  - unfold RefreshToken. by rewrite exec_bind, Hvalidate.
Qed.

Lemma compact_declared_header {L : Lib} (header claims : MapClaims) (sig key : string) :
  codec_roundtrip → declared_header (compact header claims sig) key = header !! key.
Proof.
  intros codec. unfold declared_header, compact.
  by destruct (codec header claims sig) as [-> _].
Qed.

(** The unsigned token with the algorithm "none". *)
Lemma non_hmac_algorithm_rejected_witness :
  let h := server (L := demo true) NewRedisSessionStore in
  let w := demo_world 1700000000 ∅ [] in
  (∃ err, value (exec h (ValidateAccessToken (L := demo true) demo_service demo_unsigned) w)
          = Err err)
  ∧ value (exec h (RefreshToken (L := demo true) demo_service
                     {| RefreshTokenRequest_RefreshToken := demo_unsigned |}) w)
    = Err (errorString "invalid refresh token").
Proof.
  intros h w.
  apply (non_hmac_algorithm_rejected (L := demo true) h demo_service
           demo_unsigned "none" w).
  - unfold demo_unsigned.
    by rewrite (compact_declared_header _ _ _ _ (demo_codec_roundtrip true)).
  - reflexivity.
Defined.

(** ** Frames: what a program does not call, it does not change *)

Section Frame.
Context {W R : Type} (h : Handler W) (view : W → R) (writes : Event → bool).
Hypothesis frame : ∀ (X : Type) (c : Cmd X) (w : W),
    writes (event c) = false → view (snd (h X c w)) = view w.

Lemma exec_frame {A : Type} (p : Prog A) (w : W) :
  forallb (λ e, negb (writes e)) (trace (exec h p w)) = true →
  view (world (exec h p w)) = view w.
Proof.
  revert w. induction p as [a | X c k IH]; intros w; simpl; [done |].
  intros [Hc Hrest]%andb_true_iff. rewrite IH; [| done].
  apply frame. by apply negb_true_iff.
Qed.

End Frame.

Section ServerFrames.
Context {L : Lib} (store : RedisSessionStore).

Lemma server_redis_frame (X : Type) (c : Cmd X) (w : World) :
  writes_store (event c) = false → redis (snd (server store X c w)) = redis w.
Proof. by destruct c. Qed.

Lemma server_mongo_frame (X : Type) (c : Cmd X) (w : World) :
  writes_users (event c) = false → mongo (snd (server store X c w)) = mongo w.
Proof. by destruct c. Qed.

(** A program that issues no write to the session store leaves Redis as it
    was, and one that issues no [Create] leaves the collection as it was. *)
Lemma server_redis_unchanged {A : Type} (p : Prog A) (w : World) :
  forallb (λ e, negb (writes_store e)) (trace (exec (server store) p w)) = true →
  redis (world (exec (server store) p w)) = redis w.
Proof. apply exec_frame, server_redis_frame. Qed.

Lemma server_mongo_unchanged {A : Type} (p : Prog A) (w : World) :
  forallb (λ e, negb (writes_users e)) (trace (exec (server store) p w)) = true →
  mongo (world (exec (server store) p w)) = mongo w.
Proof. apply exec_frame, server_mongo_frame. Qed.

End ServerFrames.

Section Traces.
Context {L : Lib} {W : Type} (h : Handler W) (s : AuthService).

(** [validateToken] at most reads the clock. *)
Lemma validateToken_trace (tokenString expectedType : string) (w : W) :
  trace (exec h (validateToken s tokenString expectedType) w) = []
  ∨ trace (exec h (validateToken s tokenString expectedType) w) = [event time_Now].
Proof.
  destruct (validateToken_world h s tokenString expectedType w) as [_ ->].
  destruct (Parse_trace h tokenString (keyFunc s) w) as [(-> & _) | (-> & _)]; auto.
Qed.

(** [RefreshToken], step by step. *)
Lemma RefreshToken_exec (req : RefreshTokenRequest) (w : W) :
  let o := exec h (validateToken s (RefreshTokenRequest_RefreshToken req)
                     TokenTypeRefresh) w in
  exec h (RefreshToken s req) w
  = match value o with
    | Err _ =>
        {| value := Err (fmt_Errorf "invalid refresh token");
           world := world o; trace := trace o |}
    | Ok claims =>
        let get := event (sessionStore_Get (Claims_SessionID claims)) in
        let g := h _ (sessionStore_Get (Claims_SessionID claims)) (world o) in
        match fst g with
        | Err _ =>
            {| value := Err (fmt_Errorf "invalid session");
               world := snd g; trace := (trace o ++ [get])%list |}
        | Ok session =>
            if negb (Session_IsActive session) then
              {| value := Err (fmt_Errorf "session expired");
                 world := snd g; trace := (trace o ++ [get])%list |}
            else
              let n := h _ time_Now (snd g) in
              if Time_After (fst n) (Session_ExpiresAt session) then
                {| value := Err (fmt_Errorf "session expired");
                   world := snd n; trace := (trace o ++ [get; event time_Now])%list |}
              else
                let n1 := h _ time_Now (snd n) in
                let n2 := h _ time_Now (snd n1) in
                let n3 := h _ time_Now (snd n2) in
                if hash_Available SHA256 then
                  {| value :=
                       Ok {| RefreshTokenResponse_AccessToken :=
                               issued s (access_claims (Claims_UserID claims)
                                           (Claims_Username claims)
                                           (Claims_SessionID claims))
                                 (Time_Unix (Time_Add (fst n1)
                                               (JWTConfig_AccessExpiry (config s))))
                                 (Time_Unix (fst n2));
                             RefreshTokenResponse_ExpiresAt :=
                               Time_Add (fst n3) (JWTConfig_AccessExpiry (config s)) |};
                     world := snd n3;
                     trace := (trace o ++ [get; event time_Now; event time_Now;
                                           event time_Now; event time_Now])%list |}
                else
                  {| value := Err (fmt_Errorf_w "failed to generate access token: "
                                     (errorString jwt.ErrHashUnavailable));
                     world := snd n2;
                     trace := (trace o ++ [get; event time_Now; event time_Now;
                                           event time_Now])%list |}
        end
    end.
Proof.
  intros o. unfold RefreshToken. rewrite exec_bind. fold o.
  destruct (value o) as [claims|err]; [| simpl; by rewrite app_nil_r].
  rewrite exec_call_bind. cbn [value world trace].
  destruct (fst (h _ (sessionStore_Get (Claims_SessionID claims)) (world o)))
    as [session|err]; [| done].
  rewrite exec_bind.
  destruct (Session_IsActive session); cbn [negb]; [| done].
  rewrite exec_call_bind, exec_ret. cbn [value world trace].
  destruct (Time_After _ _); [done |].
  rewrite exec_bind, generateAccessToken_exec. cbn [value world trace].
  destruct (hash_Available SHA256); [| done].
  rewrite exec_call_bind, exec_ret. reflexivity.
Qed.

End Traces.

(** ** RefreshToken *)

Section Refresh.
Context {L : Lib} {W : Type} (h : Handler W) (s : AuthService).

(** The claims [validateToken] returns are those the token declares. *)
Lemma validateToken_declared (tokenString expectedType : string) (w : W) (claims : Claims) :
  value (exec h (validateToken s tokenString expectedType) w) = Ok claims →
  claims = {| Claims_UserID := declared_string tokenString "userId";
              Claims_Username := declared_string tokenString "username";
              Claims_SessionID := declared_string tokenString "sessionId";
              Claims_Type := expectedType |}.
Proof.
  intros Hvalid.
  destruct (validateToken_ok_inv h s _ _ _ _ Hvalid) as (token & Hparse & _ & -> & _).
  destruct (Parse_ok_inv h _ _ _ _ Hparse)
    as (parts & alg & method & sig & key & Hsplit & _ & _ & _ & _ & _ & _ & -> & _).
  unfold declared_string, declared_claim. by rewrite Hsplit.
Qed.

End Refresh.

(** C3.  The outcomes of RefreshToken, in order.  If [validateToken]
    rejects the refresh token (for whatever cause) the error is "invalid
    refresh token"; otherwise, if the session store's [Get] fails, it is
    "invalid session"; otherwise, if the session is inactive or the clock
    is after its expiry, it is "session expired"; otherwise, SHA-256 being
    available to sign with, the call succeeds with a new access token that
    carries the user id, the username and the session id the refresh token
    declares (were SHA-256 missing, the error of the signature would come
    back under "failed to generate access token").  The response has no
    field for a refresh token. *)
Theorem RefreshToken_outcomes
    {L : Lib} {W : Type} (h : Handler W) (s : AuthService)
    (req : RefreshTokenRequest) (w : W) :
  let token := RefreshTokenRequest_RefreshToken req in
  let o := exec h (validateToken s token TokenTypeRefresh) w in
  let answer := value (exec h (RefreshToken s req) w) in
  (∀ err, value o = Err err → answer = Err (errorString "invalid refresh token"))
  ∧ (∀ claims, value o = Ok claims →
       let g := h _ (sessionStore_Get (Claims_SessionID claims)) (world o) in
       Claims_SessionID claims = declared_string token "sessionId"
       ∧ (∀ err, fst g = Err err → answer = Err (errorString "invalid session"))
       ∧ (∀ session, fst g = Ok session →
            let now := fst (h _ time_Now (snd g)) in
            (Session_IsActive session = false
             ∨ Time_After now (Session_ExpiresAt session) = true →
             answer = Err (errorString "session expired"))
            ∧ (Session_IsActive session = true →
               Time_After now (Session_ExpiresAt session) = false →
               hash_Available SHA256 = true →
               ∃ exp iat expiresAt,
                 answer
                 = Ok {| RefreshTokenResponse_AccessToken :=
                           issued s (access_claims (declared_string token "userId")
                                       (declared_string token "username")
                                       (declared_string token "sessionId")) exp iat;
                         RefreshTokenResponse_ExpiresAt := expiresAt |})
            ∧ (Session_IsActive session = true →
               Time_After now (Session_ExpiresAt session) = false →
               hash_Available SHA256 = false →
               answer = Err (fmt_Errorf_w "failed to generate access token: "
                               (errorString jwt.ErrHashUnavailable))))).
Proof.
  intros token o answer. unfold answer. rewrite RefreshToken_exec. fold token o.
  split.
  - by intros err ->.
  - intros claims Hvalid. rewrite Hvalid. cbv zeta.
    pose proof (validateToken_declared h s _ _ _ _ Hvalid) as Hclaims. fold token in Hclaims.
    split; [by rewrite Hclaims |]. split.
    + by intros err ->.
    + intros session ->. split_and!.
      * intros [-> | Hafter]; [done |].
        destruct (Session_IsActive session); [| done]. by rewrite Hafter.
      * intros -> -> ->. do 3 eexists. simpl. by rewrite Hclaims at 1 2 3.
      * by intros -> -> ->.
Qed.

Section DemoTokens.

Lemma demo_declared_string (claims : Claims) (exp iat : Z) (key : string) :
  declared_string (L := demo true) (issued (L := demo true) demo_service claims exp iat) key
  = claim_string (token_claims demo_service claims exp iat) key.
Proof.
  unfold declared_string, claim_string.
  by rewrite (issued_declared_claim _ (demo_codec_roundtrip true)).
Qed.

(** The refresh token of the stand-in service validates, a hundred seconds
    after it was issued. *)
Lemma demo_refresh_token_valid (start : Z) (sessions : gmap string (RedisData * option Time))
    (users : list MongoUser) (store : RedisSessionStore) :
  start < 1700086400 →
  let w := demo_world start sessions users in
  exec (server (L := demo true) store)
       (validateToken (L := demo true) demo_service demo_refresh_token TokenTypeRefresh) w
  = {| value := Ok (refresh_claims "user-id" "testuser" "session-id");
       world := tick w;
       trace := [event time_Now] |}.
Proof.
  intros Hstart w. unfold demo_refresh_token.
  rewrite (validateToken_issued _ _ (demo_codec_roundtrip true) eq_refl); try done.
  simpl. unfold Time_Before, demo_clock, time_Unix, time_Second.
  apply Z.ltb_lt. lia.
Qed.

End DemoTokens.

(** The refresh token of a stored, active session that has not expired. *)
Lemma RefreshToken_outcomes_witness :
  let h := server (L := demo true) NewRedisSessionStore in
  let w := demo_world 1700000100 demo_sessions [demo_alice] in
  ∃ exp iat expiresAt,
    value (exec h (RefreshToken (L := demo true) demo_service
                     {| RefreshTokenRequest_RefreshToken := demo_refresh_token |}) w)
    = Ok {| RefreshTokenResponse_AccessToken :=
              issued (L := demo true) demo_service
                (access_claims "user-id" "testuser" "session-id") exp iat;
            RefreshTokenResponse_ExpiresAt := expiresAt |}.
Proof.
  intros h w.
  pose proof (RefreshToken_outcomes (L := demo true) h demo_service
                {| RefreshTokenRequest_RefreshToken := demo_refresh_token |} w)
    as [_ Hvalidated].
  cbv zeta in Hvalidated. cbn [RefreshTokenRequest_RefreshToken] in Hvalidated.
  unfold h, w in Hvalidated.
  rewrite (demo_refresh_token_valid 1700000100 demo_sessions [demo_alice]
             NewRedisSessionStore) in Hvalidated by lia.
  destruct (Hvalidated _ eq_refl) as (_ & _ & Hfound).
  destruct (Hfound demo_session eq_refl) as (_ & Hactive & _).
  destruct (Hactive eq_refl eq_refl eq_refl) as (exp & iat & expiresAt & Hanswer).
  exists exp, iat, expiresAt. unfold demo_refresh_token in Hanswer.
  by rewrite !demo_declared_string in Hanswer.
Defined.

(** The cases of [RefreshToken_exec]. *)
Ltac refresh_cases :=
  rewrite RefreshToken_exec; cbv zeta;
  match goal with
  | |- context [value (exec ?h (validateToken ?s ?t ?ty) ?w)] =>
      destruct (value (exec h (validateToken s t ty) w)) as [?claims|?]
  end;
  [ match goal with
    | |- context [fst (?h ?X (sessionStore_Get ?sid) ?w)] =>
        destruct (fst (h X (sessionStore_Get sid) w)) as [?session|?]
    end;
    [ match goal with
      | |- context [Session_IsActive ?session] => destruct (Session_IsActive session)
      end; cbn [negb];
      [ match goal with
        | |- context [Time_After ?t ?u] => destruct (Time_After t u)
        end; [| destruct (hash_Available SHA256)] | ] | ] | ];
  cbn [value world trace].

(** C9.  RefreshToken does not write to the session store.  Whatever
    implements the interfaces and whatever the request: the calls
    [RefreshToken] makes to the session store are none (the token was
    rejected) or one [Get]; and on the running server, succeed or fail,
    Redis after the call is what it was before: the same keys with the
    same values and deadlines. *)
Theorem RefreshToken_store_unchanged
    {L : Lib} (s : AuthService) (req : RefreshTokenRequest) :
  (∀ (W : Type) (h : Handler W) (w : W),
      store_calls (trace (exec h (RefreshToken s req) w)) = []
      ∨ ∃ sessionID,
          store_calls (trace (exec h (RefreshToken s req) w))
          = [event (sessionStore_Get sessionID)])
  ∧ (∀ (store : RedisSessionStore) (w : World),
        redis (world (exec (server store) (RefreshToken s req) w)) = redis w).
Proof.
  split.
  - intros W h w. refresh_cases.
    all: destruct (validateToken_trace h s (RefreshTokenRequest_RefreshToken req)
                     TokenTypeRefresh w) as [-> | ->].
    all: first [by left | right; by eexists].
  - intros store w. apply server_redis_unchanged. refresh_cases.
    all: by destruct (validateToken_trace (server store) s
                        (RefreshTokenRequest_RefreshToken req) TokenTypeRefresh w)
           as [-> | ->].
Qed.

(** ** Logout *)

Section LogoutSteps.
Context {L : Lib} {W : Type} (h : Handler W) (s : AuthService).

(** [Logout], step by step. *)
Lemma Logout_exec (req : LogoutRequest) (w : W) :
  let token := LogoutRequest_RefreshToken req in
  let ack := Ok {| LogoutResponse_Message := "Logged out successfully" |} in
  let o := exec h (validateToken s token TokenTypeRefresh) w in
  exec h (Logout s req) w
  = if String.eqb token "" then {| value := ack; world := w; trace := [] |}
    else match value o with
         | Err _ => {| value := ack; world := world o; trace := trace o |}
         | Ok claims =>
             let delete := sessionStore_Delete (Claims_SessionID claims) in
             {| value := ack;
                world := snd (h _ delete (world o));
                trace := (trace o ++ [event delete])%list |}
         end.
Proof.
  intros token ack o. unfold Logout. fold token. rewrite exec_bind.
  destruct (String.eqb token ""); cbn [negb]; [done |].
  rewrite exec_bind. fold o.
  destruct (value o) as [claims|err].
  - rewrite exec_call_bind, !exec_ret. cbn [value world trace].
    by rewrite app_nil_r.
  - rewrite !exec_ret. cbn [value world trace]. by rewrite !app_nil_r.
Qed.

End LogoutSteps.

Section ServerStore.
Context {L : Lib} (store : RedisSessionStore).

(** [Delete] on the running server while Redis answers: the key is gone
    afterwards, and the answer is "session not found" when it was not
    there. *)
Lemma server_Delete (sessionID : string) (w : World) :
  redis_err (redis w) = None →
  server store _ (sessionStore_Delete sessionID) w
  = (match redis_live (redis w) (getKey store sessionID) with
     | Some _ => None
     | None => Some (fmt_Errorf "session not found")
     end,
     with_redis w {| redis_keys := delete (getKey store sessionID) (redis_keys (redis w));
                     redis_time := redis_time (redis w);
                     redis_err := redis_err (redis w) |}).
Proof.
  intros Hup. simpl. unfold RedisSessionStore_Delete, redis_Del. rewrite Hup.
  by destruct (redis_live (redis w) (getKey store sessionID)).
Qed.

Lemma redis_live_delete (r : Redis) (key : string) :
  redis_live {| redis_keys := delete key (redis_keys r);
                redis_time := redis_time r; redis_err := redis_err r |} key = None.
Proof. unfold redis_live. simpl. by rewrite lookup_delete_eq. Qed.

(** [validateToken] leaves Redis and the collection alone. *)
Lemma server_validateToken_frame (s : AuthService) (tokenString expectedType : string)
    (w : World) :
  redis (world (exec (server store) (validateToken s tokenString expectedType) w))
  = redis w.
Proof.
  apply server_redis_unchanged.
  by destruct (validateToken_trace (server store) s tokenString expectedType w)
    as [-> | ->].
Qed.

End ServerStore.

(** C4.  Logout reports success for every input, whatever implements the
    session store.  With no refresh token it does nothing.  With a token
    [validateToken] rejects, the rejection is dropped and the store is not
    called.  With a token it accepts, on the running server with Redis
    answering, the one call to the store is the [Delete] of the session
    the token names, and the key of that session is gone afterwards.  A
    second Logout with the same token, the session being gone, is told
    "session not found" by the store and reports success all the same. *)
Theorem Logout_always_succeeds {L : Lib} (s : AuthService) :
  let ack := Ok {| LogoutResponse_Message := "Logged out successfully" |} in
  (∀ (W : Type) (h : Handler W) (req : LogoutRequest) (w : W),
      value (exec h (Logout s req) w) = ack)
  ∧ (∀ (W : Type) (h : Handler W) (w : W),
        exec h (Logout s {| LogoutRequest_RefreshToken := "" |}) w
        = {| value := ack; world := w; trace := [] |})
  ∧ (∀ (W : Type) (h : Handler W) (req : LogoutRequest) (w : W) (err : error),
        value (exec h (validateToken s (LogoutRequest_RefreshToken req)
                         TokenTypeRefresh) w) = Err err →
        store_calls (trace (exec h (Logout s req) w)) = [])
  ∧ (∀ (store : RedisSessionStore) (req : LogoutRequest) (w : World) (claims : Claims),
        let h := server store in
        let refresh := validateToken s (LogoutRequest_RefreshToken req) TokenTypeRefresh in
        LogoutRequest_RefreshToken req ≠ "" →
        value (exec h refresh w) = Ok claims →
        redis_err (redis w) = None →
        let w1 := world (exec h (Logout s req) w) in
        store_calls (trace (exec h (Logout s req) w))
        = [event (sessionStore_Delete (Claims_SessionID claims))]
        ∧ redis_keys (redis w1)
          = delete (getKey store (Claims_SessionID claims)) (redis_keys (redis w))
        ∧ (value (exec h refresh w1) = Ok claims →
           fst (h _ (sessionStore_Delete (Claims_SessionID claims))
                  (world (exec h refresh w1)))
           = Some (errorString "session not found")
           ∧ value (exec h (Logout s req) w1) = ack)).
Proof.
  intros ack.
  assert (∀ (W : Type) (h : Handler W) (req : LogoutRequest) (w : W),
             value (exec h (Logout s req) w) = ack) as Hack.
  { intros W h req w. rewrite Logout_exec. cbv zeta. by repeat case_match. }
  split_and!; [done | | |].
  - intros W h w. by rewrite Logout_exec.
  - intros W h req w err Hrejected. rewrite Logout_exec. cbv zeta.
    destruct (String.eqb _ ""); [done |]. rewrite Hrejected. cbn [trace].
    by destruct (validateToken_trace h s (LogoutRequest_RefreshToken req)
                   TokenTypeRefresh w) as [-> | ->].
  - intros store req w claims h refresh Htoken Hvalid Hup w1.
    subst h refresh.
    set (o := exec (server store)
                (validateToken s (LogoutRequest_RefreshToken req) TokenTypeRefresh) w)
      in *.
    assert (exec (server store) (Logout s req) w
            = {| value := ack;
                 world := snd (server store _
                                 (sessionStore_Delete (Claims_SessionID claims)) (world o));
                 trace := (trace o
                           ++ [event (sessionStore_Delete (Claims_SessionID claims))])%list |})
      as Hlogout.
    { rewrite Logout_exec. cbv zeta. apply String.eqb_neq in Htoken as ->.
      fold o. by rewrite Hvalid. }
    pose proof (server_validateToken_frame store s (LogoutRequest_RefreshToken req)
                  TokenTypeRefresh w) as Hframe. fold o in Hframe.
    assert (redis w1
            = {| redis_keys := delete (getKey store (Claims_SessionID claims))
                                 (redis_keys (redis w));
                 redis_time := redis_time (redis w);
                 redis_err := redis_err (redis w) |}) as Hredis.
    { unfold w1. rewrite Hlogout. cbn [world].
      rewrite server_Delete by (by rewrite Hframe). cbn [snd with_redis redis].
      by rewrite Hframe. }
    split_and!.
    + rewrite Hlogout. cbn [trace]. unfold o.
      by destruct (validateToken_trace (server store) s (LogoutRequest_RefreshToken req)
                     TokenTypeRefresh w) as [-> | ->].
    + by rewrite Hredis.
    + intros Hagain. split; [| apply Hack].
      pose proof (server_validateToken_frame store s (LogoutRequest_RefreshToken req)
                    TokenTypeRefresh w1) as Hframe1.
      rewrite server_Delete by (by rewrite Hframe1, Hredis). cbn [fst].
      by rewrite Hframe1, Hredis, redis_live_delete.
Qed.

Lemma issued_nonempty {L : Lib} (s : AuthService) (claims : Claims) (exp iat : Z) :
  issued s claims exp iat ≠ "".
Proof. unfold issued. simpl. by destruct (SigningString _ _). Qed.

(** Logging out of the stored session, twice. *)
Lemma Logout_always_succeeds_witness :
  let h := server (L := demo true) NewRedisSessionStore in
  let req := {| LogoutRequest_RefreshToken := demo_refresh_token |} in
  let w := demo_world 1700000100 demo_sessions [demo_alice] in
  let w1 := world (exec h (Logout (L := demo true) demo_service req) w) in
  redis_keys (redis w1) = delete "session:session-id" demo_sessions
  ∧ value (exec h (Logout (L := demo true) demo_service req) w1)
    = Ok {| LogoutResponse_Message := "Logged out successfully" |}.
Proof.
  intros h req w w1.
  destruct (Logout_always_succeeds (L := demo true) demo_service)
    as (Hack & _ & _ & Hvalid).
  split; [| apply Hack].
  apply (Hvalid NewRedisSessionStore req w
           (refresh_claims "user-id" "testuser" "session-id")).
  - apply issued_nonempty.
  - unfold w. cbn [LogoutRequest_RefreshToken req].
    by rewrite (demo_refresh_token_valid 1700000100 demo_sessions [demo_alice]
                  NewRedisSessionStore) by lia.
  - reflexivity.
Defined.

(** ** Login and the session store *)

Section LoginSteps.
Context {L : Lib} {W : Type} (h : Handler W) (s : AuthService).

(** [openSession], step by step. *)
Lemma openSession_exec (user : User) (w : W) :
  let n0 := h _ time_Now w in
  let id := h _ (ulid_MustNew (ulid_Timestamp (fst n0))) (snd n0) in
  let n1 := h _ time_Now (snd id) in
  let n2 := h _ time_Now (snd n1) in
  let session :=
    {| Session_ID := fst id;
       Session_UserID := User_ID user;
       Session_CreatedAt := fst n1;
       Session_ExpiresAt := Time_Add (fst n2) (JWTConfig_RefreshExpiry (config s));
       Session_IsActive := true |} in
  let set := sessionStore_Set (fst id) session (JWTConfig_RefreshExpiry (config s)) in
  let st := h _ set (snd n2) in
  let opened := [event time_Now; event (ulid_MustNew (ulid_Timestamp (fst n0)));
                 event time_Now; event time_Now; event set] in
  let a1 := h _ time_Now (snd st) in
  let a2 := h _ time_Now (snd a1) in
  let r1 := h _ time_Now (snd a2) in
  let r2 := h _ time_Now (snd r1) in
  let n3 := h _ time_Now (snd r2) in
  exec h (openSession s user) w
  = match fst st with
    | Some err =>
        {| value := Err (fmt_Errorf_w "failed to create session: " err);
           world := snd st; trace := opened |}
    | None =>
        if hash_Available SHA256 then
          {| value :=
               Ok {| LoginResponse_AccessToken :=
                       issued s (access_claims (User_ID user) (User_Username user) (fst id))
                         (Time_Unix (Time_Add (fst a1) (JWTConfig_AccessExpiry (config s))))
                         (Time_Unix (fst a2));
                     LoginResponse_RefreshToken :=
                       issued s (refresh_claims (User_ID user) (User_Username user) (fst id))
                         (Time_Unix (Time_Add (fst r1) (JWTConfig_RefreshExpiry (config s))))
                         (Time_Unix (fst r2));
                     LoginResponse_ExpiresAt :=
                       Time_Add (fst n3) (JWTConfig_AccessExpiry (config s));
                     LoginResponse_User := ToResponse user |};
             world := snd n3;
             trace := (opened ++ [event time_Now; event time_Now; event time_Now;
                                  event time_Now; event time_Now])%list |}
        else
          {| value := Err (fmt_Errorf_w "failed to generate access token: "
                             (errorString jwt.ErrHashUnavailable));
             world := snd a2;
             trace := (opened ++ [event time_Now; event time_Now])%list |}
    end.
Proof.
  cbv zeta. unfold openSession.
  rewrite !exec_call_bind. cbn [value world trace].
  destruct (fst (h _ (sessionStore_Set _ _ _) _)) as [err|]; [done |].
  rewrite exec_bind, generateAccessToken_exec. cbn [value world trace].
  destruct (hash_Available SHA256) eqn:Hsha; [| done].
  rewrite exec_bind, generateRefreshToken_exec. cbn [value world trace].
  rewrite Hsha, exec_call_bind, exec_ret. reflexivity.
Qed.

(** [Login] and [LoginByEmail], up to [openSession]. *)
Lemma Login_exec (req : LoginRequest) (w : W) :
  let lookup := userRepo_GetByUsername (LoginRequest_Username req) in
  let g := h _ lookup w in
  exec h (Login s req) w
  = match fst g with
    | Err _ => {| value := Err (fmt_Errorf "invalid credentials");
                  world := snd g; trace := [event lookup] |}
    | Ok user =>
        match verifyPassword (User_Password user) (LoginRequest_Password req) with
        | Some _ => {| value := Err (fmt_Errorf "invalid credentials");
                       world := snd g; trace := [event lookup] |}
        | None =>
            let o := exec h (openSession s user) (snd g) in
            {| value := value o; world := world o; trace := event lookup :: trace o |}
        end
    end.
Proof.
  cbv zeta. unfold Login. rewrite exec_call_bind.
  destruct (fst (h _ _ w)) as [user|err]; [| done].
  by destruct (verifyPassword _ _).
Qed.

Lemma LoginByEmail_exec (req : LoginByEmailRequest) (w : W) :
  let lookup := userRepo_GetByEmail (LoginByEmailRequest_Email req) in
  let g := h _ lookup w in
  exec h (LoginByEmail s req) w
  = match fst g with
    | Err _ => {| value := Err (fmt_Errorf "invalid credentials");
                  world := snd g; trace := [event lookup] |}
    | Ok user =>
        match verifyPassword (User_Password user) (LoginByEmailRequest_Password req) with
        | Some _ => {| value := Err (fmt_Errorf "invalid credentials");
                       world := snd g; trace := [event lookup] |}
        | None =>
            let o := exec h (openSession s user) (snd g) in
            {| value := value o; world := world o; trace := event lookup :: trace o |}
        end
    end.
Proof.
  cbv zeta. unfold LoginByEmail. rewrite exec_call_bind.
  destruct (fst (h _ _ w)) as [user|err]; [| done].
  by destruct (verifyPassword _ _).
Qed.

End LoginSteps.

Section ServerLogin.
Context {L : Lib} (store : RedisSessionStore) (s : AuthService).




End ServerLogin.

(** ** Register *)

Section RegisterSteps.
Context {L : Lib} {W : Type} (h : Handler W) (s : AuthService).

(** [Register], step by step: the check of the username, the check of the
    email when there is one, the hashing, the creation. *)
Lemma Register_exec (req : RegisterRequest) (w : W) :
  let by_name := userRepo_ExistsByUsername (RegisterRequest_Username req) in
  let e1 := h _ by_name w in
  let by_mail := userRepo_ExistsByEmail (RegisterRequest_Email req) in
  let e2 := h _ by_mail (snd e1) in
  let checked : option error * W * list Event :=
    if String.eqb (RegisterRequest_Email req) "" then (None, snd e1, [event by_name])
    else (match fst e2 with
          | Err err => Some (fmt_Errorf_w "failed to check email: " err)
          | Ok true => Some (fmt_Errorf "email already exists")
          | Ok false => None
          end, snd e2, [event by_name; event by_mail]) in
  let hash := bcrypt_GenerateFromPassword (RegisterRequest_Password req) (bcryptCost s) in
  let b := h _ hash (snd (fst checked)) in
  exec h (Register s req) w
  = match fst e1 with
    | Err err => {| value := Err (fmt_Errorf_w "failed to check username: " err);
                    world := snd e1; trace := [event by_name] |}
    | Ok true => {| value := Err (fmt_Errorf "username already exists");
                    world := snd e1; trace := [event by_name] |}
    | Ok false =>
        match fst (fst checked) with
        | Some err => {| value := Err err; world := snd (fst checked);
                         trace := snd checked |}
        | None =>
            match fst b with
            | Err err =>
                {| value := Err (fmt_Errorf_w "failed to hash password: " err);
                   world := snd b; trace := (snd checked ++ [event hash])%list |}
            | Ok hashedPassword =>
                let user := {| User_ID := "";
                               User_Username := RegisterRequest_Username req;
                               User_Password := hashedPassword;
                               User_Email := RegisterRequest_Email req;
                               User_Image := RegisterRequest_Image req;
                               User_CreatedAt := time_Zero;
                               User_UpdatedAt := time_Zero |} in
                let create := userRepo_Create user in
                let c := h _ create (snd b) in
                {| value :=
                     match fst c with
                     | Err err => Err (fmt_Errorf_w "failed to create user: " err)
                     | Ok createdUser =>
                         Ok {| RegisterResponse_User := ToResponse createdUser;
                               RegisterResponse_Message := "User registered successfully" |}
                     end;
                   world := snd c;
                   trace := (snd checked ++ [event hash; event create])%list |}
            end
        end
    end.
Proof.
  cbv zeta. unfold Register, hashPassword. exec_norm.
  destruct (fst (h _ (userRepo_ExistsByUsername _) w)) as [[|]|err]; [done | | done].
  exec_norm.
  destruct (String.eqb (RegisterRequest_Email req) ""); cbn [negb]; exec_norm.
  - destruct (fst (h _ (bcrypt_GenerateFromPassword _ _) _)) as [hashed|err];
      exec_norm; [| done].
    by destruct (fst (h _ (userRepo_Create _) _)).
  - destruct (fst (h _ (userRepo_ExistsByEmail _) _)) as [[|]|err];
      exec_norm; [done | | done].
    destruct (fst (h _ (bcrypt_GenerateFromPassword _ _) _)) as [hashed|err];
      exec_norm; [| done].
    by destruct (fst (h _ (userRepo_Create _) _)).
Qed.

End RegisterSteps.

Section ServerRegister.
Context {L : Lib} (store : RedisSessionStore).


End ServerRegister.




Section Collection.
Context (m : Mongo).
Hypothesis up : mongo_err m = None.

Lemma ExistsByUsername_false (username : string) :
  (∀ d, d ∈ mongo_users m → by_username username d = false) →
  userRepository_ExistsByUsername username m = Ok false.
Proof.
  intros Hnone. unfold userRepository_ExistsByUsername, mongo_CountDocuments.
  rewrite up. simpl. f_equal.
  induction (mongo_users m) as [|d l IH]; [done |]. simpl.
  rewrite (Hnone d) by by left. apply IH. intros d' Hd'. apply Hnone. by right.
Qed.

Lemma count_positive (filter : MongoUser → bool) (d : MongoUser) :
  d ∈ mongo_users m → filter d = true →
  counted (mongo_CountDocuments filter m) = Ok true.
Proof.
  intros Hin Hd. unfold mongo_CountDocuments. rewrite up. simpl. f_equal.
  apply Z.ltb_lt.
  induction (mongo_users m) as [|d' l IH]; [by apply elem_of_nil in Hin |].
  simpl. apply elem_of_cons in Hin as [<- | Hin].
  - rewrite Hd. simpl. lia.
  - specialize (IH Hin). destruct (filter d'); simpl; lia.
Qed.

Lemma ExistsByUsername_true (username : string) (d : MongoUser) :
  d ∈ mongo_users m → by_username username d = true →
  userRepository_ExistsByUsername username m = Ok true.
Proof. apply count_positive. Qed.

Lemma ExistsByEmail_false (email : string) :
  (∀ d, d ∈ mongo_users m → by_email email d = false) →
  userRepository_ExistsByEmail email m = Ok false.
Proof.
  intros Hnone. unfold userRepository_ExistsByEmail, mongo_CountDocuments.
  destruct (String.eqb email ""); [done |].
  rewrite up. simpl. f_equal.
  induction (mongo_users m) as [|d l IH]; [done |]. simpl.
  rewrite (Hnone d) by by left. apply IH. intros d' Hd'. apply Hnone. by right.
Qed.

Lemma ExistsByEmail_true (email : string) (d : MongoUser) :
  email ≠ "" → d ∈ mongo_users m → by_email email d = true →
  userRepository_ExistsByEmail email m = Ok true.
Proof.
  intros Hemail%String.eqb_neq Hin Hd. unfold userRepository_ExistsByEmail.
  rewrite Hemail. by apply (count_positive _ d).
Qed.

Lemma duplicate_key_false (doc : MongoUser) :
  (∀ d, d ∈ mongo_users m →
        MongoUser_ID d ≠ MongoUser_ID doc
        ∧ MongoUser_Username d ≠ MongoUser_Username doc
        ∧ (MongoUser_Email doc ≠ "" → MongoUser_Email d ≠ MongoUser_Email doc)) →
  duplicate_key doc m = false.
Proof.
  intros Hfresh. unfold duplicate_key.
  induction (mongo_users m) as [|d l IH]; [done |]. simpl.
  rewrite IH by (intros d' Hd'; apply Hfresh; by right).
  destruct (Hfresh d) as (Hid%String.eqb_neq & Hname%String.eqb_neq & Hmail); [by left |].
  rewrite Hid, Hname. simpl.
  destruct (String.eqb (MongoUser_Email doc) "") eqn:Hempty; [done |].
  apply String.eqb_neq in Hempty. apply Hmail in Hempty as ->%String.eqb_neq. done.
Qed.

End Collection.

(** C6.  Register, on the running server with the database answering.  For
    a username no document carries, an email (when one is given) no
    document carries, a password bcrypt hashes and an id that is new,
    Register succeeds: it answers with [ToResponse] of the created user
    (the id, the username, the email, the image and the two dates: a
    [UserResponse] has no field for the password hash) and the message,
    adds exactly that document to the collection, and neither calls the
    session store nor changes Redis: no session, no token.
    After it, every Register with the same username, whatever email,
    password or image it carries, fails with "username already exists".
    And wherever a Register comes with a username no live document
    carries and a non-empty email a live document carries, it fails with
    "email already exists". *)
Theorem Register_succeeds_once
    {L : Lib} (s : AuthService) (store : RedisSessionStore)
    (req : RegisterRequest) (w : World) (hashedPassword : string) :
  let h := server store in
  let created :=
    {| MongoUser_ID :=
         ulid_String (ulid_Timestamp (clock w (ticks w))) (random w (S (draws w)));
       MongoUser_Username := RegisterRequest_Username req;
       MongoUser_PasswordHash := hashedPassword;
       MongoUser_Email := RegisterRequest_Email req;
       MongoUser_Image := RegisterRequest_Image req;
       MongoUser_CreatedAt := clock w (S (ticks w));
       MongoUser_UpdatedAt := clock w (S (ticks w));
       MongoUser_DeletedAt := None |} in
  let o := exec h (Register s req) w in
  mongo_err (mongo w) = None →
  (∀ d, d ∈ mongo_users (mongo w) →
        MongoUser_ID d ≠ MongoUser_ID created
        ∧ MongoUser_Username d ≠ RegisterRequest_Username req
        ∧ (RegisterRequest_Email req ≠ "" →
           MongoUser_Email d ≠ RegisterRequest_Email req)) →
  bcrypt_hash (random w (draws w)) (RegisterRequest_Password req) (bcryptCost s)
  = Ok hashedPassword →
  value o = Ok {| RegisterResponse_User := ToResponse (mongoUserToModel created);
                  RegisterResponse_Message := "User registered successfully" |}
  ∧ ToResponse (mongoUserToModel created)
    = {| UserResponse_ID := MongoUser_ID created;
         UserResponse_Username := RegisterRequest_Username req;
         UserResponse_Email := RegisterRequest_Email req;
         UserResponse_Image := RegisterRequest_Image req;
         UserResponse_CreatedAt := clock w (S (ticks w));
         UserResponse_UpdatedAt := clock w (S (ticks w)) |}
  ∧ mongo_users (mongo (world o)) = (mongo_users (mongo w) ++ [created])%list
  ∧ redis (world o) = redis w
  ∧ store_calls (trace o) = []
  ∧ (∀ (again : RegisterRequest) (w' : World),
        mongo w' = mongo (world o) →
        RegisterRequest_Username again = RegisterRequest_Username req →
        value (exec h (Register s again) w')
        = Err (errorString "username already exists"))
  ∧ (∀ (other : RegisterRequest) (w' : World) (d : MongoUser),
        mongo_err (mongo w') = None →
        (∀ d', d' ∈ mongo_users (mongo w') →
               by_username (RegisterRequest_Username other) d' = false) →
        RegisterRequest_Email other ≠ "" →
        d ∈ mongo_users (mongo w') →
        by_email (RegisterRequest_Email other) d = true →
        value (exec h (Register s other) w') = Err (errorString "email already exists")).
Proof.
  intros h created o Hup Hfresh Hhash. subst o h.
  assert (exec (server store) (Register s req) w
          = {| value := Ok {| RegisterResponse_User := ToResponse (mongoUserToModel created);
                              RegisterResponse_Message := "User registered successfully" |};
               world := with_mongo (tick (tick (draw (draw w))))
                          {| mongo_users := (mongo_users (mongo w) ++ [created])%list;
                             mongo_err := mongo_err (mongo w) |};
               trace := trace (exec (server store) (Register s req) w) |}) as Hexec.
  { rewrite Register_exec. cbv zeta.
    cbn [server fst snd].
    rewrite (ExistsByUsername_false _ Hup).
    2:{ intros d Hd. destruct (Hfresh d Hd) as (_ & Hname%String.eqb_neq & _).
        unfold by_username. by rewrite Hname. }
    destruct (String.eqb (RegisterRequest_Email req) "") eqn:Hempty; cbn [fst snd].
    - rewrite Hhash. cbn [fst snd mongo draw tick clock ticks random draws].
      unfold userRepository_Create, mongo_InsertOne. rewrite Hup.
      rewrite (duplicate_key_false _ created).
      + reflexivity.
      + intros d Hd. destruct (Hfresh d Hd) as (Hid & Hname & Hmail). by split_and!.
    - rewrite (ExistsByEmail_false _ Hup).
      2:{ intros d Hd. apply String.eqb_neq in Hempty.
          destruct (Hfresh d Hd) as (_ & _ & Hmail). specialize (Hmail Hempty).
          apply String.eqb_neq in Hmail. unfold by_email. by rewrite Hmail. }
      rewrite Hhash. cbn [fst snd mongo draw tick clock ticks random draws].
      unfold userRepository_Create, mongo_InsertOne. rewrite Hup.
      rewrite (duplicate_key_false _ created).
      + reflexivity.
      + intros d Hd. destruct (Hfresh d Hd) as (Hid & Hname & Hmail). by split_and!. }
  split_and!.
  - by rewrite Hexec.
  - reflexivity.
  - by rewrite Hexec.
  - by rewrite Hexec.
  - rewrite Register_exec. cbv zeta. by repeat case_match.
  - intros again w' Hmongo Hsame. rewrite Register_exec. cbv zeta.
    cbn [server fst snd]. rewrite Hmongo, Hexec.
    cbn [world mongo with_mongo].
    match goal with
    | |- context [userRepository_ExistsByUsername _ ?m] =>
        rewrite (ExistsByUsername_true m Hup _ created); [done | |]
    end.
    + cbn [mongo_users]. apply elem_of_app. right. by apply list_elem_of_singleton.
    + unfold by_username. cbn [MongoUser_Username created]. rewrite Hsame.
      by rewrite String.eqb_refl.
  - intros other w' d Hup' Hname Hmail Hin Htaken.
    rewrite Register_exec. cbv zeta. cbn [server fst snd].
    rewrite (ExistsByUsername_false _ Hup' _ Hname).
    apply String.eqb_neq in Hmail as Hempty. rewrite Hempty. cbn [fst snd].
    by rewrite (ExistsByEmail_true _ Hup' _ d Hmail Hin Htaken).
Qed.

(** "bob" registers beside "alice", and registers again with another
    email and password. *)
Lemma Register_succeeds_once_witness :
  let h := server (L := demo true) NewRedisSessionStore in
  let o := exec h (Register demo_service demo_register) demo_start in
  (∃ user, value o = Ok {| RegisterResponse_User := user;
                           RegisterResponse_Message := "User registered successfully" |}
           ∧ UserResponse_Username user = "bob")
  ∧ value (exec h (Register demo_service
                     {| RegisterRequest_Username := "bob";
                        RegisterRequest_Password := "correct horse";
                        RegisterRequest_Email := "robert@example.com";
                        RegisterRequest_Image := "" |}) (world o))
    = Err (errorString "username already exists").
Proof.
  intros h o.
  destruct (Register_succeeds_once (L := demo true) demo_service NewRedisSessionStore
              demo_register demo_start (demo_marker +:+ "hunter22"))
    as (Hvalue & _ & _ & _ & _ & Hagain & _).
  - reflexivity.
  - intros d ->%list_elem_of_singleton. split_and!; [| done | done].
    intros Hid. vm_compute in Hid. discriminate Hid.
  - reflexivity.
  - split.
    + eexists. split; [exact Hvalue | reflexivity].
    + by apply Hagain.
Defined.

(** ** The life of a session, run on the stand-in library

    Both access tokens validate to the claims of "bob" and his session,
    the second differs from the first, the logout is acknowledged, and the
    refresh token then meets "invalid session". *)
Example session_lifecycle :
  let claims := access_claims "01J0" "bob" "01J1" in
  demo_lifecycle
  = Ok (Ok claims, true, Ok claims,
        Ok {| LogoutResponse_Message := "Logged out successfully" |},
        Err (errorString "invalid session")).
Proof. by vm_compute. Qed.

(** * The rest of the authentication code *)

(** ** The session store *)

Lemma getKey_inj (s : RedisSessionStore) (a b : string) : getKey s a = getKey s b → a = b.
Proof. apply String.app_inj. Qed.

Lemma getKey_ne (s : RedisSessionStore) (a b : string) : a ≠ b → getKey s a ≠ getKey s b.
Proof. intros Hne Heq. by apply Hne, (getKey_inj s). Qed.

(** What [Get] answers on a working server, by the entry of the key. *)
Lemma RedisSessionStore_Get_live (s : RedisSessionStore) (sessionID : string) (r : Redis) :
  redis_err r = None →
  RedisSessionStore_Get s sessionID r
  = match redis_live r (getKey s sessionID) with
    | Some (JSON_Session session, _) => Ok session
    | Some (Bytes _, _) =>
        Err (fmt_Errorf_w "failed to unmarshal session: "
               (errorString "invalid character looking for beginning of value"))
    | None => Err (errorString "session not found")
    end.
Proof.
  intros Hup. unfold RedisSessionStore_Get, redis_Get. rewrite Hup.
  destruct (redis_live r (getKey s sessionID)) as [[[session | b] d] |]; reflexivity.
Qed.

Lemma redis_live_ext (r r' : Redis) (key : string) :
  redis_keys r' !! key = redis_keys r !! key → redis_time r' = redis_time r →
  redis_live r' key = redis_live r key.
Proof. intros Hk Ht. unfold redis_live. by rewrite Hk, Ht. Qed.

Lemma RedisSessionStore_Get_ext (s : RedisSessionStore) (sessionID : string) (r r' : Redis) :
  redis_keys r' !! getKey s sessionID = redis_keys r !! getKey s sessionID →
  redis_time r' = redis_time r → redis_err r' = redis_err r →
  RedisSessionStore_Get s sessionID r' = RedisSessionStore_Get s sessionID r.
Proof.
  intros Hk Ht He. unfold RedisSessionStore_Get, redis_Get.
  by rewrite He, (redis_live_ext r r' _ Hk Ht).
Qed.



Lemma RedisSessionStore_Exists_live (s : RedisSessionStore) (sessionID : string) (r : Redis) :
  redis_err r = None →
  RedisSessionStore_Exists s sessionID r
  = Ok (match redis_live r (getKey s sessionID) with Some _ => true | None => false end).
Proof.
  intros Hup. unfold RedisSessionStore_Exists, redis_Exists. rewrite Hup.
  by destruct (redis_live r (getKey s sessionID)).
Qed.

Lemma RedisSessionStore_Delete_live (s : RedisSessionStore) (sessionID : string) (r : Redis) :
  redis_err r = None →
  RedisSessionStore_Delete s sessionID r
  = (match redis_live r (getKey s sessionID) with
     | Some _ => None
     | None => Some (errorString "session not found")
     end,
     {| redis_keys := delete (getKey s sessionID) (redis_keys r);
        redis_time := redis_time r; redis_err := redis_err r |}).
Proof.
  intros Hup. unfold RedisSessionStore_Delete, redis_Del. rewrite Hup.
  by destruct (redis_live r (getKey s sessionID)).
Qed.

(** X2. On a Redis that answers, [Delete] succeeds exactly when the
    session exists and otherwise fails with "session not found"; either
    way the session is gone afterwards: [Get] and a second [Delete] answer
    "session not found", [Exists] answers false, and no other session is
    touched. *)
Theorem session_Delete_then_Get (s : RedisSessionStore) (sessionID : string) (r : Redis) :
  redis_err r = None →
  let d := RedisSessionStore_Delete s sessionID r in
  (fst d = None ∧ RedisSessionStore_Exists s sessionID r = Ok true
   ∨ fst d = Some (errorString "session not found")
     ∧ RedisSessionStore_Exists s sessionID r = Ok false)
  ∧ RedisSessionStore_Get s sessionID (snd d) = Err (errorString "session not found")
  ∧ RedisSessionStore_Exists s sessionID (snd d) = Ok false
  ∧ fst (RedisSessionStore_Delete s sessionID (snd d))
    = Some (errorString "session not found")
  ∧ (∀ other, other ≠ sessionID →
       RedisSessionStore_Get s other (snd d) = RedisSessionStore_Get s other r).
Proof.
  intros Hup d. subst d. rewrite RedisSessionStore_Delete_live by done. cbn [fst snd].
  rewrite RedisSessionStore_Exists_live by done.
  split; [destruct (redis_live r (getKey s sessionID)); auto |].
  rewrite RedisSessionStore_Get_live, RedisSessionStore_Exists_live,
    RedisSessionStore_Delete_live by done.
  cbn [fst]. rewrite redis_live_delete. split_and!; try done.
  intros other Hne. apply RedisSessionStore_Get_ext; try done.
  cbn [redis_keys]. apply lookup_delete_ne. by apply getKey_ne.
Qed.

Lemma session_Delete_then_Get_witness :
  RedisSessionStore_Get NewRedisSessionStore "s1"
    (snd (RedisSessionStore_Delete NewRedisSessionStore "s1" demo_redis))
  = Err (errorString "session not found")
  ∧ fst (RedisSessionStore_Delete NewRedisSessionStore "s1"
           (snd (RedisSessionStore_Delete NewRedisSessionStore "s1" demo_redis)))
    = Some (errorString "session not found").
Proof.
  destruct (session_Delete_then_Get NewRedisSessionStore "s1" demo_redis eq_refl)
    as (_ & Hget & _ & Hagain & _).
  exact (conj Hget Hagain).
Defined.

(** X3. On a Redis that answers, [Exists] is false exactly when [Get]
    fails with "session not found"; it is true exactly when [Get] returns
    a session or fails to decode what the key holds. *)
Theorem session_Exists_iff_found (s : RedisSessionStore) (sessionID : string) (r : Redis) :
  redis_err r = None →
  (RedisSessionStore_Exists s sessionID r = Ok false
   ↔ RedisSessionStore_Get s sessionID r = Err (errorString "session not found"))
  ∧ (RedisSessionStore_Exists s sessionID r = Ok true
     ↔ (∃ session, RedisSessionStore_Get s sessionID r = Ok session)
       ∨ (∃ err, RedisSessionStore_Get s sessionID r
                 = Err (fmt_Errorf_w "failed to unmarshal session: " err))).
Proof.
  intros Hup. rewrite RedisSessionStore_Exists_live, RedisSessionStore_Get_live by done.
  destruct (redis_live r (getKey s sessionID)) as [[[session | b] d] |].
  - split; [done |]. split; [eauto | done].
  - split; [done |]. split; [eauto | done].
  - split; [done |]. split; [done |]. by intros [[? ?] | [? ?]].
Qed.

Lemma session_Exists_iff_found_witness :
  RedisSessionStore_Exists NewRedisSessionStore "s9" demo_redis = Ok false
  ↔ RedisSessionStore_Get NewRedisSessionStore "s9" demo_redis
    = Err (errorString "session not found").
Proof.
  exact (proj1 (session_Exists_iff_found NewRedisSessionStore "s9" demo_redis eq_refl)).
Defined.

(** X4. [Extend] on a missing session fails with "session not found" and
    changes nothing.  On an existing one it succeeds: with a positive
    expiration the session is kept and its deadline becomes the time of
    the server plus the expiration in whole seconds (at least one, and
    less than a second above the expiration); with an expiration that is
    not positive the call still succeeds and the session is gone.  Other
    sessions are not touched. *)
Theorem session_Extend_moves_the_deadline (s : RedisSessionStore) (sessionID : string)
    (expiration : Duration) (r : Redis) :
  redis_err r = None →
  let e := RedisSessionStore_Extend s sessionID expiration r in
  (RedisSessionStore_Exists s sessionID r = Ok false →
     e = (Some (errorString "session not found"), r))
  ∧ (RedisSessionStore_Exists s sessionID r = Ok true →
       fst e = None
       ∧ (0 < expiration →
            RedisSessionStore_Get s sessionID (snd e) = RedisSessionStore_Get s sessionID r
            ∧ 1 ≤ formatSec expiration
            ∧ formatSec expiration * time_Second < expiration + time_Second
            ∧ ∃ data, redis_keys (snd e) !! getKey s sessionID
                      = Some (data, Some (redis_time r
                                          + formatSec expiration * time_Second)))
       ∧ (expiration ≤ 0 →
            RedisSessionStore_Get s sessionID (snd e)
            = Err (errorString "session not found")))
  ∧ (∀ other, other ≠ sessionID →
       RedisSessionStore_Get s other (snd e) = RedisSessionStore_Get s other r).
Proof.
  intros Hup e. subst e. rewrite RedisSessionStore_Exists_live by done.
  unfold RedisSessionStore_Extend, redis_Exists, redis_Expire. rewrite Hup.
  destruct (redis_live r (getKey s sessionID)) as [[data d] |] eqn:Hlive; cbn [Z.eqb fst snd].
  - split; [done |]. split.
    + intros _. split; [done |]. split.
      * intros Hpos.
        assert (1 ≤ formatSec expiration) as Hsec.
        { unfold formatSec. destruct (0 <? expiration) eqn:H0; [| apply Z.ltb_ge in H0; lia].
          destruct (expiration <? time_Second) eqn:H1; cbn [andb]; [lia |].
          apply Z.ltb_ge in H1. unfold time_Second in *.
          apply Z.quot_le_lower_bound; lia. }
        assert (formatSec expiration * time_Second < expiration + time_Second) as Hup'.
        { unfold formatSec. destruct (0 <? expiration) eqn:H0; [| apply Z.ltb_ge in H0; lia].
          destruct (expiration <? time_Second) eqn:H1; cbn [andb]; [unfold time_Second; lia |].
          apply Z.ltb_ge in H1. unfold time_Second in *.
          pose proof (Z.mul_quot_le expiration 1000000000). lia. }
        destruct (formatSec expiration <=? 0) eqn:Hle; [apply Z.leb_le in Hle; lia |].
        split_and!; try done.
        -- rewrite !RedisSessionStore_Get_live by done. rewrite Hlive.
           unfold redis_live. cbn [redis_keys redis_time]. rewrite lookup_insert_eq.
           destruct (redis_time r + formatSec expiration * time_Second <=? redis_time r)
             eqn:Hd; [apply Z.leb_le in Hd; unfold time_Second in *; lia |].
           by destruct data.
        -- exists data. cbn [redis_keys]. by rewrite lookup_insert_eq.
      * intros Hneg.
        assert (formatSec expiration ≤ 0) as Hsec.
        { unfold formatSec. destruct (0 <? expiration) eqn:H0; [apply Z.ltb_lt in H0; lia |].
          cbn [andb]. unfold time_Second. apply Z.quot_le_upper_bound; lia. }
        apply Z.leb_le in Hsec. rewrite Hsec. cbv beta iota.
        rewrite RedisSessionStore_Get_live by done.
        unfold redis_live. cbn [redis_keys]. by rewrite lookup_delete_eq.
    + intros other Hne. apply RedisSessionStore_Get_ext; try done.
      cbn [redis_keys]. destruct (formatSec expiration <=? 0).
      * apply lookup_delete_ne. by apply getKey_ne.
      * apply lookup_insert_ne. by apply getKey_ne.
  - split; [done |]. split; [done |]. done.
Qed.

Lemma session_Extend_moves_the_deadline_witness :
  ∃ data,
    redis_keys (snd (RedisSessionStore_Extend NewRedisSessionStore "s1"
                       (1800 * time_Second + 500000000) demo_redis))
    !! "session:s1"
    = Some (data, Some (1700001800 * time_Second)).
Proof.
  destruct (session_Extend_moves_the_deadline NewRedisSessionStore "s1"
              (1800 * time_Second + 500000000) demo_redis eq_refl)
    as (_ & Hlive & _).
  destruct (Hlive eq_refl) as (_ & Hpos & _).
  destruct (Hpos eq_refl) as (_ & _ & _ & data & Hdata).
  exists data. exact Hdata.
Defined.

(** *** Keys and the sessions of a user *)

Lemma elem_of_List_filter {X : Type} (f : X → bool) (l : list X) (x : X) :
  x ∈ List.filter f l ↔ x ∈ l ∧ f x = true.
Proof. rewrite !list_elem_of_In. apply filter_In. Qed.

Lemma NoDup_List_filter {X : Type} (f : X → bool) (l : list X) :
  NoDup l → NoDup (List.filter f l).
Proof.
  induction 1 as [| x l Hx Hl IH]; simpl; [constructor |].
  destruct (f x); [| done]. constructor; [| done].
  rewrite elem_of_List_filter. by intros [? _].
Qed.

Lemma List_filter_nil {X : Type} (f : X → bool) (l : list X) :
  (∀ x, x ∈ l → f x = false) → List.filter f l = [].
Proof.
  induction l as [| x l IH]; intros Hf; [done |]. simpl.
  rewrite (Hf x) by left. apply IH. intros y Hy. apply Hf. by right.
Qed.

Lemma redis_live_Some_lookup (r : Redis) (key : string) (e : RedisData * option Time) :
  redis_live r key = Some e → redis_keys r !! key = Some e.
Proof.
  unfold redis_live. destruct (redis_keys r !! key) as [[data [deadline |]] |]; try done.
  by destruct (deadline <=? redis_time r).
Qed.

Lemma holds_session_of_live (userID : string) (r : Redis) (key : string) :
  redis_err r = None →
  holds_session_of userID r key
  = match redis_live r key with
    | Some (JSON_Session session, _) => String.eqb (Session_UserID session) userID
    | _ => false
    end.
Proof.
  intros Hup. unfold holds_session_of, redis_Get. rewrite Hup.
  by destruct (redis_live r key) as [[[session | b] d] |].
Qed.

Lemma holds_session_of_ext (userID : string) (r r' : Redis) (key : string) :
  redis_keys r' !! key = redis_keys r !! key →
  redis_time r' = redis_time r → redis_err r' = redis_err r →
  holds_session_of userID r' key = holds_session_of userID r key.
Proof.
  intros Hk Ht He. unfold holds_session_of, redis_Get.
  by rewrite He, (redis_live_ext r r' _ Hk Ht).
Qed.

Lemma redis_Keys_elem {G : Glob} (pattern : string) (r : Redis) (key : string) :
  redis_err r = None →
  ∃ keys, redis_Keys pattern r = Ok keys
          ∧ NoDup keys
          ∧ (∀ key, key ∈ keys
                    ↔ stringmatch pattern key = true ∧ is_Some (redis_live r key)).
Proof.
  intros Hup. unfold redis_Keys. rewrite Hup. eexists. split; [done |]. split.
  - apply NoDup_List_filter, NoDup_fst_map_to_list.
  - intros k. rewrite elem_of_List_filter, andb_true_iff. split.
    + intros [_ [Hm Hl]]. split; [done |]. by destruct (redis_live r k).
    + intros [Hm [e He]]. rewrite He. split_and!; try done.
      apply list_elem_of_fmap. exists (k, e). split; [done |].
      apply elem_of_map_to_list. by apply redis_live_Some_lookup.
Qed.

Lemma redis_Del_keys_fold (keys : list string) (acc : Z * Redis) :
  let removed :=
    fold_left
      (λ (acc : Z * Redis) (key : string),
         (fst acc + match redis_live (snd acc) key with Some _ => 1 | None => 0 end,
          {| redis_keys := delete key (redis_keys (snd acc));
             redis_time := redis_time (snd acc);
             redis_err := redis_err (snd acc) |}))
      keys acc in
  redis_time (snd removed) = redis_time (snd acc)
  ∧ redis_err (snd removed) = redis_err (snd acc)
  ∧ (∀ key, redis_keys (snd removed) !! key
            = if bool_decide (key ∈ keys) then None else redis_keys (snd acc) !! key).
Proof.
  revert acc. induction keys as [| k keys IH]; intros acc; cbn [fold_left].
  - cbv zeta. split_and!; try done.
  - match goal with |- context [fold_left _ keys ?acc'] =>
      destruct (IH acc') as (Ht & He & Hk) end.
    cbv zeta. rewrite Ht, He. split_and!; try done. intros key. rewrite Hk.
    cbn [snd redis_keys].
    destruct (decide (key = k)) as [-> | Hne].
    + rewrite (bool_decide_eq_true_2 (k ∈ k :: keys)) by left.
      rewrite lookup_delete_eq. by destruct (bool_decide (k ∈ keys)).
    + rewrite lookup_delete_ne by done.
      destruct (bool_decide (key ∈ keys)) eqn:Hin.
      * apply bool_decide_eq_true in Hin.
        rewrite bool_decide_eq_true_2; [done | by right].
      * apply bool_decide_eq_false in Hin.
        rewrite bool_decide_eq_false_2; [done |].
        rewrite elem_of_cons. by intros [? | ?].
Qed.

Lemma redis_Del_keys_lookup (keys : list string) (r : Redis) :
  redis_err r = None →
  let d := redis_Del_keys keys r in
  (∃ n, fst d = Ok n)
  ∧ redis_time (snd d) = redis_time r
  ∧ redis_err (snd d) = redis_err r
  ∧ (∀ key, redis_keys (snd d) !! key
            = if bool_decide (key ∈ keys) then None else redis_keys r !! key).
Proof.
  intros Hup d. subst d. unfold redis_Del_keys.
  destruct (redis_err r) eqn:He; [done |]. cbn [fst snd].
  split; [eauto |]. rewrite <- He. apply (redis_Del_keys_fold keys (0, r)).
Qed.

Section UserSessions.
Context {G : Glob} (s : RedisSessionStore) (userID : string) (r : Redis).
Hypothesis Hup : redis_err r = None.

Lemma DeleteUserSessions_lookup :
  let d := RedisSessionStore_DeleteUserSessions s userID r in
  fst d = None
  ∧ redis_time (snd d) = redis_time r
  ∧ redis_err (snd d) = redis_err r
  ∧ (∀ key, redis_keys (snd d) !! key
            = if stringmatch (prefix s +:+ "*") key && holds_session_of userID r key
              then None else redis_keys r !! key).
Proof.
  intros d. subst d. unfold RedisSessionStore_DeleteUserSessions.
  destruct (redis_Keys_elem (prefix s +:+ "*") r "" Hup) as (keys & -> & _ & Hkeys).
  assert (∀ key, key ∈ List.filter (holds_session_of userID r) keys
                 ↔ stringmatch (prefix s +:+ "*") key && holds_session_of userID r key
                   = true) as Huser.
  { intros key. rewrite elem_of_List_filter, Hkeys, andb_true_iff. split.
    - by intros [[Hm _] Hh].
    - intros [Hm Hh]. split_and!; try done.
      rewrite (holds_session_of_live _ _ _ Hup) in Hh.
      destruct (redis_live r key); [eauto | done]. }
  destruct (List.filter (holds_session_of userID r) keys) as [| k ks] eqn:Hks.
  - cbn [length Z.of_nat Z.ltb Z.compare fst snd]. split_and!; try done.
    intros key. destruct (stringmatch _ key && _) eqn:Hm; [| done].
    apply Huser in Hm. by apply elem_of_nil in Hm.
  - assert ((0 <? Z.of_nat (length (k :: ks))) = true) as -> by (apply Z.ltb_lt; simpl; lia).
    destruct (redis_Del_keys_lookup (k :: ks) r Hup) as ([n Hn] & Ht & He & Hk).
    destruct (redis_Del_keys (k :: ks) r) as [res r'] eqn:Hdel. cbn [fst snd] in *.
    subst res. cbn [fst snd]. split_and!; try done.
    intros key. rewrite Hk. destruct (stringmatch _ key && _) eqn:Hm.
    + apply Huser in Hm. by rewrite bool_decide_eq_true_2.
    + rewrite bool_decide_eq_false_2; [done |]. intros Hin. apply Huser in Hin. congruence.
Qed.

Lemma DeleteUserSessions_live (key : string) :
  redis_live (snd (RedisSessionStore_DeleteUserSessions s userID r)) key
  = if stringmatch (prefix s +:+ "*") key && holds_session_of userID r key
    then None else redis_live r key.
Proof.
  destruct DeleteUserSessions_lookup as (_ & Ht & _ & Hk).
  unfold redis_live at 1. rewrite Hk, Ht.
  by destruct (stringmatch _ key && _).
Qed.

End UserSessions.

(** X5. On a Redis that answers and whose pattern [prefix*] matches the
    keys of the store, [DeleteUserSessions] succeeds and [Get] afterwards
    answers "session not found" for each session of the user and what it
    answered before for every other id; no session of the user can be
    read any more. *)
Theorem DeleteUserSessions_removes_the_sessions_of_the_user
    {G : Glob} (s : RedisSessionStore) (userID : string) (r : Redis) :
  redis_err r = None →
  (∀ sessionID, stringmatch (prefix s +:+ "*") (getKey s sessionID) = true) →
  let d := RedisSessionStore_DeleteUserSessions s userID r in
  fst d = None
  ∧ (∀ sessionID,
       RedisSessionStore_Get s sessionID (snd d)
       = match RedisSessionStore_Get s sessionID r with
         | Ok session =>
             if String.eqb (Session_UserID session) userID
             then Err (errorString "session not found")
             else Ok session
         | Err err => Err err
         end)
  ∧ (∀ sessionID session,
       RedisSessionStore_Get s sessionID (snd d) = Ok session →
       Session_UserID session ≠ userID).
Proof.
  intros Hup Hglob d. subst d.
  destruct (DeleteUserSessions_lookup s userID r Hup) as (Hnone & Ht & He & Hk).
  assert (∀ sessionID,
            RedisSessionStore_Get s sessionID
              (snd (RedisSessionStore_DeleteUserSessions s userID r))
            = match RedisSessionStore_Get s sessionID r with
              | Ok session =>
                  if String.eqb (Session_UserID session) userID
                  then Err (errorString "session not found")
                  else Ok session
              | Err err => Err err
              end) as Hget.
  { intros sessionID.
    rewrite !RedisSessionStore_Get_live by congruence.
    rewrite (DeleteUserSessions_live s userID r Hup), Hglob.
    rewrite (holds_session_of_live _ _ _ Hup). cbn [andb].
    destruct (redis_live r (getKey s sessionID)) as [[[session | b] dl] |]; try done.
    by destruct (String.eqb (Session_UserID session) userID). }
  split_and!; try done.
  intros sessionID session. rewrite Hget.
  destruct (RedisSessionStore_Get s sessionID r) as [session' | err]; [| done].
  destruct (String.eqb_spec (Session_UserID session') userID); [done |].
  by intros [= <-].
Qed.

Lemma DeleteUserSessions_removes_the_sessions_of_the_user_witness :
  let r := snd (RedisSessionStore_DeleteUserSessions (G := demo_glob)
                  NewRedisSessionStore "user-id" demo_redis) in
  RedisSessionStore_Get NewRedisSessionStore "s1" r = Err (errorString "session not found")
  ∧ RedisSessionStore_Get NewRedisSessionStore "s3" r
    = Ok (demo_session_of "s3" "other-id").
Proof.
  destruct (DeleteUserSessions_removes_the_sessions_of_the_user (G := demo_glob)
              NewRedisSessionStore "user-id" demo_redis eq_refl (λ _, eq_refl))
    as (_ & Hget & _).
  split; [exact (Hget "s1") | exact (Hget "s3")].
Defined.

(** X6. After [DeleteUserSessions] on a Redis that answers,
    [CountUserSessions] of that user is 0, and [Count] has dropped by
    exactly what [CountUserSessions] answered before, which was at most
    [Count]. *)
Theorem CountUserSessions_after_DeleteUserSessions
    {G : Glob} (s : RedisSessionStore) (userID : string) (r : Redis) :
  redis_err r = None →
  let d := RedisSessionStore_DeleteUserSessions s userID r in
  RedisSessionStore_CountUserSessions s userID (snd d) = Ok 0
  ∧ (∃ total mine : nat,
       RedisSessionStore_Count s r = Ok (Z.of_nat total)
       ∧ RedisSessionStore_CountUserSessions s userID r = Ok (Z.of_nat mine)
       ∧ (mine ≤ total)%nat
       ∧ RedisSessionStore_Count s (snd d) = Ok (Z.of_nat (total - mine))).
Proof.
  intros Hup d. subst d.
  destruct (DeleteUserSessions_lookup s userID r Hup) as (Hnone & Ht & He & Hk).
  pose proof (DeleteUserSessions_live s userID r Hup) as Hlive.
  set (r' := snd (RedisSessionStore_DeleteUserSessions s userID r)) in *.
  assert (redis_err r' = None) as Hup' by congruence.
  unfold RedisSessionStore_CountUserSessions, RedisSessionStore_Count.
  destruct (redis_Keys_elem (prefix s +:+ "*") r "" Hup) as (keys & -> & Hnd & Hkeys).
  destruct (redis_Keys_elem (prefix s +:+ "*") r' "" Hup') as (keys' & -> & Hnd' & Hkeys').
  assert (∀ key, key ∈ keys' → holds_session_of userID r key = false
                               ∧ redis_keys r' !! key = redis_keys r !! key) as Hkept.
  { intros key [Hm [e Hl]]%Hkeys'. rewrite Hlive, Hm in Hl. cbn [andb] in Hl.
    rewrite Hk, Hm. cbn [andb]. by destruct (holds_session_of userID r key). }
  split.
  - rewrite List_filter_nil; [done |]. intros key Hin.
    destruct (Hkept key Hin) as [Hh Hsame].
    by rewrite (holds_session_of_ext userID r r' key Hsame Ht He).
  - exists (length keys), (length (List.filter (holds_session_of userID r) keys)).
    split_and!; try done.
    + apply List.filter_length_le.
    + do 2 f_equal.
      assert (keys' ≡ₚ List.filter (λ key, negb (holds_session_of userID r key)) keys)
        as ->.
      { apply NoDup_Permutation; [done | by apply NoDup_List_filter |].
        intros key. rewrite elem_of_List_filter, Hkeys, Hkeys', Hlive.
        destruct (stringmatch (prefix s +:+ "*") key); cbn [andb];
          [| split; [by intros [? _] | by intros [[? _] _]]].
        destruct (holds_session_of userID r key); cbn [negb].
        - split; [by intros [_ [? ?]] | by intros [_ ?]].
        - split; [by intros [? ?] | by intros [[? ?] _]]. }
      pose proof (List.filter_length (holds_session_of userID r) keys) as Hlen.
      lia.
Qed.

Lemma CountUserSessions_after_DeleteUserSessions_witness :
  RedisSessionStore_CountUserSessions (G := demo_glob) NewRedisSessionStore "user-id"
    (snd (RedisSessionStore_DeleteUserSessions (G := demo_glob)
            NewRedisSessionStore "user-id" demo_redis))
  = Ok 0.
Proof.
  exact (proj1 (CountUserSessions_after_DeleteUserSessions (G := demo_glob)
                  NewRedisSessionStore "user-id" demo_redis eq_refl)).
Defined.

(** ** The user repository: what is created is found, what is deleted is hidden *)


Lemma find_none {X : Type} (f : X → bool) (l : list X) :
  (∀ y, y ∈ l → f y = false) → List.find f l = None.
Proof.
  intros Hl. induction l as [| y l IH]; simpl; [done |].
  rewrite (Hl y) by left. apply IH. intros z Hz. apply Hl. by right.
Qed.





(** *** [UpdateOne] *)

Section UpdateFirst.
Context (filter : MongoUser → bool) (update : MongoUser → MongoUser).

Lemma update_first_None (docs : list MongoUser) :
  List.find filter docs = None → update_first filter update docs = None.
Proof.
  induction docs as [| d docs IH]; simpl; [done |].
  destruct (filter d); [done |]. intros H. by rewrite IH.
Qed.

Lemma update_first_split (docs : list MongoUser) (d : MongoUser) :
  List.find filter docs = Some d →
  ∃ l1 l2, docs = (l1 ++ d :: l2)%list
           ∧ (∀ x, x ∈ l1 → filter x = false)
           ∧ filter d = true
           ∧ update_first filter update docs = Some (l1 ++ update d :: l2)%list.
Proof.
  induction docs as [| x docs IH]; simpl; [done |].
  destruct (filter x) eqn:Hx.
  - intros [= ->]. exists [], docs. split_and!; try done.
    intros y Hy. by apply elem_of_nil in Hy.
  - intros Hfind. destruct (IH Hfind) as (l1 & l2 & -> & Hl1 & Hd & ->).
    exists (x :: l1), l2. split_and!; try done.
    intros y [-> | Hy]%elem_of_cons; [done | by apply Hl1].
Qed.

End UpdateFirst.

Lemma find_app_cons {X : Type} (g : X → bool) (l1 l2 : list X) (x : X) :
  List.find g (l1 ++ x :: l2)%list
  = match List.find g l1 with
    | Some y => Some y
    | None => if g x then Some x else List.find g l2
    end.
Proof. induction l1 as [| y l1 IH]; simpl; [done |]. by destruct (g y). Qed.

Lemma find_elem_of {X : Type} (g : X → bool) (l : list X) (x : X) :
  List.find g l = Some x → x ∈ l ∧ g x = true.
Proof. intros H%find_some. by rewrite list_elem_of_In. Qed.

Lemma NoDup_ID_middle (l1 l2 : list MongoUser) (d : MongoUser) :
  NoDup (List.map MongoUser_ID (l1 ++ d :: l2)%list) →
  ∀ x, x ∈ (l1 ++ l2)%list → MongoUser_ID x ≠ MongoUser_ID d.
Proof.
  rewrite map_app. simpl. intros Hnd x Hx Heq.
  apply NoDup_app in Hnd as (_ & Hdisj & [Hd _]%NoDup_cons).
  apply elem_of_app in Hx as [Hx | Hx].
  - apply (Hdisj (MongoUser_ID d)); [| by left].
    rewrite <- Heq. apply list_elem_of_fmap. by exists x.
  - apply Hd. rewrite <- Heq. apply list_elem_of_fmap. by exists x.
Qed.

Lemma by_id_true (id : string) (d : MongoUser) :
  by_id id d = true → MongoUser_ID d = id ∧ MongoUser_DeletedAt d = None.
Proof.
  unfold by_id, not_deleted. intros [Hid Hdel]%andb_true_iff.
  apply String.eqb_eq in Hid. by destruct (MongoUser_DeletedAt d).
Qed.

(** What [UpdateOne] by id does: on a live document of that id the
    collection is left with the document replaced; without one, or without
    the server, it is left as it was. *)
Lemma mongo_UpdateOne_by_id (id : string) (update : MongoUser → MongoUser) (m : Mongo) :
  NoDup (List.map MongoUser_ID (mongo_users m)) →
  (mongo_err m = None
   ∧ ∃ l1 d l2,
       mongo_users m = (l1 ++ d :: l2)%list
       ∧ MongoUser_ID d = id ∧ MongoUser_DeletedAt d = None
       ∧ (∀ x, x ∈ (l1 ++ l2)%list → MongoUser_ID x ≠ id)
       ∧ userRepository_GetByID id m = Ok (mongoUserToModel d)
       ∧ mongo_UpdateOne (by_id id) update m
         = (Ok 1, {| mongo_users := (l1 ++ update d :: l2)%list; mongo_err := None |}))
  ∨ (userRepository_GetByID id m = Err (errorString "user not found")
     ∧ mongo_UpdateOne (by_id id) update m = (Ok 0, m))
  ∨ (∃ err, mongo_err m = Some err
            ∧ (∃ e, userRepository_GetByID id m = Err e)
            ∧ mongo_UpdateOne (by_id id) update m = (Err err, m)).
Proof.
  intros Hnd. unfold mongo_UpdateOne, userRepository_GetByID, mongo_FindOne.
  destruct (mongo_err m) as [err |] eqn:Hup.
  { right. right. exists err. split_and!; try done.
    unfold found_user. destruct (is_sentinel err mongo_ErrNoDocuments); by eexists. }
  destruct (List.find (by_id id) (mongo_users m)) as [d |] eqn:Hfind.
  - left. split; [done |].
    destruct (update_first_split (by_id id) update _ d Hfind)
      as (l1 & l2 & Hdocs & Hl1 & Hd & ->).
    destruct (by_id_true id d Hd) as [Hid Hlive].
    exists l1, d, l2. split_and!; try done.
    rewrite Hdocs in Hnd. intros x Hx. rewrite <- Hid.
    by apply (NoDup_ID_middle l1 l2 d Hnd).
  - right. left. by rewrite (update_first_None _ _ _ Hfind).
Qed.

Lemma by_id_other (other : string) (d : MongoUser) :
  MongoUser_ID d ≠ other → by_id other d = false.
Proof. intros Hne%String.eqb_neq. unfold by_id. by rewrite Hne. Qed.

(** X8. In a collection whose ids are distinct, [Delete] succeeds exactly
    when [GetByID] finds the user, and a failed [Delete] changes nothing.
    After a successful one the user is hidden: [GetByID], a second
    [Delete], [UpdateImage] and [UpdatePassword] answer "user not found";
    users of other ids are found as before, and the documents keep their
    usernames, that of the deleted user included. *)
Theorem Delete_hides_the_user (deletedAt updatedAt : Time) (id : string) (m : Mongo) :
  NoDup (List.map MongoUser_ID (mongo_users m)) →
  let d := userRepository_Delete deletedAt updatedAt id m in
  (fst d = None ↔ ∃ user, userRepository_GetByID id m = Ok user)
  ∧ (fst d ≠ None → snd d = m)
  ∧ (fst d = None →
       userRepository_GetByID id (snd d) = Err (errorString "user not found")
       ∧ (∀ t1 t2, userRepository_Delete t1 t2 id (snd d)
                   = (Some (errorString "user not found"), snd d))
       ∧ (∀ now imageURL, userRepository_UpdateImage now id imageURL (snd d)
                          = (Some (errorString "user not found"), snd d))
       ∧ (∀ now hashedPassword,
            userRepository_UpdatePassword now id hashedPassword (snd d)
            = (Some (errorString "user not found"), snd d))
       ∧ (∀ other, other ≠ id →
            userRepository_GetByID other (snd d) = userRepository_GetByID other m)
       ∧ List.map MongoUser_Username (mongo_users (snd d))
         = List.map MongoUser_Username (mongo_users m)).
Proof.
  intros Hnd d. subst d. unfold userRepository_Delete.
  match goal with |- context [mongo_UpdateOne _ ?u m] => set (update := u) end.
  destruct (mongo_UpdateOne_by_id id update m Hnd)
    as [(Hup & l1 & doc & l2 & Hdocs & Hid & Hlive & Hother & Hget & ->)
       | [(Hget & ->) | (err & Hup & [e Hget] & ->)]].
  - cbn [Z.eqb fst snd]. split; [split; eauto |]. split; [done |]. intros _.
    assert (List.find (by_id id) (l1 ++ update doc :: l2)%list = None) as Hgone.
    { apply find_none. intros x [Hx | [-> | Hx]%elem_of_cons]%elem_of_app.
      - apply by_id_other, Hother, elem_of_app. by left.
      - unfold by_id, not_deleted. cbn. by rewrite andb_false_r.
      - apply by_id_other, Hother, elem_of_app. by right. }
    assert (∀ u', mongo_UpdateOne (by_id id) u'
                    {| mongo_users := (l1 ++ update doc :: l2)%list; mongo_err := None |}
                  = (Ok 0, {| mongo_users := (l1 ++ update doc :: l2)%list;
                              mongo_err := None |})) as Hnone.
    { intros u'. unfold mongo_UpdateOne. cbn [mongo_err mongo_users].
      by rewrite (update_first_None _ _ _ Hgone). }
    split_and!.
    + unfold userRepository_GetByID, mongo_FindOne. cbn [mongo_err mongo_users].
      by rewrite Hgone.
    + intros t1 t2. unfold userRepository_Delete. by rewrite Hnone.
    + intros now imageURL. unfold userRepository_UpdateImage. by rewrite Hnone.
    + intros now hashedPassword. unfold userRepository_UpdatePassword. by rewrite Hnone.
    + intros other Hne. unfold userRepository_GetByID, mongo_FindOne.
      cbn [mongo_err mongo_users]. rewrite Hup, Hdocs, !find_app_cons.
      rewrite (by_id_other other doc) by congruence.
      rewrite (by_id_other other (update doc)) by (cbn; congruence). done.
    + cbn [mongo_users]. rewrite Hdocs, !map_app. done.
  - cbn [Z.eqb fst snd]. split; [| done]. split; [done |].
    intros [user Huser]. congruence.
  - cbn [fst snd]. split; [| done]. split; [done |].
    intros [user Huser]. congruence.
Qed.

Lemma Delete_hides_the_user_witness :
  let m' := mongo demo_alice_deleted in
  userRepository_GetByID "01HALICE" m' = Err (errorString "user not found")
  ∧ length (mongo_users m') = 1%nat.
Proof.
  intros m'.
  destruct (Delete_hides_the_user (1700000000 * time_Second) (1700000000 * time_Second)
              "01HALICE" (mongo demo_start)) as (_ & _ & Hdeleted).
  - apply NoDup_singleton.
  - destruct (Hdeleted eq_refl) as (Hget & _). split; [exact Hget | reflexivity].
Defined.

Section UpdateKeeps.
Context (id : string) (update : MongoUser → MongoUser) (l1 l2 : list MongoUser)
  (d : MongoUser).
Hypothesis Hid : MongoUser_ID d = id.
Hypothesis Hother : ∀ x, x ∈ (l1 ++ l2)%list → MongoUser_ID x ≠ id.

Lemma find_updated (g : MongoUser → bool) :
  (∀ x, g (update x) = g x) →
  List.find g (l1 ++ update d :: l2)%list
  = match List.find g (l1 ++ d :: l2)%list with
    | Some x => Some (if String.eqb (MongoUser_ID x) id then update x else x)
    | None => None
    end.
Proof.
  intros Hg. rewrite !find_app_cons.
  destruct (List.find g l1) as [x |] eqn:H1.
  - apply find_elem_of in H1 as [Hx _].
    assert (MongoUser_ID x ≠ id) as Hne%String.eqb_neq
      by (apply Hother, elem_of_app; by left).
    by rewrite Hne.
  - rewrite Hg. destruct (g d).
    + by rewrite Hid, String.eqb_refl.
    + destruct (List.find g l2) as [x |] eqn:H2; [| done].
      apply find_elem_of in H2 as [Hx _].
      assert (MongoUser_ID x ≠ id) as Hne%String.eqb_neq
        by (apply Hother, elem_of_app; by right).
      by rewrite Hne.
Qed.

Lemma count_updated (g : MongoUser → bool) :
  (∀ x, g (update x) = g x) →
  length (List.filter g (l1 ++ update d :: l2)%list)
  = length (List.filter g (l1 ++ d :: l2)%list).
Proof.
  intros Hg. rewrite !List.filter_app, !length_app. simpl. rewrite Hg.
  by destruct (g d).
Qed.

End UpdateKeeps.

(** The lookups of the repository after an update by id that keeps the
    id, the username, the email and the deletion mark of a document. *)
Lemma lookups_after_update (id : string) (update : MongoUser → MongoUser)
    (changed : User → User) (m : Mongo) :
  NoDup (List.map MongoUser_ID (mongo_users m)) →
  (∀ x, MongoUser_ID (update x) = MongoUser_ID x
        ∧ MongoUser_Username (update x) = MongoUser_Username x
        ∧ MongoUser_Email (update x) = MongoUser_Email x
        ∧ MongoUser_DeletedAt (update x) = MongoUser_DeletedAt x) →
  (∀ x, mongoUserToModel (update x) = changed (mongoUserToModel x)) →
  let u := mongo_UpdateOne (by_id id) update m in
  let after (lookup : result User) : result User :=
    match lookup with
    | Ok user => Ok (if String.eqb (User_ID user) id then changed user else user)
    | Err err => Err err
    end in
  (fst u = Ok 1 ∧ (∃ user, userRepository_GetByID id m = Ok user)
   ∧ (∀ key, userRepository_GetByID key (snd u) = after (userRepository_GetByID key m))
   ∧ (∀ key, userRepository_GetByUsername key (snd u)
             = after (userRepository_GetByUsername key m))
   ∧ (∀ key, userRepository_GetByEmail key (snd u)
             = after (userRepository_GetByEmail key m))
   ∧ (∀ key, userRepository_ExistsByUsername key (snd u)
             = userRepository_ExistsByUsername key m)
   ∧ (∀ key, userRepository_ExistsByEmail key (snd u)
             = userRepository_ExistsByEmail key m))
  ∨ (fst u = Ok 0 ∧ snd u = m
     ∧ userRepository_GetByID id m = Err (errorString "user not found"))
  ∨ (∃ err e, fst u = Err err ∧ snd u = m ∧ mongo_err m = Some err
              ∧ userRepository_GetByID id m = Err e).
Proof.
  intros Hnd Hkeeps Hmodel u after. subst u.
  destruct (mongo_UpdateOne_by_id id update m Hnd)
    as [(Hup & l1 & doc & l2 & Hdocs & Hid & Hlive & Hother & Hget & ->)
       | [(Hget & ->) | (err & Hup & [e Hget] & ->)]];
    [left | right; left; by split_and! | right; right; exists err, e; by split_and!].
  cbn [fst snd].
  assert (∀ g, (∀ x, g (update x) = g x) →
               found_user (mongo_FindOne g {| mongo_users := (l1 ++ update doc :: l2)%list;
                                              mongo_err := None |})
               = after (found_user (mongo_FindOne g m))) as Hfind.
  { intros g Hg. unfold mongo_FindOne. cbn [mongo_err mongo_users]. rewrite Hup, Hdocs.
    rewrite (find_updated id update l1 l2 doc Hid Hother g Hg).
    destruct (List.find g (l1 ++ doc :: l2)%list) as [x |]; [| done].
    unfold found_user, after. cbn [User_ID mongoUserToModel].
    destruct (String.eqb (MongoUser_ID x) id); by rewrite ?Hmodel. }
  assert (∀ g, (∀ x, g (update x) = g x) →
               counted (mongo_CountDocuments g
                          {| mongo_users := (l1 ++ update doc :: l2)%list;
                             mongo_err := None |})
               = counted (mongo_CountDocuments g m)) as Hcount.
  { intros g Hg. unfold mongo_CountDocuments. cbn [mongo_err mongo_users].
    by rewrite Hup, Hdocs, (count_updated update l1 l2 doc g Hg). }
  assert (∀ key x, by_id key (update x) = by_id key x) as Hby_id.
  { intros key x. destruct (Hkeeps x) as (H1 & _ & _ & H4).
    unfold by_id, not_deleted. by rewrite H1, H4. }
  assert (∀ key x, by_username key (update x) = by_username key x) as Hby_username.
  { intros key x. destruct (Hkeeps x) as (_ & H2 & _ & H4).
    unfold by_username, not_deleted. by rewrite H2, H4. }
  assert (∀ key x, by_email key (update x) = by_email key x) as Hby_email.
  { intros key x. destruct (Hkeeps x) as (_ & _ & H3 & H4).
    unfold by_email, not_deleted. by rewrite H3, H4. }
  split_and!; try done; try by eexists.
  - intros key. by apply Hfind.
  - intros key. by apply Hfind.
  - intros key. unfold userRepository_GetByEmail.
    destruct (String.eqb key ""); [done |]. by apply Hfind.
  - intros key. by apply Hcount.
  - intros key. unfold userRepository_ExistsByEmail.
    destruct (String.eqb key ""); [done |]. by apply Hcount.
Qed.

(** X9. In a collection whose ids are distinct, [UpdatePassword] succeeds
    exactly when [GetByID] finds the user; on a repository that answers it
    fails with "user not found" when [GetByID] does, and a failure changes
    nothing.  After a success every lookup answers as before, except that
    the user of that id now carries the new hash and the instant of the
    update; what exists by username or email is unchanged. *)
Theorem UpdatePassword_changes_only_the_hash (now : Time) (id hashedPassword : string)
    (m : Mongo) :
  NoDup (List.map MongoUser_ID (mongo_users m)) →
  let u := userRepository_UpdatePassword now id hashedPassword m in
  let after (lookup : result User) : result User :=
    match lookup with
    | Ok user =>
        Ok (if String.eqb (User_ID user) id
            then {| User_ID := User_ID user;
                    User_Username := User_Username user;
                    User_Password := hashedPassword;
                    User_Email := User_Email user;
                    User_Image := User_Image user;
                    User_CreatedAt := User_CreatedAt user;
                    User_UpdatedAt := now |}
            else user)
    | Err err => Err err
    end in
  (fst u = None ↔ ∃ user, userRepository_GetByID id m = Ok user)
  ∧ (mongo_err m = None →
     userRepository_GetByID id m = Err (errorString "user not found") →
     u = (Some (errorString "user not found"), m))
  ∧ (fst u ≠ None → snd u = m)
  ∧ (fst u = None →
       (∀ key, userRepository_GetByID key (snd u) = after (userRepository_GetByID key m))
       ∧ (∀ key, userRepository_GetByUsername key (snd u)
                 = after (userRepository_GetByUsername key m))
       ∧ (∀ key, userRepository_GetByEmail key (snd u)
                 = after (userRepository_GetByEmail key m))
       ∧ (∀ key, userRepository_ExistsByUsername key (snd u)
                 = userRepository_ExistsByUsername key m)
       ∧ (∀ key, userRepository_ExistsByEmail key (snd u)
                 = userRepository_ExistsByEmail key m)).
Proof.
  intros Hnd u after. subst u. unfold userRepository_UpdatePassword.
  match goal with |- context [mongo_UpdateOne _ ?f m] => set (update := f) end.
  destruct (lookups_after_update id update
              (λ user, {| User_ID := User_ID user;
                          User_Username := User_Username user;
                          User_Password := hashedPassword;
                          User_Email := User_Email user;
                          User_Image := User_Image user;
                          User_CreatedAt := User_CreatedAt user;
                          User_UpdatedAt := now |}) m Hnd)
    as [(Hres & Hfound & Hlookups) | [(Hres & Hsame & Hget) | (err & e & Hres & Hsame & Hup & Hget)]];
    try done;
    destruct (mongo_UpdateOne (by_id id) update m) as [res m'];
    cbn [fst snd] in Hres, Hsame || cbn [fst snd] in Hres; subst res; cbn [Z.eqb fst snd].
  - split; [done |]. split; [destruct Hfound; congruence |]. split; [done |].
    intros _. exact Hlookups.
  - subst m'. split; [split; [done | intros [? ?]; congruence] |]. done.
  - subst m'. split; [split; [done | intros [? ?]; congruence] |].
    split; [congruence |]. done.
Qed.

Lemma UpdatePassword_changes_only_the_hash_witness :
  let u := userRepository_UpdatePassword (1700000000 * time_Second) "01HALICE"
             "$2a$new-password" (mongo demo_start) in
  ∃ user, userRepository_GetByUsername "alice" (snd u) = Ok user
          ∧ User_Password user = "$2a$new-password"
          ∧ User_Email user = "alice@example.com".
Proof.
  intros u.
  destruct (UpdatePassword_changes_only_the_hash (1700000000 * time_Second) "01HALICE"
              "$2a$new-password" (mongo demo_start)) as (_ & _ & _ & Hupdated).
  - apply NoDup_singleton.
  - destruct (Hupdated eq_refl) as (_ & Hname & _).
    eexists. split; [exact (Hname "alice") | split; reflexivity].
Defined.

(** ** The handlers, by what the service answers *)

Section HandlerSteps.
Context {L : Lib} {W : Type} (h : Handler W) (s : AuthService).

Lemma AuthHandler_Register_exec (req : RegisterRequest)
    (validator_Struct : RegisterRequest → option error) (w : W) :
  validator_Struct req = None →
  let o := exec h (Register s req) w in
  exec h (AuthHandler_Register s (Ok req) validator_Struct) w
  = {| value :=
         match value o with
         | Err err =>
             if String.eqb (Error err) "username already exists"
                || String.eqb (Error err) "email already exists"
             then Status_Map fiber_StatusConflict
                    (fiber_Map [("error", "Conflict"); ("message", Error err)])
             else Status_Map fiber_StatusInternalServerError
                    (fiber_Map [("error", "Internal Server Error");
                                ("message", "Failed to register user")])
         | Ok response => Status_JSON fiber_StatusCreated response
         end;
       world := world o;
       trace := trace o |}.
Proof.
  intros Hv o. subst o. unfold AuthHandler_Register. rewrite Hv, exec_bind.
  destruct (value (exec h (Register s req) w)) as [response | err].
  - rewrite exec_ret. cbn [value world trace]. by rewrite app_nil_r.
  - destruct (String.eqb (Error err) "username already exists"
              || String.eqb (Error err) "email already exists");
      rewrite exec_ret; cbn [value world trace]; by rewrite app_nil_r.
Qed.

Lemma AuthHandler_Login_exec (req : LoginRequest)
    (validator_Struct : LoginRequest → option error) (w : W) :
  validator_Struct req = None →
  let o := exec h (Login s req) w in
  exec h (AuthHandler_Login s (Ok req) validator_Struct) w
  = {| value :=
         match value o with
         | Err err =>
             if String.eqb (Error err) "invalid credentials"
             then Status_Map fiber_StatusUnauthorized
                    (fiber_Map [("error", "Unauthorized");
                                ("message", "Invalid credentials")])
             else Status_Map fiber_StatusInternalServerError
                    (fiber_Map [("error", "Internal Server Error");
                                ("message", "Failed to login user")])
         | Ok response => Status_JSON fiber_StatusOK response
         end;
       world := world o;
       trace := trace o |}.
Proof.
  intros Hv o. subst o. unfold AuthHandler_Login. rewrite Hv, exec_bind.
  destruct (value (exec h (Login s req) w)) as [response | err].
  - rewrite exec_ret. cbn [value world trace]. by rewrite app_nil_r.
  - destruct (String.eqb (Error err) "invalid credentials");
      rewrite exec_ret; cbn [value world trace]; by rewrite app_nil_r.
Qed.

Lemma AuthHandler_LoginByEmail_exec (req : LoginByEmailRequest)
    (validator_Struct : LoginByEmailRequest → option error) (w : W) :
  validator_Struct req = None →
  let o := exec h (LoginByEmail s req) w in
  exec h (AuthHandler_LoginByEmail s (Ok req) validator_Struct) w
  = {| value :=
         match value o with
         | Err err =>
             if String.eqb (Error err) "invalid credentials"
             then Status_Map fiber_StatusUnauthorized
                    (fiber_Map [("error", "Unauthorized");
                                ("message", "Invalid credentials")])
             else Status_Map fiber_StatusInternalServerError
                    (fiber_Map [("error", "Internal Server Error");
                                ("message", "Failed to login user")])
         | Ok response => Status_JSON fiber_StatusOK response
         end;
       world := world o;
       trace := trace o |}.
Proof.
  intros Hv o. subst o. unfold AuthHandler_LoginByEmail. rewrite Hv, exec_bind.
  destruct (value (exec h (LoginByEmail s req) w)) as [response | err].
  - rewrite exec_ret. cbn [value world trace]. by rewrite app_nil_r.
  - destruct (String.eqb (Error err) "invalid credentials");
      rewrite exec_ret; cbn [value world trace]; by rewrite app_nil_r.
Qed.

Lemma AuthHandler_RefreshToken_exec (req : RefreshTokenRequest)
    (validator_Struct : RefreshTokenRequest → option error) (w : W) :
  validator_Struct req = None →
  let o := exec h (RefreshToken s req) w in
  exec h (AuthHandler_RefreshToken s (Ok req) validator_Struct) w
  = {| value :=
         match value o with
         | Err err =>
             if String.eqb (Error err) "invalid refresh token"
                || String.eqb (Error err) "invalid session"
                || String.eqb (Error err) "session expired"
             then Status_Map fiber_StatusUnauthorized
                    (fiber_Map [("error", "Unauthorized"); ("message", Error err)])
             else Status_Map fiber_StatusInternalServerError
                    (fiber_Map [("error", "Internal Server Error");
                                ("message", "Failed to refresh token")])
         | Ok response => Status_JSON fiber_StatusOK response
         end;
       world := world o;
       trace := trace o |}.
Proof.
  intros Hv o. subst o. unfold AuthHandler_RefreshToken. rewrite Hv, exec_bind.
  destruct (value (exec h (RefreshToken s req) w)) as [response | err].
  - rewrite exec_ret. cbn [value world trace]. by rewrite app_nil_r.
  - destruct (String.eqb (Error err) "invalid refresh token"
              || String.eqb (Error err) "invalid session"
              || String.eqb (Error err) "session expired");
      rewrite exec_ret; cbn [value world trace]; by rewrite app_nil_r.
Qed.

End HandlerSteps.



(** ** The Authorization header *)

Lemma substring_all (t : string) : String.substring 0 (String.length t) t = t.
Proof. induction t as [| c t IH]; simpl; by rewrite ?IH. Qed.

Lemma substring_skip (p t : string) (n : nat) :
  String.substring (String.length p) n (p +:+ t) = String.substring 0 n t.
Proof. induction p as [| c p IH]; simpl; [done |]. apply IH. Qed.

Lemma substring_prefix (p t : string) :
  String.substring 0 (String.length p) (p +:+ t) = p.
Proof.
  induction p as [| c p IH]; [by destruct t |].
  change (String c p +:+ t) with (String c (p +:+ t)). cbn [String.length String.substring].
  by rewrite IH.
Qed.

Lemma length_append (p t : string) :
  String.length (p +:+ t) = (String.length p + String.length t)%nat.
Proof. induction p as [| c p IH]; simpl; by rewrite ?IH. Qed.

Lemma strings_HasPrefix_app (p t : string) : strings_HasPrefix (p +:+ t) p = true.
Proof.
  unfold strings_HasPrefix. induction p as [| c p IH]; [by destruct t |].
  change (String c p +:+ t) with (String c (p +:+ t)). cbn [String.prefix].
  by destruct (ascii_dec c c).
Qed.

Lemma strings_HasPrefix_inv (s p : string) :
  strings_HasPrefix s p = true → ∃ t, s = p +:+ t.
Proof.
  unfold strings_HasPrefix. revert s. induction p as [| c p IH]; intros s.
  - intros _. by exists s.
  - destruct s as [| b s]; [done |]. cbn [String.prefix].
    destruct (ascii_dec c b) as [-> |]; [| done].
    intros [t ->]%IH. by exists t.
Qed.

Lemma substring_rest (p t : string) :
  String.substring (String.length p) (String.length (p +:+ t) - String.length p) (p +:+ t)
  = t.
Proof.
  rewrite substring_skip, length_append.
  replace (String.length p + String.length t - String.length p)%nat
    with (String.length t) by lia.
  apply substring_all.
Qed.

Lemma strings_TrimPrefix_app (p t : string) : strings_TrimPrefix (p +:+ t) p = t.
Proof.
  unfold strings_TrimPrefix. rewrite strings_HasPrefix_app. apply substring_rest.
Qed.

(** The test of [ExtractTokenFromHeader] for the prefix is that of
    [strings.HasPrefix]. *)
Lemma bearerPrefix_test (authHeader : string) :
  (String.length authHeader <? String.length "Bearer ")%nat
  || negb (String.eqb (String.substring 0 (String.length "Bearer ") authHeader)
             "Bearer ")
  = negb (strings_HasPrefix authHeader "Bearer ").
Proof.
  destruct (strings_HasPrefix authHeader "Bearer ") eqn:Hp.
  - destruct (strings_HasPrefix_inv _ _ Hp) as [t ->].
    rewrite length_append, substring_prefix, String.eqb_refl.
    replace (String.length "Bearer " + String.length t <? String.length "Bearer ")%nat
      with false; [done |].
    symmetry. apply Nat.ltb_ge. lia.
  - destruct (String.eqb_spec (String.substring 0 (String.length "Bearer ") authHeader)
                "Bearer ") as [Heq | Hne]; [| by rewrite orb_true_r].
    apply String.prefix_correct in Heq. unfold strings_HasPrefix in Hp. congruence.
Qed.

Section MiddlewareSteps.
Context {L : Lib} {W A : Type} (h : Handler W) (s : AuthService).

(** Every header is of one of four kinds. *)
Lemma Authorization_cases (authHeader : string) :
  authHeader = ""
  ∨ (authHeader ≠ "" ∧ strings_HasPrefix authHeader "Bearer " = false)
  ∨ authHeader = "Bearer "
  ∨ (∃ token, token ≠ "" ∧ authHeader = "Bearer " +:+ token).
Proof.
  destruct (String.eqb_spec authHeader "") as [-> | Hne]; [by left |].
  destruct (strings_HasPrefix authHeader "Bearer ") eqn:Hp; [| right; by left].
  destruct (strings_HasPrefix_inv _ _ Hp) as [t ->].
  destruct t as [| c t]; [right; right; by left |].
  right. right. right. by exists (String c t).
Qed.

Lemma AuthMiddleware_exec (c : Ctx) (token : string) (w : W) :
  token ≠ "" → Ctx_Authorization c = "Bearer " +:+ token →
  let o := exec h (ValidateAccessToken s token) w in
  exec h (AuthMiddleware (A := A) s c) w
  = {| value :=
         match value o with
         | Err _ =>
             Status_Map fiber_StatusUnauthorized
               (fiber_Map [("error", "Unauthorized"); ("message", "Invalid token")])
         | Ok claims =>
             Next (Locals (Locals (Locals c "userID" (Claims_UserID claims))
                             "username" (Claims_Username claims))
                     "sessionID" (Claims_SessionID claims))
         end;
       world := world o;
       trace := trace o |}.
Proof.
  intros Hne Hhd o. subst o. unfold AuthMiddleware. rewrite Hhd.
  rewrite strings_HasPrefix_app, strings_TrimPrefix_app.
  apply String.eqb_neq in Hne. rewrite Hne. cbn [String.eqb Ascii.eqb negb].
  change (("Bearer " +:+ token =? "")%string) with false. cbv iota.
  rewrite exec_bind.
  destruct (value (exec h (ValidateAccessToken s token) w)) as [claims | err];
    rewrite exec_ret; cbn [value world trace]; by rewrite app_nil_r.
Qed.

Lemma AuthMiddleware_rejects (c : Ctx) (w : W) :
  (∀ token, token ≠ "" → Ctx_Authorization c ≠ "Bearer " +:+ token) →
  ∃ message,
    (message = "Missing authorization header"
     ∨ message = "Invalid authorization header format"
     ∨ message = "Empty token")
    ∧ exec h (AuthMiddleware (A := A) s c) w
      = {| value := Status_Map fiber_StatusUnauthorized
                      (fiber_Map [("error", "Unauthorized"); ("message", message)]);
           world := w; trace := [] |}.
Proof.
  intros Hnot. unfold AuthMiddleware.
  destruct (Authorization_cases (Ctx_Authorization c))
    as [-> | [[Hne Hp] | [-> | (token & Hne & Heq)]]].
  - eexists. split; [by left | done].
  - apply String.eqb_neq in Hne. rewrite Hne, Hp. eexists.
    split; [right; by left | done].
  - eexists. split; [right; by right | done].
  - by destruct (Hnot token Hne).
Qed.

Lemma OptionalAuthMiddleware_exec (c : Ctx) (w : W) :
  let o := exec h (AuthMiddleware (A := A) s c) w in
  exec h (OptionalAuthMiddleware (A := A) s c) w
  = {| value := match value o with
                | Next c' => Next c'
                | _ => Next c
                end;
       world := world o;
       trace := trace o |}.
Proof.
  intros o. subst o. unfold OptionalAuthMiddleware, AuthMiddleware.
  destruct (String.eqb (Ctx_Authorization c) ""); [done |].
  destruct (strings_HasPrefix (Ctx_Authorization c) "Bearer "); [| done].
  cbn [negb]. destruct (String.eqb (strings_TrimPrefix _ _) ""); [done |].
  rewrite !exec_bind.
  by destruct (value (exec h (ValidateAccessToken s _) w)).
Qed.

End MiddlewareSteps.

Lemma GetUserID_Locals (c : Ctx) (userID username sessionID : string) :
  let c' := Locals (Locals (Locals c "userID" userID) "username" username)
              "sessionID" sessionID in
  GetUserID c' = userID ∧ GetUsername c' = username ∧ GetSessionID c' = sessionID
  ∧ Ctx_Authorization c' = Ctx_Authorization c
  ∧ (∀ key, key ≠ "userID" → key ≠ "username" → key ≠ "sessionID" →
            Ctx_Locals c' !! key = Ctx_Locals c !! key).
Proof.
  intros c'. subst c'. unfold GetUserID, GetUsername, GetSessionID, Locals.
  cbn [Ctx_Locals Ctx_Authorization]. split_and!.
  - rewrite !lookup_insert_ne by done. by rewrite lookup_insert_eq.
  - rewrite lookup_insert_ne by done. by rewrite lookup_insert_eq.
  - by rewrite lookup_insert_eq.
  - done.
  - intros key H1 H2 H3. by rewrite !lookup_insert_ne.
Qed.

(** X11. [ExtractTokenFromHeader] returns a token exactly for the headers
    ["Bearer " ++ token] with a non-empty token, and the middleware reads
    the header the same way: where the function fails the middleware
    answers 401 without reading the clock, and where it returns a token
    the middleware answers as [ValidateAccessToken] decides on that
    token. *)
Theorem ExtractTokenFromHeader_agrees_with_AuthMiddleware
    {L : Lib} {W A : Type} (h : Handler W) (s : AuthService) (c : Ctx) (w : W) :
  let authHeader := Ctx_Authorization c in
  (∀ token, ExtractTokenFromHeader authHeader = Ok token
            ↔ authHeader = "Bearer " +:+ token ∧ token ≠ "")
  ∧ (∀ err, ExtractTokenFromHeader authHeader = Err err →
       ∃ message,
         exec h (AuthMiddleware (A := A) s c) w
         = {| value := Status_Map 401 (fiber_Map [("error", "Unauthorized");
                                                  ("message", message)]);
              world := w; trace := [] |})
  ∧ (∀ token, ExtractTokenFromHeader authHeader = Ok token →
       value (exec h (AuthMiddleware (A := A) s c) w)
       = match value (exec h (ValidateAccessToken s token) w) with
         | Err _ => Status_Map 401 (fiber_Map [("error", "Unauthorized");
                                               ("message", "Invalid token")])
         | Ok claims =>
             Next (Locals (Locals (Locals c "userID" (Claims_UserID claims))
                             "username" (Claims_Username claims))
                     "sessionID" (Claims_SessionID claims))
         end).
Proof.
  intros authHeader. subst authHeader.
  assert (∀ token, ExtractTokenFromHeader (Ctx_Authorization c) = Ok token
                   ↔ Ctx_Authorization c = "Bearer " +:+ token ∧ token ≠ "") as Hiff.
  { intros token. unfold ExtractTokenFromHeader. rewrite bearerPrefix_test.
    destruct (Authorization_cases (Ctx_Authorization c))
      as [-> | [[Hne Hp] | [-> | (t & Hne & ->)]]].
    - split; [done |]. by intros [? _].
    - apply String.eqb_neq in Hne. rewrite Hne, Hp. cbn [negb]. split; [done |].
      intros [Heq _]. rewrite Heq, strings_HasPrefix_app in Hp. done.
    - split; [done |]. intros [Heq Hne]. destruct token; [done |]. discriminate Heq.
    - rewrite strings_HasPrefix_app. cbn [negb].
      rewrite substring_rest.
      apply String.eqb_neq in Hne as Hne'. rewrite Hne'.
      change (("Bearer " +:+ t =? "")%string) with false. cbv iota. split.
      + by intros [= ->].
      + intros [Heq%String.app_inj _]. by rewrite Heq. }
  split_and!; [exact Hiff | |].
  - intros err Herr.
    destruct (AuthMiddleware_rejects (A := A) h s c w) as (message & _ & Hrej);
      [| by exists message].
    intros token Hne Heq.
    assert (ExtractTokenFromHeader (Ctx_Authorization c) = Ok token) as Hok
      by (by apply Hiff).
    congruence.
  - intros token [Heq Hne]%Hiff.
    by rewrite (AuthMiddleware_exec h s c token w Hne Heq).
Qed.

(** ** The middleware *)

Section Clock.
Context {L : Lib} {W W' : Type} (h : Handler W) (h' : Handler W') (s : AuthService).

(** What [jwt.Parse] answers depends on the world by the reading of the
    clock only. *)
Lemma Parse_clock (tokenString : string) (kf : jwt.Token → result string) (w : W) (w' : W') :
  fst (h _ time_Now w) = fst (h' _ time_Now w') →
  value (exec h (jwt.Parse tokenString kf) w) = value (exec h' (jwt.Parse tokenString kf) w').
Proof.
  intros Hclock. unfold jwt.Parse.
  destruct (SplitToken tokenString) as [parts |]; [| done].
  destruct (seg_Header parts !! "alg") as [[| | | alg] |]; try done.
  destruct (jwt.GetSigningMethod alg) as [method |]; [| done].
  destruct (DecodeSegment (seg_signature parts)) as [sig |]; [| done].
  cbv zeta. destruct (kf _) as [key | err]; [| done].
  destruct (jwt.Verify method (seg_text parts) sig key); [done |].
  rewrite !exec_call_bind. cbn [value]. rewrite Hclock.
  by destruct (jwt.Validate (seg_Claims parts) (fst (h' _ time_Now w'))).
Qed.

Lemma validateToken_clock (tokenString expectedType : string) (w : W) (w' : W') :
  fst (h _ time_Now w) = fst (h' _ time_Now w') →
  value (exec h (validateToken s tokenString expectedType) w)
  = value (exec h' (validateToken s tokenString expectedType) w').
Proof.
  intros Hclock. unfold validateToken. rewrite !exec_bind. cbn [value].
  rewrite (Parse_clock tokenString (keyFunc s) w w' Hclock).
  destruct (value (exec h' (jwt.Parse tokenString (keyFunc s)) w')) as [token | err];
    [| done].
  destruct (negb (jwt.Token_Valid token)); [done |].
  destruct (jwt.Token_Claims token !! "type") as [[| | | ty] |]; try done.
  destruct (negb (String.eqb ty expectedType)); [done |].
  cbv zeta. by destruct (_ || _).
Qed.

End Clock.

Section MiddlewareReplies.
Context {L : Lib} {W A : Type} (h : Handler W) (s : AuthService).

Lemma AuthMiddleware_replies (c : Ctx) (w : W) :
  (∃ message,
     (message = "Missing authorization header"
      ∨ message = "Invalid authorization header format"
      ∨ message = "Empty token")
     ∧ exec h (AuthMiddleware (A := A) s c) w
       = {| value := Status_Map fiber_StatusUnauthorized
                       (fiber_Map [("error", "Unauthorized"); ("message", message)]);
            world := w; trace := [] |})
  ∨ (∃ token, token ≠ "" ∧ Ctx_Authorization c = "Bearer " +:+ token).
Proof.
  destruct (Authorization_cases (Ctx_Authorization c))
    as [Hhd | [[Hne Hp] | [Hhd | (token & Hne & Hhd)]]]; [left | left | left | right].
  - apply AuthMiddleware_rejects. intros token _ Heq. rewrite Hhd in Heq. discriminate Heq.
  - apply AuthMiddleware_rejects. intros token _ Heq.
    rewrite Heq, strings_HasPrefix_app in Hp. discriminate Hp.
  - apply AuthMiddleware_rejects. intros token Hne Heq. rewrite Hhd in Heq.
    change "Bearer " with ("Bearer " +:+ "") in Heq at 1.
    apply String.app_inj in Heq. by destruct Hne.
  - by exists token.
Qed.

Lemma AuthMiddleware_Next_inv (c c' : Ctx) (w : W) :
  value (exec h (AuthMiddleware (A := A) s c) w) = Next c' →
  ∃ token claims,
    token ≠ "" ∧ Ctx_Authorization c = "Bearer " +:+ token
    ∧ value (exec h (ValidateAccessToken s token) w) = Ok claims
    ∧ Claims_UserID claims ≠ "" ∧ Claims_Username claims ≠ ""
    ∧ Claims_SessionID claims ≠ ""
    ∧ c' = Locals (Locals (Locals c "userID" (Claims_UserID claims))
                     "username" (Claims_Username claims))
             "sessionID" (Claims_SessionID claims).
Proof.
  destruct (AuthMiddleware_replies c w) as [(message & Hmsg & ->) | (token & Hne & Hhd)]; [done |].
  rewrite (AuthMiddleware_exec h s c token w Hne Hhd). cbv zeta. cbn [value].
  destruct (value (exec h (ValidateAccessToken s token) w)) as [claims |] eqn:Hvalid;
    [| done].
  intros [= <-].
  destruct (validateToken_ok_inv h s token TokenTypeAccess w claims Hvalid)
    as (tok & _ & _ & _ & Hid & Hname & Hsid).
  by exists token, claims.
Qed.

End MiddlewareReplies.

(** X12. [AuthMiddleware] hands a request on only with a valid access
    token: the header is ["Bearer " ++ token], [ValidateAccessToken]
    accepts the token, the token declares the type "access", and the
    locals carry the user id, the username and the session id the token
    declares, none of them empty, so that [IsAuthenticated] holds and
    [RequireAuth] passes; the other locals and the header are as they
    were.  Every other request is answered 401 "Unauthorized". *)
Theorem AuthMiddleware_authenticates
    {L : Lib} {W A : Type} (h : Handler W) (s : AuthService) (c : Ctx) (w : W) :
  let reply := value (exec h (AuthMiddleware (A := A) s c) w) in
  (∀ c', reply = Next c' →
     ∃ token claims,
       Ctx_Authorization c = "Bearer " +:+ token
       ∧ value (exec h (ValidateAccessToken s token) w) = Ok claims
       ∧ declared_claim token "type" = Some (JString TokenTypeAccess)
       ∧ GetUserID c' = declared_string token "userId"
       ∧ GetUsername c' = declared_string token "username"
       ∧ GetSessionID c' = declared_string token "sessionId"
       ∧ GetUserID c' ≠ "" ∧ GetUsername c' ≠ "" ∧ GetSessionID c' ≠ ""
       ∧ IsAuthenticated c' = true
       ∧ RequireAuth c' = None
       ∧ Ctx_Authorization c' = Ctx_Authorization c
       ∧ (∀ key, key ≠ "userID" → key ≠ "username" → key ≠ "sessionID" →
                 Ctx_Locals c' !! key = Ctx_Locals c !! key))
  ∧ ((∃ c', reply = Next c')
     ∨ ∃ message, reply = Status_Map 401 (fiber_Map [("error", "Unauthorized");
                                                    ("message", message)])).
Proof.
  intros reply. subst reply. split.
  - intros c' (token & claims & Hne & Hhd & Hvalid & Hid & Hname & Hsid & ->)
             %AuthMiddleware_Next_inv.
    destruct (validateToken_ok_inv h s token TokenTypeAccess w claims Hvalid)
      as (tok & Hparse & Htype & _).
    pose proof (validateToken_declared h s token TokenTypeAccess w claims Hvalid) as Hd.
    destruct (Parse_ok_inv h token (keyFunc s) w tok Hparse)
      as (parts & alg & method & sig & key & Hsplit & _ & _ & _ & _ & _ & _ & Htok & _).
    destruct (GetUserID_Locals c (Claims_UserID claims) (Claims_Username claims)
                (Claims_SessionID claims)) as (Hu & Hn & Hs & Ha & Hl).
    exists token, claims. unfold IsAuthenticated, RequireAuth. rewrite Hu, Hn, Hs.
    apply String.eqb_neq in Hid as Hid'. rewrite Hid'.
    split_and!; try done.
    + unfold declared_claim. rewrite Hsplit. rewrite Htok in Htype. exact Htype.
    + by rewrite Hd.
    + by rewrite Hd.
    + by rewrite Hd.
  - destruct (AuthMiddleware_replies (A := A) h s c w)
      as [(message & Hmsg & ->) | (token & Hne & Hhd)]; [right; by eexists |].
    rewrite (AuthMiddleware_exec h s c token w Hne Hhd). cbv zeta. cbn [value].
    destruct (value (exec h (ValidateAccessToken s token) w));
      [left | right]; by eexists.
Qed.

(** X13. [OptionalAuthMiddleware] always hands the request on.  It
    reads the clock as [AuthMiddleware] does and sets the locals where
    [AuthMiddleware] would have passed; where that would have answered
    401 the context is handed on unchanged. *)
Theorem OptionalAuthMiddleware_never_rejects
    {L : Lib} {W A : Type} (h : Handler W) (s : AuthService) (c : Ctx) (w : W) :
  let strict := exec h (AuthMiddleware (A := A) s c) w in
  let optional := exec h (OptionalAuthMiddleware (A := A) s c) w in
  value optional = match value strict with
                   | Next c' => Next c'
                   | _ => Next c
                   end
  ∧ world optional = world strict
  ∧ trace optional = trace strict
  ∧ (∃ c', value optional = Next c'
           ∧ (c' = c ∨ value strict = Next c' ∧ IsAuthenticated c' = true)).
Proof.
  intros strict optional. subst strict optional.
  rewrite OptionalAuthMiddleware_exec. cbv zeta. cbn [value world trace].
  split_and!; try done.
  destruct (value (exec h (AuthMiddleware (A := A) s c) w)) as [c' | | |] eqn:Hstrict;
    [| by eexists; split; [| left] ..].
  exists c'. split; [done |]. right. split; [done |].
  apply AuthMiddleware_Next_inv in Hstrict
    as (token & claims & _ & _ & _ & Hid & _ & _ & ->).
  destruct (GetUserID_Locals c (Claims_UserID claims) (Claims_Username claims)
              (Claims_SessionID claims)) as (Hu & _).
  unfold IsAuthenticated. rewrite Hu. apply String.eqb_neq in Hid. by rewrite Hid.
Qed.

Lemma server_AuthMiddleware_frame
    {L : Lib} {A : Type} (store : RedisSessionStore) (s : AuthService) (c : Ctx)
    (w : World) :
  let o := exec (server store) (AuthMiddleware (A := A) s c) w in
  (trace o = [] ∨ trace o = [event time_Now])
  ∧ redis (world o) = redis w
  ∧ mongo (world o) = mongo w.
Proof.
  intros o. subst o.
  destruct (AuthMiddleware_replies (A := A) (server store) s c w)
    as [(message & Hmsg & ->) | (token & Hne & Hhd)]; [split_and!; by try left |].
  rewrite (AuthMiddleware_exec _ s c token w Hne Hhd). cbv zeta. cbn [world trace].
  split_and!.
  - apply validateToken_trace.
  - apply server_validateToken_frame.
  - apply server_mongo_unchanged. unfold ValidateAccessToken.
    destruct (validateToken_trace (server store) s token TokenTypeAccess w) as [-> | ->];
      done.
Qed.

(** X14. On the running server the answer of [AuthMiddleware] does not
    depend on the session store or on the user repository: it is the same
    whatever Redis and MongoDB hold, in particular after the session has
    been deleted.  The middleware reads the clock at most once and leaves
    both stores as they are. *)
Theorem AuthMiddleware_reads_only_the_clock
    {L : Lib} {A : Type} (store : RedisSessionStore) (s : AuthService) (c : Ctx)
    (w : World) :
  let o := exec (server store) (AuthMiddleware (A := A) s c) w in
  (∀ (r : Redis) (m : Mongo),
     value (exec (server store) (AuthMiddleware (A := A) s c) (with_mongo (with_redis w r) m))
     = value o)
  ∧ (∀ sessionID,
       value (exec (server store) (AuthMiddleware (A := A) s c)
                (with_redis w (snd (RedisSessionStore_Delete store sessionID (redis w)))))
       = value o)
  ∧ (trace o = [] ∨ trace o = [event time_Now])
  ∧ redis (world o) = redis w
  ∧ mongo (world o) = mongo w.
Proof.
  intros o. subst o.
  assert (∀ w', clock w' (ticks w') = clock w (ticks w) →
                value (exec (server store) (AuthMiddleware (A := A) s c) w')
                = value (exec (server store) (AuthMiddleware (A := A) s c) w)) as Hclock.
  { intros w' Hsame.
    destruct (Authorization_cases (Ctx_Authorization c))
      as [Hhd | [[Hne Hp] | [Hhd | (token & Hne & Hhd)]]].
    4:{ rewrite !(AuthMiddleware_exec _ s c token _ Hne Hhd). cbv zeta. cbn [value].
        unfold ValidateAccessToken.
        by rewrite (validateToken_clock (server store) (server store) s token
                      TokenTypeAccess w' w Hsame). }
    all: unfold AuthMiddleware; rewrite ?Hhd; try done.
    apply String.eqb_neq in Hne. by rewrite Hne, Hp. }
  destruct (server_AuthMiddleware_frame (A := A) store s c w) as (Htrace & Hredis & Hmongo).
  split_and!; try done.
  - intros r m. by apply Hclock.
  - intros sessionID. by apply Hclock.
Qed.

(** ** The handlers *)

Section HandlerReplies.
Context {L : Lib} {W : Type} (h : Handler W) (s : AuthService).

Lemma openSession_not_credentials (user : User) (w : W) (err : error) :
  value (exec h (openSession s user) w) = Err err →
  String.eqb (Error err) "invalid credentials" = false.
Proof.
  rewrite openSession_exec. cbv zeta.
  destruct (fst (h _ (sessionStore_Set _ _ _) _)) as [e |].
  - by intros [= <-].
  - destruct (hash_Available SHA256); [done |]. by intros [= <-].
Qed.

Lemma Logout_value (req : LogoutRequest) (w : W) :
  value (exec h (Logout s req) w)
  = Ok {| LogoutResponse_Message := "Logged out successfully" |}.
Proof.
  rewrite Logout_exec. cbv zeta.
  destruct (String.eqb (LogoutRequest_RefreshToken req) ""); [done |].
  by destruct (value (exec h (validateToken s _ TokenTypeRefresh) w)).
Qed.

Lemma AuthHandler_Logout_exec (BodyParser : result LogoutRequest) (w : W) :
  let req := match BodyParser with
             | Err _ => {| LogoutRequest_RefreshToken := "" |}
             | Ok req => req
             end in
  let o := exec h (Logout s req) w in
  exec h (AuthHandler_Logout s BodyParser) w
  = {| value := Status_JSON fiber_StatusOK
                  {| LogoutResponse_Message := "Logged out successfully" |};
       world := world o;
       trace := trace o |}.
Proof.
  intros req o. subst o. unfold AuthHandler_Logout. fold req.
  rewrite exec_bind, Logout_value, exec_ret. cbn [value world trace].
  by rewrite app_nil_r.
Qed.

End HandlerReplies.

(** X15. The login handler, on a request that parsed and validated:
    when the lookup of the user fails, for whatever reason, or the
    password does not verify, the answer is the same 401 "Invalid
    credentials"; once the password has verified it is 200 with the
    response of the service, or 500 "Failed to login user" when the
    session or a token could not be made.  With MongoDB failing the
    running server answers 401. *)
Theorem Login_handler_statuses
    {L : Lib} {W : Type} (h : Handler W) (s : AuthService) (req : LoginRequest)
    (validator_Struct : LoginRequest → option error) (w : W) :
  validator_Struct req = None →
  let reply := value (exec h (AuthHandler_Login s (Ok req) validator_Struct) w) in
  let g := h _ (userRepo_GetByUsername (LoginRequest_Username req)) w in
  let unauthorized :=
    Status_Map 401 (fiber_Map [("error", "Unauthorized");
                               ("message", "Invalid credentials")]) in
  (∀ err, fst g = Err err → reply = unauthorized)
  ∧ (∀ user err, fst g = Ok user →
       verifyPassword (User_Password user) (LoginRequest_Password req) = Some err →
       reply = unauthorized)
  ∧ (∀ user, fst g = Ok user →
       verifyPassword (User_Password user) (LoginRequest_Password req) = None →
       reply = match value (exec h (openSession s user) (snd g)) with
               | Ok response => Status_JSON 200 response
               | Err _ => Status_Map 500 (fiber_Map [("error", "Internal Server Error");
                                                     ("message", "Failed to login user")])
               end)
  ∧ (∀ (store : RedisSessionStore) (w' : World) (err : error),
       mongo_err (mongo w') = Some err →
       value (exec (server store) (AuthHandler_Login s (Ok req) validator_Struct) w')
       = unauthorized).
Proof.
  intros Hv reply g unauthorized. subst reply g unauthorized.
  split_and!;
    [rewrite (AuthHandler_Login_exec h s req validator_Struct w Hv); cbv zeta;
     cbn [value] .. |].
  - intros err Hg. by rewrite (Login_lookup_error h s req w err Hg).
  - intros user err Hg Hp. by rewrite (Login_password_error h s req w user err Hg Hp).
  - intros user Hg Hp. rewrite Login_exec. cbv zeta. rewrite Hg, Hp. cbn [value].
    destruct (value (exec h (openSession s user) _)) as [response | err] eqn:Ho; [done |].
    by rewrite (openSession_not_credentials h s user _ err Ho).
  - intros store w' err Hdown.
    rewrite (AuthHandler_Login_exec _ s req validator_Struct w' Hv). cbv zeta. cbn [value].
    assert (∃ e, fst (server store _ (userRepo_GetByUsername (LoginRequest_Username req)) w')
                 = Err e) as [e He].
    { cbn [server fst]. unfold userRepository_GetByUsername, mongo_FindOne, found_user.
      rewrite Hdown. destruct (is_sentinel err mongo_ErrNoDocuments); by eexists. }
    by rewrite (Login_lookup_error _ s req w' e He).
Qed.

Lemma Login_handler_statuses_witness :
  let h := server (L := demo true) NewRedisSessionStore in
  value (exec h (AuthHandler_Login (L := demo true) demo_service
                   (Ok {| LoginRequest_Username := "bob";
                          LoginRequest_Password := "password123" |}) (λ _, None))
           demo_start)
  = value (exec h (AuthHandler_Login (L := demo true) demo_service
                     (Ok {| LoginRequest_Username := "alice";
                            LoginRequest_Password := "wrongpassword" |}) (λ _, None))
             demo_start).
Proof.
  intros h.
  destruct (Login_handler_statuses (L := demo true) h demo_service
              {| LoginRequest_Username := "bob"; LoginRequest_Password := "password123" |}
              (λ _, None) demo_start eq_refl) as (Hmissing & _).
  destruct (Login_handler_statuses (L := demo true) h demo_service
              {| LoginRequest_Username := "alice";
                 LoginRequest_Password := "wrongpassword" |}
              (λ _, None) demo_start eq_refl) as (_ & Hwrong & _).
  exact (eq_trans (Hmissing _ eq_refl) (eq_sym (Hwrong _ _ eq_refl eq_refl))).
Defined.

(** X16. The logout handler always answers 200 "Logged out
    successfully": its 500 branch is never taken.  On a body that does
    not parse it calls nothing.  Behind [AuthMiddleware] the route answers
    that acknowledgement or the 401 of the middleware. *)
Theorem Logout_handler_always_acknowledges
    {L : Lib} {W : Type} (h : Handler W) (s : AuthService)
    (BodyParser : result LogoutRequest) (c : Ctx) (w : W) :
  let ack := Status_JSON 200 {| LogoutResponse_Message := "Logged out successfully" |} in
  value (exec h (AuthHandler_Logout s BodyParser) w) = ack
  ∧ (∀ err, BodyParser = Err err →
       exec h (AuthHandler_Logout s BodyParser) w
       = {| value := ack; world := w; trace := [] |})
  ∧ (value (exec h (route_logout s BodyParser c) w) = ack
     ∨ ∃ message,
         exec h (route_logout s BodyParser c) w
         = {| value := Status_Map 401 (fiber_Map [("error", "Unauthorized");
                                                  ("message", message)]);
              world := world (exec h (AuthMiddleware (A := LogoutResponse) s c) w);
              trace := trace (exec h (AuthMiddleware (A := LogoutResponse) s c) w) |}).
Proof.
  intros ack. subst ack. split_and!.
  - by rewrite AuthHandler_Logout_exec.
  - intros err ->. rewrite AuthHandler_Logout_exec. cbv zeta. rewrite Logout_exec.
    cbv zeta. by cbn.
  - unfold route_logout, route. rewrite exec_bind. cbn [value world trace].
    destruct (AuthMiddleware_replies (A := LogoutResponse) h s c w)
      as [(message & Hmsg & Hrej) | (token & Hne & Hhd)].
    + right. exists message. rewrite Hrej. cbn [value world trace].
      by rewrite exec_ret.
    + rewrite (AuthMiddleware_exec h s c token w Hne Hhd). cbv zeta.
      cbn [value world trace].
      destruct (value (exec h (ValidateAccessToken s token) w)) as [claims | err].
      * left. by rewrite AuthHandler_Logout_exec.
      * right. eexists. rewrite exec_ret. cbn [value world trace].
        by rewrite app_nil_r.
Qed.

(** X17. The refresh handler, on a request that parsed and validated,
    answers 200 with the response of the service, or 401 with one of the
    messages "invalid refresh token", "invalid session" and "session
    expired", or 500 "Failed to refresh token"; the last only when the
    hash function of the signature is unavailable. *)
Theorem RefreshToken_handler_statuses
    {L : Lib} {W : Type} (h : Handler W) (s : AuthService) (req : RefreshTokenRequest)
    (validator_Struct : RefreshTokenRequest → option error) (w : W) :
  validator_Struct req = None →
  let reply := value (exec h (AuthHandler_RefreshToken s (Ok req) validator_Struct) w) in
  let answer := value (exec h (RefreshToken s req) w) in
  (∃ response, answer = Ok response ∧ reply = Status_JSON 200 response)
  ∨ (∃ message,
       answer = Err (errorString message)
       ∧ (message = "invalid refresh token" ∨ message = "invalid session"
          ∨ message = "session expired")
       ∧ reply = Status_Map 401 (fiber_Map [("error", "Unauthorized");
                                            ("message", message)]))
  ∨ (hash_Available SHA256 = false
     ∧ answer = Err (fmt_Errorf_w "failed to generate access token: "
                       (errorString jwt.ErrHashUnavailable))
     ∧ reply = Status_Map 500 (fiber_Map [("error", "Internal Server Error");
                                          ("message", "Failed to refresh token")])).
Proof.
  intros Hv reply answer. subst reply answer.
  rewrite (AuthHandler_RefreshToken_exec h s req validator_Struct w Hv).
  cbv zeta. cbn [value]. rewrite RefreshToken_exec. cbv zeta.
  destruct (value (exec h (validateToken s _ TokenTypeRefresh) w)) as [claims | err].
  2:{ right. left. exists "invalid refresh token". cbn [value]. by split_and!; [| left |]. }
  destruct (fst (h _ (sessionStore_Get _) _)) as [session | err].
  2:{ right. left. exists "invalid session". cbn [value].
      by split_and!; [| right; left |]. }
  destruct (negb (Session_IsActive session)).
  { right. left. exists "session expired". cbn [value].
    by split_and!; [| right; right |]. }
  destruct (Time_After _ _).
  { right. left. exists "session expired". cbn [value].
    by split_and!; [| right; right |]. }
  destruct (hash_Available SHA256) eqn:Hhash.
  - left. eexists. cbn [value]. by split.
  - right. right. cbn [value]. by split_and!.
Qed.

Lemma RefreshToken_handler_statuses_witness :
  let h := server (L := demo true) NewRedisSessionStore in
  value (exec h (AuthHandler_RefreshToken (L := demo true) demo_service
                   (Ok {| RefreshTokenRequest_RefreshToken := demo_unsigned |})
                   (λ _, None)) demo_start)
  = Status_Map 401 (fiber_Map [("error", "Unauthorized");
                               ("message", "invalid refresh token")]).
Proof.
  intros h.
  destruct (RefreshToken_handler_statuses (L := demo true) h demo_service
              {| RefreshTokenRequest_RefreshToken := demo_unsigned |}
              (λ _, None) demo_start eq_refl)
    as [(response & Hanswer & _) | [(message & Hanswer & _ & Hreply) | (Hhash & _)]].
  - vm_compute in Hanswer. discriminate Hanswer.
  - vm_compute in Hanswer. injection Hanswer as <-. exact Hreply.
  - discriminate Hhash.
Defined.

(** X18. The register handler on the running server, on a request that
    parsed and validated: 409 "username already exists" when a user that
    is not deleted has the username, 409 "email already exists" when the
    username is free and such a user has the email, which is not empty,
    500 "Failed to register user" when MongoDB fails, each without a
    write, and 201 with the response when the service succeeds.  It never
    touches the session store. *)
Theorem Register_handler_statuses
    {L : Lib} (s : AuthService) (store : RedisSessionStore) (req : RegisterRequest)
    (validator_Struct : RegisterRequest → option error) (w : World) :
  validator_Struct req = None →
  let o := exec (server store) (AuthHandler_Register s (Ok req) validator_Struct) w in
  (∀ d, mongo_err (mongo w) = None → d ∈ mongo_users (mongo w) →
        by_username (RegisterRequest_Username req) d = true →
        value o = Status_Map 409 (fiber_Map [("error", "Conflict");
                                             ("message", "username already exists")])
        ∧ mongo (world o) = mongo w)
  ∧ (∀ d, mongo_err (mongo w) = None →
        (∀ d', d' ∈ mongo_users (mongo w) →
               by_username (RegisterRequest_Username req) d' = false) →
        RegisterRequest_Email req ≠ "" →
        d ∈ mongo_users (mongo w) → by_email (RegisterRequest_Email req) d = true →
        value o = Status_Map 409 (fiber_Map [("error", "Conflict");
                                             ("message", "email already exists")])
        ∧ mongo (world o) = mongo w)
  ∧ (∀ err, mongo_err (mongo w) = Some err →
        value o = Status_Map 500 (fiber_Map [("error", "Internal Server Error");
                                             ("message", "Failed to register user")])
        ∧ mongo (world o) = mongo w)
  ∧ (∀ response, value (exec (server store) (Register s req) w) = Ok response →
        value o = Status_JSON 201 response)
  ∧ redis (world o) = redis w.
Proof.
  intros Hv o. subst o.
  rewrite (AuthHandler_Register_exec _ s req validator_Struct w Hv). cbv zeta.
  cbn [value world]. split_and!.
  - intros d Hup Hd Htaken. rewrite Register_exec. cbv zeta. cbn [server fst snd].
    by rewrite (ExistsByUsername_true _ Hup _ d Hd Htaken).
  - intros d Hup Hfree Hmail Hd Htaken. rewrite Register_exec. cbv zeta.
    cbn [server fst snd]. rewrite (ExistsByUsername_false _ Hup _ Hfree).
    apply String.eqb_neq in Hmail as Hne. rewrite Hne. cbn [fst snd].
    by rewrite (ExistsByEmail_true _ Hup _ d Hmail Hd Htaken).
  - intros err Hdown. rewrite Register_exec. cbv zeta. cbn [server fst snd].
    unfold userRepository_ExistsByUsername, mongo_CountDocuments. rewrite Hdown.
    by cbn.
  - by intros response ->.
  - apply server_redis_unchanged. rewrite Register_exec. cbv zeta.
    by repeat case_match.
Qed.

Lemma Register_handler_statuses_witness :
  let h := server (L := demo true) NewRedisSessionStore in
  value (exec h (AuthHandler_Register demo_service
                   (Ok {| RegisterRequest_Username := "alice";
                          RegisterRequest_Password := "another-password";
                          RegisterRequest_Email := "";
                          RegisterRequest_Image := "" |}) (λ _, None)) demo_start)
  = Status_Map 409 (fiber_Map [("error", "Conflict");
                               ("message", "username already exists")]).
Proof.
  intros h.
  destruct (Register_handler_statuses (L := demo true) demo_service NewRedisSessionStore
              {| RegisterRequest_Username := "alice";
                 RegisterRequest_Password := "another-password";
                 RegisterRequest_Email := "";
                 RegisterRequest_Image := "" |} (λ _, None) demo_start eq_refl)
    as (Htaken & _).
  destruct (Htaken demo_alice eq_refl) as (Hreply & _).
  - apply list_elem_of_singleton. reflexivity.
  - reflexivity.
  - exact Hreply.
Defined.

Lemma Status_Map_message {A : Type} (status status' : Z) (e e' message message' : string) :
  Status_Map (A := A) status (fiber_Map [("error", e); ("message", message)])
  = Status_Map status' (fiber_Map [("error", e'); ("message", message')]) →
  message = message'.
Proof.
  intros H.
  apply (f_equal (λ r : Handled A, match r with
                                   | Status_Map _ body => body !! "message"
                                   | _ => None
                                   end)) in H.
  unfold fiber_Map in H. cbn [list_to_map foldr fst snd uncurry] in H.
  rewrite !(lookup_insert_ne _ "error" "message") in H by done.
  rewrite !lookup_insert_eq in H.
  congruence.
Qed.

(** X19. [GET /auth/me] on the running server.  Where the middleware
    hands the request on, the user id of the context is not empty and the
    answer is 200 with the user [GetByID] finds for it, without the
    password hash, or 500 "Failed to get user information" when it finds
    none.  Where the middleware answers 401 that is the answer.  The 401
    "Authentication required" of the handler itself is never sent, and
    neither store is written. *)
Theorem route_me_answers
    {L : Lib} (s : AuthService) (store : RedisSessionStore) (c : Ctx) (w : World) :
  let h := server store in
  let strict := exec h (AuthMiddleware (A := AuthUserResponse) s c) w in
  let reply := value (exec h (route_me s c) w) in
  (∀ c', value strict = Next c' →
     GetUserID c' ≠ ""
     ∧ reply = match userRepository_GetByID (GetUserID c') (mongo w) with
               | Ok user => Status_JSON 200 {| AuthUserResponse_User := ToResponse user |}
               | Err _ =>
                   Status_Map 500 (fiber_Map [("error", "Internal Server Error");
                                              ("message", "Failed to get user information")])
               end)
  ∧ (∀ status body, value strict = Status_Map status body → reply = Status_Map 401 body)
  ∧ reply ≠ Status_Map 401 (fiber_Map [("error", "Unauthorized");
                                       ("message", "Authentication required")])
  ∧ redis (world (exec h (route_me s c) w)) = redis w
  ∧ mongo (world (exec h (route_me s c) w)) = mongo w.
Proof.
  intros h strict reply. subst h strict reply.
  unfold route_me, route. rewrite !exec_bind. cbn [value world].
  destruct (server_AuthMiddleware_frame (A := AuthUserResponse) store s c w)
    as (_ & Hredis & Hmongo).
  destruct (value (exec (server store) (AuthMiddleware (A := AuthUserResponse) s c) w))
    as [c' | status body | status body | status] eqn:Hstrict.
  - apply AuthMiddleware_Next_inv in Hstrict as Hinv.
    destruct Hinv as (token & claims & _ & _ & _ & Hid & _ & _ & Hc').
    destruct (GetUserID_Locals c (Claims_UserID claims) (Claims_Username claims)
                (Claims_SessionID claims)) as (Hu & _).
    rewrite <- Hc' in Hu.
    assert (exec (server store) (AuthHandler_Me s c')
              (world (exec (server store) (AuthMiddleware (A := AuthUserResponse) s c) w))
            = {| value :=
                   match userRepository_GetByID (GetUserID c') (mongo w) with
                   | Ok user =>
                       Status_JSON 200 {| AuthUserResponse_User := ToResponse user |}
                   | Err _ =>
                       Status_Map 500
                         (fiber_Map [("error", "Internal Server Error");
                                     ("message", "Failed to get user information")])
                   end;
                 world := world (exec (server store)
                                   (AuthMiddleware (A := AuthUserResponse) s c) w);
                 trace := [event (userRepo_GetByID (GetUserID c'))] |}) as Hme.
    { unfold AuthHandler_Me. rewrite Hu. apply String.eqb_neq in Hid as Hid'.
      rewrite Hid'. unfold GetAuthenticatedUser. rewrite !exec_bind, exec_call.
      cbn [value world trace server fst snd]. rewrite Hmongo.
      by destruct (userRepository_GetByID (Claims_UserID claims) (mongo w)). }
    rewrite Hme. cbn [value world]. split_and!; try done.
    + intros c'' [= <-]. split; [congruence | done].
    + by destruct (userRepository_GetByID (GetUserID c') (mongo w)).
  - rewrite exec_ret. cbn [value world].
    destruct (AuthMiddleware_replies (A := AuthUserResponse) (server store) s c w)
      as [(message & Hmsg & Hrej) | (token & Hne & Hhd)].
    + rewrite Hrej in Hstrict. cbn [value] in Hstrict. injection Hstrict as <- <-.
      split_and!; try done; try (by intros st b [= <- <-]).
      intros Heq%Status_Map_message. destruct Hmsg as [-> | [-> | ->]]; discriminate Heq.
    + rewrite (AuthMiddleware_exec _ s c token w Hne Hhd) in Hstrict.
      cbv zeta in Hstrict. cbn [value] in Hstrict.
      destruct (value (exec (server store) (ValidateAccessToken s token) w)); [done |].
      injection Hstrict as <- <-. split_and!; try done. by intros st b [= <- <-].
  - exfalso.
    destruct (AuthMiddleware_replies (A := AuthUserResponse) (server store) s c w)
      as [(message & Hmsg & Hrej) | (token & Hne & Hhd)].
    + rewrite Hrej in Hstrict. discriminate Hstrict.
    + rewrite (AuthMiddleware_exec _ s c token w Hne Hhd) in Hstrict.
      cbv zeta in Hstrict. cbn [value] in Hstrict.
      by destruct (value (exec (server store) (ValidateAccessToken s token) w)).
  - exfalso.
    destruct (AuthMiddleware_replies (A := AuthUserResponse) (server store) s c w)
      as [(message & Hmsg & Hrej) | (token & Hne & Hhd)].
    + rewrite Hrej in Hstrict. discriminate Hstrict.
    + rewrite (AuthMiddleware_exec _ s c token w Hne Hhd) in Hstrict.
      cbv zeta in Hstrict. cbn [value] in Hstrict.
      by destruct (value (exec (server store) (ValidateAccessToken s token) w)).
Qed.

(** ** The life of a session, in general *)

Section ServerSession.
Context {L : Lib} (store : RedisSessionStore) (s : AuthService).

Lemma openSession_server_ok (user : User) (w : World) (login : LoginResponse) :
  value (exec (server store) (openSession s user) w) = Ok login →
  redis_err (redis w) = None
  ∧ hash_Available SHA256 = true
  ∧ login = login_response s user w
  ∧ redis (world (exec (server store) (openSession s user) w))
    = snd (RedisSessionStore_Set store (login_sessionID w) (login_session s user w)
             (JWTConfig_RefreshExpiry (config s)) (redis w))
  ∧ mongo (world (exec (server store) (openSession s user) w)) = mongo w.
Proof.
  rewrite openSession_exec. cbv zeta. cbn [server fst snd].
  cbn [tick draw with_redis clock ticks random draws redis mongo].
  change (ulid_String (ulid_Timestamp (clock w (ticks w))) (random w (draws w)))
    with (login_sessionID w).
  match goal with |- context [RedisSessionStore_Set store _ ?sess _ _] =>
    change sess with (login_session s user w) end.
  destruct (fst (RedisSessionStore_Set store (login_sessionID w) (login_session s user w)
                   (JWTConfig_RefreshExpiry (config s)) (redis w))) as [err |] eqn:Hset;
    [done |].
  destruct (hash_Available SHA256) eqn:Hhash; [| done].
  cbn [value world]. intros [= <-]. split_and!; try done.
  unfold RedisSessionStore_Set, redis_Set in Hset.
  by destruct (redis_err (redis w)).
Qed.

Lemma Login_server_ok (req : LoginRequest) (w : World) (login : LoginResponse) :
  value (exec (server store) (Login s req) w) = Ok login →
  ∃ user,
    userRepository_GetByUsername (LoginRequest_Username req) (mongo w) = Ok user
    ∧ verifyPassword (User_Password user) (LoginRequest_Password req) = None
    ∧ redis_err (redis w) = None
    ∧ hash_Available SHA256 = true
    ∧ login = login_response s user w
    ∧ redis (world (exec (server store) (Login s req) w))
      = snd (RedisSessionStore_Set store (login_sessionID w) (login_session s user w)
               (JWTConfig_RefreshExpiry (config s)) (redis w))
    ∧ mongo (world (exec (server store) (Login s req) w)) = mongo w.
Proof.
  rewrite Login_exec. cbv zeta. cbn [server fst snd].
  destruct (userRepository_GetByUsername _ (mongo w)) as [user | err]; [| done].
  destruct (verifyPassword _ _) eqn:Hpw; [done |]. cbn [value world].
  intros (Hup & Hhash & Hlogin & Hredis & Hmongo)%openSession_server_ok.
  by exists user.
Qed.

Lemma LoginByEmail_server_ok (req : LoginByEmailRequest) (w : World)
    (login : LoginResponse) :
  value (exec (server store) (LoginByEmail s req) w) = Ok login →
  ∃ user,
    userRepository_GetByEmail (LoginByEmailRequest_Email req) (mongo w) = Ok user
    ∧ verifyPassword (User_Password user) (LoginByEmailRequest_Password req) = None
    ∧ redis_err (redis w) = None
    ∧ hash_Available SHA256 = true
    ∧ login = login_response s user w
    ∧ redis (world (exec (server store) (LoginByEmail s req) w))
      = snd (RedisSessionStore_Set store (login_sessionID w) (login_session s user w)
               (JWTConfig_RefreshExpiry (config s)) (redis w))
    ∧ mongo (world (exec (server store) (LoginByEmail s req) w)) = mongo w.
Proof.
  rewrite LoginByEmail_exec. cbv zeta. cbn [server fst snd].
  destruct (userRepository_GetByEmail _ (mongo w)) as [user | err]; [| done].
  destruct (verifyPassword _ _) eqn:Hpw; [done |]. cbn [value world].
  intros (Hup & Hhash & Hlogin & Hredis & Hmongo)%openSession_server_ok.
  by exists user.
Qed.

End ServerSession.

(** X20. A successful [Login] or [LoginByEmail] on the running server
    has found the user and verified the password; it answers
    [login_response] and leaves in the store, under the id it drew, the
    active session of that user, which [Get] and [Exists] find; the other
    sessions and the users are as before. *)
Theorem Login_stores_the_session
    {L : Lib} (s : AuthService) (store : RedisSessionStore) (w : World)
    (login : LoginResponse) :
  (∀ req : LoginRequest,
     let o := exec (server store) (Login s req) w in
     value o = Ok login →
     ∃ user,
       userRepository_GetByUsername (LoginRequest_Username req) (mongo w) = Ok user
       ∧ verifyPassword (User_Password user) (LoginRequest_Password req) = None
       ∧ login = login_response s user w
       ∧ RedisSessionStore_Get store (login_sessionID w) (redis (world o))
         = Ok (login_session s user w)
       ∧ RedisSessionStore_Exists store (login_sessionID w) (redis (world o)) = Ok true
       ∧ (∀ other, other ≠ login_sessionID w →
            RedisSessionStore_Get store other (redis (world o))
            = RedisSessionStore_Get store other (redis w))
       ∧ mongo (world o) = mongo w)
  ∧ (∀ req : LoginByEmailRequest,
       let o := exec (server store) (LoginByEmail s req) w in
       value o = Ok login →
       ∃ user,
         userRepository_GetByEmail (LoginByEmailRequest_Email req) (mongo w) = Ok user
         ∧ verifyPassword (User_Password user) (LoginByEmailRequest_Password req) = None
         ∧ login = login_response s user w
         ∧ RedisSessionStore_Get store (login_sessionID w) (redis (world o))
           = Ok (login_session s user w)
         ∧ RedisSessionStore_Exists store (login_sessionID w) (redis (world o)) = Ok true
         ∧ (∀ other, other ≠ login_sessionID w →
              RedisSessionStore_Get store other (redis (world o))
              = RedisSessionStore_Get store other (redis w))
         ∧ mongo (world o) = mongo w).
Proof.
  assert (∀ user, redis_err (redis w) = None →
            let r' := snd (RedisSessionStore_Set store (login_sessionID w)
                             (login_session s user w)
                             (JWTConfig_RefreshExpiry (config s)) (redis w)) in
            RedisSessionStore_Get store (login_sessionID w) r'
            = Ok (login_session s user w)
            ∧ RedisSessionStore_Exists store (login_sessionID w) r' = Ok true
            ∧ (∀ other, other ≠ login_sessionID w →
                 RedisSessionStore_Get store other r'
                 = RedisSessionStore_Get store other (redis w))) as Hstored.
  { intros user Hup r'. subst r'.
    unfold RedisSessionStore_Set, redis_Set. rewrite Hup. cbn [fst snd].
    match goal with |- context [{| redis_keys := ?k; redis_time := ?t; redis_err := ?e |}] =>
      set (r' := {| redis_keys := k; redis_time := t; redis_err := e |}) end.
    assert (∃ d, redis_live r' (getKey store (login_sessionID w))
                 = Some (JSON_Session (login_session s user w), d)) as [d Hlive].
    { unfold redis_live, r'. cbn [redis_keys redis_time]. rewrite lookup_insert_eq.
      destruct (0 <? JWTConfig_RefreshExpiry (config s)) eqn:Hpos.
      - apply Z.ltb_lt in Hpos.
        destruct (redis_time (redis w) + JWTConfig_RefreshExpiry (config s)
                  <=? redis_time (redis w)) eqn:Hle; [| by eexists].
        apply Z.leb_le in Hle. lia.
      - destruct (JWTConfig_RefreshExpiry (config s) =? redis_KeepTTL); [| by eexists].
        unfold redis_live.
        destruct (redis_keys (redis w) !! getKey store (login_sessionID w))
          as [[data [deadline |]] |]; try by eexists.
        destruct (deadline <=? redis_time (redis w)) eqn:Hle; [by eexists |].
        rewrite Hle. by eexists. }
    split_and!.
    - rewrite RedisSessionStore_Get_live by done. by rewrite Hlive.
    - rewrite RedisSessionStore_Exists_live by done. by rewrite Hlive.
    - intros other Hne. apply RedisSessionStore_Get_ext; try done.
      unfold r'. cbn [redis_keys]. apply lookup_insert_ne. by apply getKey_ne. }
  split.
  - intros req o Hok. subst o.
    destruct (Login_server_ok store s req w login Hok)
      as (user & Hget & Hpw & Hup & Hhash & Hlogin & Hredis & Hmongo).
    exists user. rewrite Hredis. destruct (Hstored user Hup) as (H1 & H2 & H3).
    by split_and!.
  - intros req o Hok. subst o.
    destruct (LoginByEmail_server_ok store s req w login Hok)
      as (user & Hget & Hpw & Hup & Hhash & Hlogin & Hredis & Hmongo).
    exists user. rewrite Hredis. destruct (Hstored user Hup) as (H1 & H2 & H3).
    by split_and!.
Qed.

Section IssuedTokens.
Context {L : Lib} {W : Type} (h : Handler W) (s : AuthService).
Hypothesis codec : codec_roundtrip.
Hypothesis sha256 : hash_Available SHA256 = true.

(** A token of one type is rejected where the other is expected, at any
    time. *)
Lemma validateToken_issued_other (claims : Claims) (exp iat : Z) (expectedType : string)
    (w : W) :
  Claims_Type claims ≠ expectedType →
  ∃ err, value (exec h (validateToken s (issued s claims exp iat) expectedType) w)
         = Err err.
Proof.
  intros Hne. unfold validateToken. rewrite exec_bind, (Parse_issued h s codec sha256).
  cbn [value world].
  destruct (jwt.Validate (token_claims s claims exp iat) (fst (h _ time_Now w)));
    [by eexists |].
  cbv zeta. cbn [jwt.Token_Valid jwt.Token_Claims negb]. rewrite token_claims_type.
  apply String.eqb_neq in Hne. rewrite Hne. by eexists.
Qed.

End IssuedTokens.

(** X21. The tokens a successful [Login] returns, with a codec that reads
    back what it wrote and ids that are not empty.  Each token declares
    its expiry.  Until the expiry of the access token, [AuthMiddleware]
    accepts it in a [Bearer] header and sets the locals to the user and
    the session of the login; the refresh token in that header is
    answered 401 "Invalid token", and the access token is never accepted
    by [RefreshToken].  Until the expiry of the refresh token,
    [RefreshToken] answers with a new access token for the same user and
    session while the store holds the session, active and not expired,
    and with "invalid session" once the store does not return it. *)
Theorem Login_tokens_are_accepted
    {L : Lib} {A : Type} (s : AuthService) (store : RedisSessionStore)
    (req : LoginRequest) (w : World) (login : LoginResponse) :
  codec_roundtrip →
  let h := server store in
  let userID := UserResponse_ID (LoginResponse_User login) in
  let username := UserResponse_Username (LoginResponse_User login) in
  let sessionID := login_sessionID w in
  let access_exp :=
    Time_Unix (Time_Add (clock w (3 + ticks w)%nat) (JWTConfig_AccessExpiry (config s))) in
  let refresh_exp :=
    Time_Unix (Time_Add (clock w (5 + ticks w)%nat) (JWTConfig_RefreshExpiry (config s))) in
  let session_exp :=
    Time_Add (clock w (2 + ticks w)%nat) (JWTConfig_RefreshExpiry (config s)) in
  value (exec h (Login s req) w) = Ok login →
  userID ≠ "" → username ≠ "" → sessionID ≠ "" →
  declared_claim (LoginResponse_AccessToken login) "exp" = Some (JNumber access_exp)
  ∧ declared_claim (LoginResponse_RefreshToken login) "exp" = Some (JNumber refresh_exp)
  ∧ (∀ (c : Ctx) (w' : World),
       Ctx_Authorization c = "Bearer " +:+ LoginResponse_AccessToken login →
       clock w' (ticks w') < time_Unix access_exp →
       ∃ c', value (exec h (AuthMiddleware (A := A) s c) w') = Next c'
             ∧ GetUserID c' = userID ∧ GetUsername c' = username
             ∧ GetSessionID c' = sessionID)
  ∧ (∀ (c : Ctx) (w' : World),
       Ctx_Authorization c = "Bearer " +:+ LoginResponse_RefreshToken login →
       value (exec h (AuthMiddleware (A := A) s c) w')
       = Status_Map 401 (fiber_Map [("error", "Unauthorized");
                                    ("message", "Invalid token")]))
  ∧ (∀ w' : World,
       value (exec h (RefreshToken s {| RefreshTokenRequest_RefreshToken :=
                                          LoginResponse_AccessToken login |}) w')
       = Err (errorString "invalid refresh token"))
  ∧ (∀ (w' : World) (session : Session),
       RedisSessionStore_Get store sessionID (redis w') = Ok session →
       Session_IsActive session = true →
       clock w' (ticks w') < time_Unix refresh_exp →
       clock w' (1 + ticks w')%nat ≤ Session_ExpiresAt session →
       value (exec h (RefreshToken s {| RefreshTokenRequest_RefreshToken :=
                                          LoginResponse_RefreshToken login |}) w')
       = Ok {| RefreshTokenResponse_AccessToken :=
                 issued s (access_claims userID username sessionID)
                   (Time_Unix (Time_Add (clock w' (2 + ticks w')%nat)
                                 (JWTConfig_AccessExpiry (config s))))
                   (Time_Unix (clock w' (3 + ticks w')%nat));
               RefreshTokenResponse_ExpiresAt :=
                 Time_Add (clock w' (4 + ticks w')%nat)
                   (JWTConfig_AccessExpiry (config s)) |})
  ∧ (∀ (w' : World) (err : error),
       RedisSessionStore_Get store sessionID (redis w') = Err err →
       clock w' (ticks w') < time_Unix refresh_exp →
       value (exec h (RefreshToken s {| RefreshTokenRequest_RefreshToken :=
                                          LoginResponse_RefreshToken login |}) w')
       = Err (errorString "invalid session")).
Proof.
  intros codec h userID username sessionID access_exp refresh_exp session_exp Hok.
  subst h.
  destruct (Login_server_ok store s req w login Hok)
    as (user & Hget & Hpw & Hup & Hhash & -> & Hredis & Hmongo).
  cbn [LoginResponse_User LoginResponse_AccessToken LoginResponse_RefreshToken
       login_response ToResponse UserResponse_ID UserResponse_Username] in *.
  subst userID username. intros Hid Hname Hsid.
  fold sessionID access_exp refresh_exp.
  split_and!.
  - by rewrite (issued_declared_claim s codec).
  - by rewrite (issued_declared_claim s codec).
  - intros c w' Hhd Hbefore.
    rewrite (AuthMiddleware_exec _ s c _ w' (issued_nonempty _ _ _ _) Hhd).
    cbv zeta. cbn [value]. unfold ValidateAccessToken.
    rewrite (validateToken_issued _ s codec Hhash); try done.
    2:{ cbn [server fst]. by apply Z.ltb_lt. }
    cbn [value access_claims Claims_Type String.eqb].
    change (String.eqb TokenTypeAccess TokenTypeAccess) with true. cbv iota.
    eexists. split; [done |].
    destruct (GetUserID_Locals c (User_ID user) (User_Username user) sessionID)
      as (Hu & Hn & Hs & _).
    by split_and!.
  - intros c w' Hhd.
    rewrite (AuthMiddleware_exec _ s c _ w' (issued_nonempty _ _ _ _) Hhd).
    cbv zeta. cbn [value]. unfold ValidateAccessToken.
    by destruct (validateToken_issued_other (server store) s codec Hhash
                   (refresh_claims (User_ID user) (User_Username user) sessionID)
                   refresh_exp (Time_Unix (clock w (6 + ticks w)%nat))
                   TokenTypeAccess w') as [err ->].
  - intros w'. rewrite RefreshToken_exec. cbv zeta.
    cbn [RefreshTokenRequest_RefreshToken].
    by destruct (validateToken_issued_other (server store) s codec Hhash
                   (access_claims (User_ID user) (User_Username user) sessionID)
                   access_exp (Time_Unix (clock w (4 + ticks w)%nat))
                   TokenTypeRefresh w') as [err ->].
  - intros w' session Hstored Hactive Hbefore Hlive.
    rewrite RefreshToken_exec. cbv zeta. cbn [RefreshTokenRequest_RefreshToken].
    rewrite (validateToken_issued _ s codec Hhash); try done.
    2:{ cbn [server fst]. by apply Z.ltb_lt. }
    cbv beta iota delta [value world trace refresh_claims Claims_Type Claims_SessionID
                           Claims_UserID Claims_Username].
    change (String.eqb TokenTypeRefresh TokenTypeRefresh) with true. cbv iota.
    cbn [server fst snd tick draw clock ticks random draws redis mongo].
    fold sessionID. rewrite Hstored, Hactive. cbn [negb].
    replace (Time_After (clock w' (S (ticks w'))) (Session_ExpiresAt session))
      with false by (symmetry; apply Z.ltb_ge; exact Hlive).
    by rewrite Hhash.
  - intros w' err Hgone Hbefore.
    rewrite RefreshToken_exec. cbv zeta. cbn [RefreshTokenRequest_RefreshToken].
    rewrite (validateToken_issued _ s codec Hhash); try done.
    2:{ cbn [server fst]. by apply Z.ltb_lt. }
    cbv beta iota delta [value world trace refresh_claims Claims_Type Claims_SessionID
                           Claims_UserID Claims_Username].
    change (String.eqb TokenTypeRefresh TokenTypeRefresh) with true. cbv iota.
    cbn [server fst snd tick draw clock ticks random draws redis mongo].
    fold sessionID. by rewrite Hgone.
Qed.

Lemma Login_tokens_are_accepted_witness :
  let h := server (L := demo true) NewRedisSessionStore in
  (∃ c', value (exec h (AuthMiddleware (L := demo true) (A := unit) demo_service
                          (demo_bearer (LoginResponse_AccessToken demo_alice_login)))
                  demo_logged_in) = Next c'
         ∧ GetUserID c' = "01HALICE")
  ∧ ∃ response,
      value (exec h (RefreshToken (L := demo true) demo_service
                       {| RefreshTokenRequest_RefreshToken :=
                            LoginResponse_RefreshToken demo_alice_login |})
               demo_logged_in) = Ok response.
Proof.
  intros h.
  destruct (Login_tokens_are_accepted (L := demo true) (A := unit) demo_service
              NewRedisSessionStore demo_login demo_start demo_alice_login
              (demo_codec_roundtrip true))
    as (_ & _ & Hauth & _ & _ & Hrefresh & _).
  - vm_compute. reflexivity.
  - intros H. vm_compute in H. discriminate H.
  - intros H. vm_compute in H. discriminate H.
  - intros H. vm_compute in H. discriminate H.
  - split.
    + destruct (Hauth (demo_bearer (LoginResponse_AccessToken demo_alice_login))
                  demo_logged_in eq_refl) as (c' & Hc & Hu & _).
      * vm_compute. reflexivity.
      * exists c'. split; [exact Hc | exact Hu].
    + eexists.
      apply (Hrefresh demo_logged_in
               (login_session (L := demo true) demo_service (mongoUserToModel demo_alice)
                  demo_start)).
      * vm_compute. reflexivity.
      * reflexivity.
      * vm_compute. reflexivity.
      * vm_compute. intros H. discriminate H.
Defined.

(** X22. [Logout] with the refresh token of a login, while that token is
    valid and Redis answers, removes the session of the login and no
    other.  While the store stays so, [RefreshToken] with that token
    fails, with "invalid session" or, once the token has expired, with
    "invalid refresh token"; the access token of the login is still
    accepted by [AuthMiddleware] until its own expiry. *)
Theorem Logout_revokes_the_refresh_token_only
    {L : Lib} {A : Type} (s : AuthService) (store : RedisSessionStore)
    (req : LoginRequest) (w w' : World) (login : LoginResponse) :
  codec_roundtrip →
  let h := server store in
  let userID := UserResponse_ID (LoginResponse_User login) in
  let username := UserResponse_Username (LoginResponse_User login) in
  let sessionID := login_sessionID w in
  let access_exp :=
    Time_Unix (Time_Add (clock w (3 + ticks w)%nat) (JWTConfig_AccessExpiry (config s))) in
  let refresh_exp :=
    Time_Unix (Time_Add (clock w (5 + ticks w)%nat) (JWTConfig_RefreshExpiry (config s))) in
  let refresh := LoginResponse_RefreshToken login in
  let out := exec h (Logout s {| LogoutRequest_RefreshToken := refresh |}) w' in
  value (exec h (Login s req) w) = Ok login →
  userID ≠ "" → username ≠ "" → sessionID ≠ "" →
  redis_err (redis w') = None →
  clock w' (ticks w') < time_Unix refresh_exp →
  RedisSessionStore_Get store sessionID (redis (world out))
  = Err (errorString "session not found")
  ∧ (∀ other, other ≠ sessionID →
       RedisSessionStore_Get store other (redis (world out))
       = RedisSessionStore_Get store other (redis w'))
  ∧ (∀ w'' : World,
       redis w'' = redis (world out) →
       value (exec h (RefreshToken s {| RefreshTokenRequest_RefreshToken := refresh |}) w'')
       = Err (errorString "invalid session")
       ∨ value (exec h (RefreshToken s {| RefreshTokenRequest_RefreshToken := refresh |})
                  w'')
         = Err (errorString "invalid refresh token")
           ∧ time_Unix refresh_exp ≤ clock w'' (ticks w''))
  ∧ (∀ (c : Ctx) (w'' : World),
       redis w'' = redis (world out) →
       Ctx_Authorization c = "Bearer " +:+ LoginResponse_AccessToken login →
       clock w'' (ticks w'') < time_Unix access_exp →
       ∃ c', value (exec h (AuthMiddleware (A := A) s c) w'') = Next c'
             ∧ GetUserID c' = userID ∧ GetSessionID c' = sessionID).
Proof.
  intros codec h userID username sessionID access_exp refresh_exp refresh out Hok.
  subst h refresh out.
  destruct (Login_server_ok store s req w login Hok)
    as (user & Hget & Hpw & Hup & Hhash & -> & Hredis & Hmongo).
  cbn [LoginResponse_User LoginResponse_AccessToken LoginResponse_RefreshToken
       login_response ToResponse UserResponse_ID UserResponse_Username] in *.
  subst userID username. intros Hid Hname Hsid Hup' Hbefore.
  fold sessionID access_exp refresh_exp.
  set (token := issued s (refresh_claims (User_ID user) (User_Username user) sessionID)
                  refresh_exp (Time_Unix (clock w (6 + ticks w)%nat))).
  assert (redis (world (exec (server store)
                          (Logout s {| LogoutRequest_RefreshToken := token |}) w'))
          = snd (RedisSessionStore_Delete store sessionID (redis w'))) as Hout.
  { rewrite Logout_exec. cbv zeta. cbn [LogoutRequest_RefreshToken].
    pose proof (issued_nonempty s (refresh_claims (User_ID user) (User_Username user)
                                     sessionID)
                  refresh_exp (Time_Unix (clock w (6 + ticks w)%nat)))
      as Hne%String.eqb_neq.
    fold token in Hne. rewrite Hne. unfold token.
    rewrite (validateToken_issued _ s codec Hhash);
      [reflexivity | cbn [server fst]; by apply Z.ltb_lt | done ..]. }
  rewrite Hout.
  rewrite RedisSessionStore_Delete_live by done. cbn [snd].
  set (r' := {| redis_keys := delete (getKey store sessionID) (redis_keys (redis w'));
                redis_time := redis_time (redis w'); redis_err := redis_err (redis w') |}).
  assert (RedisSessionStore_Get store sessionID r' = Err (errorString "session not found"))
    as Hgone.
  { rewrite RedisSessionStore_Get_live by done. unfold r'. by rewrite redis_live_delete. }
  split_and!.
  - exact Hgone.
  - intros other Hne. apply RedisSessionStore_Get_ext; try done.
    unfold r'. cbn [redis_keys]. apply lookup_delete_ne. by apply getKey_ne.
  - intros w'' Hsame. rewrite RefreshToken_exec. cbv zeta.
    cbn [RefreshTokenRequest_RefreshToken].
    destruct (Z.lt_ge_cases (clock w'' (ticks w'')) (time_Unix refresh_exp))
      as [Hvalid | Hexpired].
    + left. unfold token.
      rewrite (validateToken_issued _ s codec Hhash);
        [| cbn [server fst]; by apply Z.ltb_lt | done ..].
      cbv beta iota delta [value world trace refresh_claims Claims_Type Claims_SessionID
                             Claims_UserID Claims_Username].
      change (String.eqb TokenTypeRefresh TokenTypeRefresh) with true. cbv iota.
      cbn [server fst snd tick draw clock ticks random draws redis mongo].
      by rewrite Hsame, Hgone.
    + destruct (value (exec (server store) (validateToken s token TokenTypeRefresh) w''))
        as [claims |] eqn:Hv; [| right; by split].
      left.
      pose proof (validateToken_declared _ s token TokenTypeRefresh w'' claims Hv) as Hd.
      assert (Claims_SessionID claims = sessionID) as Hs.
      { rewrite Hd. cbn [Claims_SessionID]. unfold declared_string, token.
        by rewrite (issued_declared_claim s codec). }
      rewrite Hs. cbn [server fst snd].
      rewrite (server_validateToken_frame store s token TokenTypeRefresh w'').
      by rewrite Hsame, Hgone.
  - intros c w'' Hsame Hhd Haccess.
    rewrite (AuthMiddleware_exec _ s c _ w'' (issued_nonempty _ _ _ _) Hhd).
    cbv zeta. cbn [value]. unfold ValidateAccessToken.
    rewrite (validateToken_issued _ s codec Hhash);
      [| cbn [server fst]; by apply Z.ltb_lt | done ..].
    cbn [value access_claims Claims_Type String.eqb].
    change (String.eqb TokenTypeAccess TokenTypeAccess) with true. cbv iota.
    eexists. split; [done |].
    destruct (GetUserID_Locals c (User_ID user) (User_Username user) sessionID)
      as (Hu & Hn & Hs & _).
    by split.
Qed.

Lemma Logout_revokes_the_refresh_token_only_witness :
  let h := server (L := demo true) NewRedisSessionStore in
  let refresh := LoginResponse_RefreshToken demo_alice_login in
  let out := exec h (Logout (L := demo true) demo_service
                       {| LogoutRequest_RefreshToken := refresh |}) demo_logged_in in
  value (exec h (RefreshToken (L := demo true) demo_service
                   {| RefreshTokenRequest_RefreshToken := refresh |}) (world out))
  = Err (errorString "invalid session")
  ∧ ∃ c', value (exec h (AuthMiddleware (L := demo true) (A := unit) demo_service
                           (demo_bearer (LoginResponse_AccessToken demo_alice_login)))
                   (world out)) = Next c'
          ∧ GetUserID c' = "01HALICE".
Proof.
  intros h refresh out.
  destruct (Logout_revokes_the_refresh_token_only (L := demo true) (A := unit)
              demo_service NewRedisSessionStore demo_login demo_start demo_logged_in
              demo_alice_login (demo_codec_roundtrip true))
    as (_ & _ & Hrefresh & Hauth).
  - vm_compute. reflexivity.
  - intros H. vm_compute in H. discriminate H.
  - intros H. vm_compute in H. discriminate H.
  - intros H. vm_compute in H. discriminate H.
  - reflexivity.
  - vm_compute. reflexivity.
  - split.
    + destruct (Hrefresh (world out) eq_refl) as [Hgone | [_ Hlate]];
        [exact Hgone |].
      vm_compute in Hlate. exfalso. apply Hlate. reflexivity.
    + destruct (Hauth (demo_bearer (LoginResponse_AccessToken demo_alice_login))
                  (world out) eq_refl eq_refl) as (c' & Hc & Hu & _).
      * vm_compute. reflexivity.
      * exists c'. split; [exact Hc | exact Hu].
Defined.

(** ** The configuration *)

(** X23. [validate] accepts a configuration exactly when the port is in
    1..65535, the driver is "postgres" with a PostgreSQL URL or "mongodb"
    with a MongoDB URL, the JWT secret has at least 32 bytes and the Redis
    URL is not empty.  The error "jwt secret is required" is the answer
    exactly when port and database pass and the secret is empty. *)
Theorem validate_accepts_iff (config : Config) :
  let port := ServerConfig_Port (Config_Server config) in
  let driver := DatabaseConfig_Driver (Config_Database config) in
  let secret := JWTConfig_Secret (Config_JWT config) in
  (validate config = None
   ↔ 1 ≤ port ≤ 65535
     ∧ (driver = "postgres" ∧ DatabaseConfig_PostgresURL (Config_Database config) ≠ ""
        ∨ driver = "mongodb" ∧ DatabaseConfig_MongoURL (Config_Database config) ≠ "")
     ∧ (32 ≤ String.length secret)%nat
     ∧ RedisConfig_URL (Config_Redis config) ≠ "")
  ∧ (validate config = Some (errorString "jwt secret is required") ↔
     1 ≤ port ≤ 65535
     ∧ (driver = "postgres" ∧ DatabaseConfig_PostgresURL (Config_Database config) ≠ ""
        ∨ driver = "mongodb" ∧ DatabaseConfig_MongoURL (Config_Database config) ≠ "")
     ∧ secret = "").
Proof.
  intros port driver secret. unfold validate. fold port driver secret.
  destruct (Z.leb_spec port 0) as [Hp0 | Hp0]; cbn [orb].
  { split; split; try done; intros [[? ?] _]; lia. }
  destruct (Z.ltb_spec 65535 port) as [Hp1 | Hp1].
  { split; split; try done; intros [[? ?] _]; lia. }
  destruct (String.eqb_spec driver "postgres") as [Hpg | Hpg]; cbn [negb andb].
  - destruct (String.eqb_spec (DatabaseConfig_PostgresURL (Config_Database config)) "")
      as [Hurl | Hurl].
    { split; split; try done; intros (_ & [[_ ?] | [? _]] & _); congruence. }
    rewrite Hpg. cbn [String.eqb Ascii.eqb Bool.eqb andb].
    destruct (String.eqb_spec secret "") as [Hs | Hs].
    { split; split; try done.
      - intros (_ & _ & Hlen & _). rewrite Hs in Hlen. simpl in Hlen. lia.
      - intros _. split_and!; try done; try lia. left. by split. }
    destruct (Nat.ltb_spec (String.length secret) 32) as [Hlen | Hlen].
    { split; split; try done.
      - intros (_ & _ & ? & _). lia.
      - by intros (_ & _ & ?). }
    destruct (String.eqb_spec (RedisConfig_URL (Config_Redis config)) "") as [Hr | Hr].
    { split; split; try done.
      - by intros (_ & _ & _ & ?).
      - by intros (_ & _ & ?). }
    split; split; try done.
    + intros _. split_and!; try done; try lia. left. by split.
    + by intros (_ & _ & ?).
  - destruct (String.eqb_spec driver "mongodb") as [Hmg | Hmg]; cbn [negb andb].
    2:{ split; split; try done; intros (_ & [[? _] | [? _]] & _); congruence. }
    destruct (String.eqb_spec (DatabaseConfig_MongoURL (Config_Database config)) "")
      as [Hurl | Hurl].
    { split; split; try done; intros (_ & [[? _] | [_ ?]] & _); congruence. }
    destruct (String.eqb_spec secret "") as [Hs | Hs].
    { split; split; try done.
      - intros (_ & _ & Hlen & _). rewrite Hs in Hlen. simpl in Hlen. lia.
      - intros _. split_and!; try done; try lia. right. by split. }
    destruct (Nat.ltb_spec (String.length secret) 32) as [Hlen | Hlen].
    { split; split; try done.
      - intros (_ & _ & ? & _). lia.
      - by intros (_ & _ & ?). }
    destruct (String.eqb_spec (RedisConfig_URL (Config_Redis config)) "") as [Hr | Hr].
    { split; split; try done.
      - by intros (_ & _ & _ & ?).
      - by intros (_ & _ & ?). }
    split; split; try done.
    + intros _. split_and!; try done; try lia. right. by split.
    + by intros (_ & _ & ?).
Qed.

(** ** The todo handlers *)

Section Handle.
Context {W : Type} (repo : TodoRepository W).

Lemma handle_ret {A : Type} (a : A) (w : W) :
  handle repo (mret a) w = {| reply := a; repository := w; calls := [] |}.
Proof. reflexivity. Qed.

Lemma handle_call_bind {X A : Type} (c : TodoCmd X) (k : X → TodoProg A) (w : W) :
  handle repo (todo_call c ≫= k) w
  = {| reply := reply (handle repo (k (fst (repo X c w))) (snd (repo X c w)));
       repository := repository (handle repo (k (fst (repo X c w))) (snd (repo X c w)));
       calls := todo_event c
                :: calls (handle repo (k (fst (repo X c w))) (snd (repo X c w))) |}.
Proof. reflexivity. Qed.

End Handle.

(** What the handlers of a single todo do for a request of an
    authenticated user that names a todo (and, where the handler reads a
    body, has one that parsed and validated). *)
Section OneTodo.
Context {W : Type} (repo : TodoRepository W) (c : Ctx) (todoID : string) (w : W).
Hypothesis Huser : GetUserID c ≠ "".
Hypothesis Hid : todoID ≠ "".

Let found := repo _ (todoRepo_GetByID todoID) w.

Lemma TodoHandler_GetTodo_handle :
  handle repo (TodoHandler_GetTodo c todoID) w
  = {| reply := match fst found with
                | Err err =>
                    if String.eqb (Error err) "todo not found" then todo_not_found
                    else failed_to_get_todo
                | Ok todo =>
                    if String.eqb (Todo_UserID todo) (GetUserID c)
                    then Status_JSON 200 todo else todo_not_found
                end;
       repository := snd found;
       calls := [todo_event (todoRepo_GetByID todoID)] |}.
Proof.
  unfold TodoHandler_GetTodo. cbv zeta.
  apply String.eqb_neq in Huser as ->. apply String.eqb_neq in Hid as ->.
  rewrite handle_call_bind. fold found.
  destruct (fst found) as [todo | err].
  - by destruct (String.eqb (Todo_UserID todo) (GetUserID c)).
  - by destruct (String.eqb (Error err) "todo not found").
Qed.

Lemma TodoHandler_UpdateTodo_handle (req : UpdateTodoRequest)
    (validator_Struct : UpdateTodoRequest → option error) :
  validator_Struct req = None →
  handle repo (TodoHandler_UpdateTodo c todoID (Ok req) validator_Struct) w
  = match fst found with
    | Err err =>
        {| reply := if String.eqb (Error err) "todo not found" then todo_not_found
                    else failed_to_get_todo;
           repository := snd found;
           calls := [todo_event (todoRepo_GetByID todoID)] |}
    | Ok existingTodo =>
        if String.eqb (Todo_UserID existingTodo) (GetUserID c) then
          let u := repo _ (todoRepo_Update (update_fields req existingTodo)) (snd found) in
          {| reply := match fst u with
                      | Err _ =>
                          Status_Map 500
                            (fiber_Map [("error", "Internal Server Error");
                                        ("message", "Failed to update todo")])
                      | Ok updatedTodo => Status_JSON 200 updatedTodo
                      end;
             repository := snd u;
             calls := [todo_event (todoRepo_GetByID todoID);
                       todo_event (todoRepo_Update (update_fields req existingTodo))] |}
        else
          {| reply := todo_not_found;
             repository := snd found;
             calls := [todo_event (todoRepo_GetByID todoID)] |}
    end.
Proof.
  intros Hvalid. unfold TodoHandler_UpdateTodo. cbv zeta.
  apply String.eqb_neq in Huser as ->. apply String.eqb_neq in Hid as ->.
  rewrite Hvalid, handle_call_bind. fold found.
  destruct (fst found) as [todo | err].
  - destruct (String.eqb (Todo_UserID todo) (GetUserID c)); [| done].
    cbn [negb]. rewrite handle_call_bind.
    by destruct (fst (repo _ (todoRepo_Update (update_fields req todo)) (snd found))).
  - by destruct (String.eqb (Error err) "todo not found").
Qed.

Lemma TodoHandler_DeleteTodo_handle :
  handle repo (TodoHandler_DeleteTodo c todoID) w
  = match fst found with
    | Err err =>
        {| reply := if String.eqb (Error err) "todo not found" then todo_not_found
                    else failed_to_get_todo;
           repository := snd found;
           calls := [todo_event (todoRepo_GetByID todoID)] |}
    | Ok existingTodo =>
        if String.eqb (Todo_UserID existingTodo) (GetUserID c) then
          let d := repo _ (todoRepo_Delete todoID) (snd found) in
          {| reply := match fst d with
                      | Some _ =>
                          Status_Map 500
                            (fiber_Map [("error", "Internal Server Error");
                                        ("message", "Failed to delete todo")])
                      | None => SendStatus 204
                      end;
             repository := snd d;
             calls := [todo_event (todoRepo_GetByID todoID);
                       todo_event (todoRepo_Delete todoID)] |}
        else
          {| reply := todo_not_found;
             repository := snd found;
             calls := [todo_event (todoRepo_GetByID todoID)] |}
    end.
Proof.
  unfold TodoHandler_DeleteTodo. cbv zeta.
  apply String.eqb_neq in Huser as ->. apply String.eqb_neq in Hid as ->.
  rewrite handle_call_bind. fold found.
  destruct (fst found) as [todo | err].
  - destruct (String.eqb (Todo_UserID todo) (GetUserID c)); [| done].
    cbn [negb]. rewrite handle_call_bind.
    by destruct (fst (repo _ (todoRepo_Delete todoID) (snd found))).
  - by destruct (String.eqb (Error err) "todo not found").
Qed.

Lemma TodoHandler_UpdateTodoStatus_handle (req : UpdateTodoStatusRequest)
    (validator_Struct : UpdateTodoStatusRequest → option error) :
  validator_Struct req = None →
  handle repo (TodoHandler_UpdateTodoStatus c todoID (Ok req) validator_Struct) w
  = match fst found with
    | Err err =>
        {| reply := if String.eqb (Error err) "todo not found" then todo_not_found
                    else failed_to_get_todo;
           repository := snd found;
           calls := [todo_event (todoRepo_GetByID todoID)] |}
    | Ok existingTodo =>
        if String.eqb (Todo_UserID existingTodo) (GetUserID c) then
          let status := UpdateTodoStatusRequest_Status req in
          let u := repo _ (todoRepo_UpdateStatus todoID status) (snd found) in
          {| reply := match fst u with
                      | Some _ =>
                          Status_Map 500
                            (fiber_Map [("error", "Internal Server Error");
                                        ("message", "Failed to update todo status")])
                      | None =>
                          Status_Map 200
                            (fiber_Map [("message", "Todo status updated successfully");
                                        ("status", status)])
                      end;
             repository := snd u;
             calls := [todo_event (todoRepo_GetByID todoID);
                       todo_event (todoRepo_UpdateStatus todoID status)] |}
        else
          {| reply := todo_not_found;
             repository := snd found;
             calls := [todo_event (todoRepo_GetByID todoID)] |}
    end.
Proof.
  intros Hvalid. unfold TodoHandler_UpdateTodoStatus. cbv zeta.
  apply String.eqb_neq in Huser as ->. apply String.eqb_neq in Hid as ->.
  rewrite Hvalid, handle_call_bind. fold found.
  destruct (fst found) as [todo | err].
  - destruct (String.eqb (Todo_UserID todo) (GetUserID c)); [| done].
    cbn [negb]. rewrite handle_call_bind.
    by destruct (fst (repo _ (todoRepo_UpdateStatus todoID
                                (UpdateTodoStatusRequest_Status req)) (snd found))).
  - by destruct (String.eqb (Error err) "todo not found").
Qed.

End OneTodo.

(** X24. The todo of another user is answered like a todo that does not
    exist.  For an authenticated user and a request that names a todo
    (with a body that parsed and validated where one is read), when
    [GetByID] returns a todo of another user or fails with "todo not
    found", [GetTodo], [UpdateTodo], [DeleteTodo] and [UpdateTodoStatus]
    all answer the same 404 "Todo not found", and the only call they made
    is that [GetByID]: nothing is updated or deleted. *)
Theorem todo_of_another_user_is_not_found
    {W : Type} (repo : TodoRepository W) (c : Ctx) (todoID : string) (w : W)
    (update : UpdateTodoRequest) (validate_update : UpdateTodoRequest → option error)
    (status : UpdateTodoStatusRequest)
    (validate_status : UpdateTodoStatusRequest → option error) :
  GetUserID c ≠ "" → todoID ≠ "" →
  validate_update update = None → validate_status status = None →
  let found := repo _ (todoRepo_GetByID todoID) w in
  let missing := ∃ err, fst found = Err err ∧ Error err = "todo not found" in
  let foreign := ∃ todo, fst found = Ok todo ∧ Todo_UserID todo ≠ GetUserID c in
  let hidden :=
    {| reply := Status_Map 404 (fiber_Map [("error", "Not Found");
                                           ("message", "Todo not found")]);
       repository := snd found;
       calls := [todo_event (todoRepo_GetByID todoID)] |} in
  missing ∨ foreign →
  handle repo (TodoHandler_GetTodo c todoID) w = hidden
  ∧ handle repo (TodoHandler_UpdateTodo c todoID (Ok update) validate_update) w = hidden
  ∧ handle repo (TodoHandler_DeleteTodo c todoID) w = hidden
  ∧ handle repo (TodoHandler_UpdateTodoStatus c todoID (Ok status) validate_status) w
    = hidden.
Proof.
  intros Huser Hid Hupdate Hstatus found missing foreign hidden Hcase.
  rewrite (TodoHandler_GetTodo_handle repo c todoID w Huser Hid),
    (TodoHandler_UpdateTodo_handle repo c todoID w Huser Hid update _ Hupdate),
    (TodoHandler_DeleteTodo_handle repo c todoID w Huser Hid),
    (TodoHandler_UpdateTodoStatus_handle repo c todoID w Huser Hid status _ Hstatus).
  fold found. subst hidden.
  destruct Hcase as [(err & -> & ->) | (todo & -> & Hother)].
  - done.
  - apply String.eqb_neq in Hother as ->. done.
Qed.

Lemma todo_of_another_user_is_not_found_witness :
  handle demo_todoRepo (TodoHandler_DeleteTodo demo_user_ctx "t2") demo_todos
  = {| reply := Status_Map 404 (fiber_Map [("error", "Not Found");
                                           ("message", "Todo not found")]);
       repository := demo_todos;
       calls := [todo_event (todoRepo_GetByID "t2")] |}
  ∧ handle demo_todoRepo (TodoHandler_GetTodo demo_user_ctx "t9") demo_todos
    = {| reply := Status_Map 404 (fiber_Map [("error", "Not Found");
                                             ("message", "Todo not found")]);
         repository := demo_todos;
         calls := [todo_event (todoRepo_GetByID "t9")] |}.
Proof.
  split.
  - refine (proj1 (proj2 (proj2
      (todo_of_another_user_is_not_found demo_todoRepo demo_user_ctx "t2" demo_todos
         {| UpdateTodoRequest_Title := "done"; UpdateTodoRequest_Description := "";
            UpdateTodoRequest_Status := ""; UpdateTodoRequest_Priority := "";
            UpdateTodoRequest_DueDate := None |} (λ _, None)
         {| UpdateTodoStatusRequest_Status := TodoStatusCompleted |} (λ _, None)
         _ _ eq_refl eq_refl _)))).
    + vm_compute. discriminate.
    + discriminate.
    + right. exists (demo_todo "t2" "other-id" "read" TodoStatusPending).
      split; [reflexivity | vm_compute; discriminate].
  - refine (proj1
      (todo_of_another_user_is_not_found demo_todoRepo demo_user_ctx "t9" demo_todos
         {| UpdateTodoRequest_Title := "done"; UpdateTodoRequest_Description := "";
            UpdateTodoRequest_Status := ""; UpdateTodoRequest_Priority := "";
            UpdateTodoRequest_DueDate := None |} (λ _, None)
         {| UpdateTodoStatusRequest_Status := TodoStatusCompleted |} (λ _, None)
         _ _ eq_refl eq_refl _)).
    + vm_compute. discriminate.
    + discriminate.
    + left. exists (errorString "todo not found"). split; reflexivity.
Defined.

(** Every handler, on any request. *)
Section AnyRequest.
Context {W : Type} (repo : TodoRepository W) (c : Ctx) (w : W) (todoID : string).

Let found := repo _ (todoRepo_GetByID todoID) w.

Let own (e : TodoEvent) : Prop :=
  GetUserID c ≠ ""
  ∧ (∀ userID, user_of e = Some userID → userID = GetUserID c)
  ∧ (is_write e = true →
       (∃ todo, e = todo_event (todoRepo_Create todo))
       ∨ ∃ existing,
           fst found = Ok existing
           ∧ Todo_UserID existing = GetUserID c
           ∧ (e = todo_event (todoRepo_Delete todoID)
              ∨ (∃ newStatus, e = todo_event (todoRepo_UpdateStatus todoID newStatus))
              ∨ ∃ todo, e = todo_event (todoRepo_Update todo)
                        ∧ Todo_ID todo = Todo_ID existing
                        ∧ Todo_CreatedAt todo = Todo_CreatedAt existing)).

Ltac events H :=
  rewrite ?handle_ret in H; cbn [calls] in H;
  repeat match type of H with
         | _ ∈ [] => by apply elem_of_nil in H
         | _ ∈ _ :: _ => apply elem_of_cons in H; destruct H as [-> | H]
         end.

Ltac is_read Hu :=
  split_and!; [by apply String.eqb_neq in Hu | by intros ? [= <-] | done].

Lemma CreateTodo_own (BodyParser : result CreateTodoRequest)
    (validator_Struct : CreateTodoRequest → option error) (e : TodoEvent) :
  e ∈ calls (handle repo (TodoHandler_CreateTodo c BodyParser validator_Struct) w) → own e.
Proof.
  unfold TodoHandler_CreateTodo. cbv zeta.
  destruct (String.eqb (GetUserID c) "") eqn:Hu; [intros H; events H |].
  destruct BodyParser as [req | err]; [| intros H; events H].
  destruct (validator_Struct req); [intros H; events H |].
  rewrite handle_call_bind. intros H.
  match type of H with
  | context [handle repo (match ?r with Ok _ => _ | Err _ => _ end) _] => destruct r
  end; events H.
  all: split_and!; [by apply String.eqb_neq in Hu | by intros ? [= <-] |].
  all: intros _; left; by eexists.
Qed.

Lemma GetTodos_own (limit offset : Z) (status priority : string) (e : TodoEvent) :
  e ∈ calls (handle repo (TodoHandler_GetTodos c limit offset status priority) w) → own e.
Proof.
  unfold TodoHandler_GetTodos. cbv zeta.
  destruct (String.eqb (GetUserID c) "") eqn:Hu; [intros H; events H |].
  destruct (negb (String.eqb status "") && IsValidStatus status);
    [| destruct (negb (String.eqb priority "") && IsValidPriority priority)];
    rewrite handle_call_bind; intros H; events H; is_read Hu.
Qed.

Lemma GetTodo_own (e : TodoEvent) :
  e ∈ calls (handle repo (TodoHandler_GetTodo c todoID) w) → own e.
Proof.
  unfold TodoHandler_GetTodo. cbv zeta.
  destruct (String.eqb (GetUserID c) "") eqn:Hu; [intros H; events H |].
  destruct (String.eqb todoID ""); [intros H; events H |].
  rewrite handle_call_bind. intros H. cbn [calls] in H.
  apply elem_of_cons in H; destruct H as [-> | H]; [by is_read Hu |].
  fold found in H. destruct (fst found) as [todo | err].
  - destruct (negb (String.eqb (Todo_UserID todo) (GetUserID c))); events H.
  - destruct (String.eqb (Error err) "todo not found"); events H.
Qed.

Lemma UpdateTodo_own (BodyParser : result UpdateTodoRequest)
    (validator_Struct : UpdateTodoRequest → option error) (e : TodoEvent) :
  e ∈ calls (handle repo (TodoHandler_UpdateTodo c todoID BodyParser validator_Struct) w)
  → own e.
Proof.
  unfold TodoHandler_UpdateTodo. cbv zeta.
  destruct (String.eqb (GetUserID c) "") eqn:Hu; [intros H; events H |].
  destruct (String.eqb todoID ""); [intros H; events H |].
  destruct BodyParser as [req | err]; [| intros H; events H].
  destruct (validator_Struct req); [intros H; events H |].
  rewrite handle_call_bind. intros H. cbn [calls] in H.
  apply elem_of_cons in H; destruct H as [-> | H]; [by is_read Hu |].
  fold found in H. destruct (fst found) as [todo | err] eqn:Hfound.
  - destruct (String.eqb (Todo_UserID todo) (GetUserID c)) eqn:Howner;
      cbn [negb] in H; [| events H].
    apply String.eqb_eq in Howner. rewrite handle_call_bind in H. cbn [calls] in H.
    apply elem_of_cons in H; destruct H as [-> | H].
    + split_and!; [by apply String.eqb_neq in Hu | by intros ? [= <-] |].
      intros _. right. exists todo. split_and!; [done .. |]. right. right. by eexists.
    + match type of H with
      | context [handle repo (match ?r with Ok _ => _ | Err _ => _ end) _] => destruct r
      end; events H.
  - destruct (String.eqb (Error err) "todo not found"); events H.
Qed.

Lemma DeleteTodo_own (e : TodoEvent) :
  e ∈ calls (handle repo (TodoHandler_DeleteTodo c todoID) w) → own e.
Proof.
  unfold TodoHandler_DeleteTodo. cbv zeta.
  destruct (String.eqb (GetUserID c) "") eqn:Hu; [intros H; events H |].
  destruct (String.eqb todoID ""); [intros H; events H |].
  rewrite handle_call_bind. intros H. cbn [calls] in H.
  apply elem_of_cons in H; destruct H as [-> | H]; [by is_read Hu |].
  fold found in H. destruct (fst found) as [todo | err] eqn:Hfound.
  - destruct (String.eqb (Todo_UserID todo) (GetUserID c)) eqn:Howner;
      cbn [negb] in H; [| events H].
    apply String.eqb_eq in Howner. rewrite handle_call_bind in H. cbn [calls] in H.
    apply elem_of_cons in H; destruct H as [-> | H].
    + split_and!; [by apply String.eqb_neq in Hu | done |].
      intros _. right. exists todo. split_and!; [done .. |]. by left.
    + match type of H with
      | context [handle repo (match ?r with Some _ => _ | None => _ end) _] => destruct r
      end; events H.
  - destruct (String.eqb (Error err) "todo not found"); events H.
Qed.

Lemma UpdateTodoStatus_own (BodyParser : result UpdateTodoStatusRequest)
    (validator_Struct : UpdateTodoStatusRequest → option error) (e : TodoEvent) :
  e ∈ calls (handle repo
               (TodoHandler_UpdateTodoStatus c todoID BodyParser validator_Struct) w)
  → own e.
Proof.
  unfold TodoHandler_UpdateTodoStatus. cbv zeta.
  destruct (String.eqb (GetUserID c) "") eqn:Hu; [intros H; events H |].
  destruct (String.eqb todoID ""); [intros H; events H |].
  destruct BodyParser as [req | err]; [| intros H; events H].
  destruct (validator_Struct req); [intros H; events H |].
  rewrite handle_call_bind. intros H. cbn [calls] in H.
  apply elem_of_cons in H; destruct H as [-> | H]; [by is_read Hu |].
  fold found in H. destruct (fst found) as [todo | err] eqn:Hfound.
  - destruct (String.eqb (Todo_UserID todo) (GetUserID c)) eqn:Howner;
      cbn [negb] in H; [| events H].
    apply String.eqb_eq in Howner. rewrite handle_call_bind in H. cbn [calls] in H.
    apply elem_of_cons in H; destruct H as [-> | H].
    + split_and!; [by apply String.eqb_neq in Hu | done |].
      intros _. right. exists todo. split_and!; [done .. |]. right. left. by eexists.
    + match type of H with
      | context [handle repo (match ?r with Some _ => _ | None => _ end) _] => destruct r
      end; events H.
  - destruct (String.eqb (Error err) "todo not found"); events H.
Qed.

Lemma GetOverdueTodos_own (limit offset : Z) (e : TodoEvent) :
  e ∈ calls (handle repo (TodoHandler_GetOverdueTodos c limit offset) w) → own e.
Proof.
  unfold TodoHandler_GetOverdueTodos. cbv zeta.
  destruct (String.eqb (GetUserID c) "") eqn:Hu; [intros H; events H |].
  rewrite handle_call_bind; intros H; events H; is_read Hu.
Qed.

Lemma SearchTodos_own (query : string) (limit offset : Z) (e : TodoEvent) :
  e ∈ calls (handle repo (TodoHandler_SearchTodos c query limit offset) w) → own e.
Proof.
  unfold TodoHandler_SearchTodos. cbv zeta.
  destruct (String.eqb (GetUserID c) "") eqn:Hu; [intros H; events H |].
  destruct (String.eqb query ""); [intros H; events H |].
  rewrite handle_call_bind; intros H; events H; is_read Hu.
Qed.

Lemma GetTodoStats_own (e : TodoEvent) :
  e ∈ calls (handle repo (TodoHandler_GetTodoStats c) w) → own e.
Proof.
  unfold TodoHandler_GetTodoStats. cbv zeta.
  destruct (String.eqb (GetUserID c) "") eqn:Hu; [intros H; events H |].
  rewrite handle_call_bind. intros H.
  match type of H with
  | context [handle repo (match ?r with Ok _ => _ | Err _ => _ end) _] => destruct r
  end; events H; is_read Hu.
Qed.

Lemma GetTodo_reply (code : Z) (todo : Todo) :
  reply (handle repo (TodoHandler_GetTodo c todoID) w) = Status_JSON code todo →
  fst found = Ok todo ∧ Todo_UserID todo = GetUserID c.
Proof.
  unfold TodoHandler_GetTodo. cbv zeta.
  destruct (String.eqb (GetUserID c) ""); [done |].
  destruct (String.eqb todoID ""); [done |].
  rewrite handle_call_bind. cbn [reply]. fold found.
  destruct (fst found) as [existing | err].
  - destruct (String.eqb (Todo_UserID existing) (GetUserID c)) eqn:Howner; [| done].
    apply String.eqb_eq in Howner. by intros [= _ <-].
  - by destruct (String.eqb (Error err) "todo not found").
Qed.

End AnyRequest.

(** X25. Whatever the request and the repository, every call a todo
    handler makes is made for an authenticated user: the user id of the
    context is not empty, and a call that names a user names that one.  A
    write is a [Create], or it follows a [GetByID] of the todo of the path
    that returned a todo of that user: a [Delete] or an [UpdateStatus] of
    the todo of the path, or an [Update] of a todo with the id and the
    creation time of the one found.  A todo that [GetTodo] sends is the
    one [GetByID] found, and it belongs to the user. *)
Theorem todo_handlers_act_for_the_authenticated_user
    {W : Type} (repo : TodoRepository W) (c : Ctx) (w : W) (todoID query : string)
    (limit offset : Z) (status priority : string)
    (create : result CreateTodoRequest)
    (validate_create : CreateTodoRequest → option error)
    (update : result UpdateTodoRequest)
    (validate_update : UpdateTodoRequest → option error)
    (setStatus : result UpdateTodoStatusRequest)
    (validate_status : UpdateTodoStatusRequest → option error) :
  let found := repo _ (todoRepo_GetByID todoID) w in
  let runs : list (list TodoEvent) :=
    [ calls (handle repo (TodoHandler_CreateTodo c create validate_create) w);
      calls (handle repo (TodoHandler_GetTodos c limit offset status priority) w);
      calls (handle repo (TodoHandler_GetTodo c todoID) w);
      calls (handle repo (TodoHandler_UpdateTodo c todoID update validate_update) w);
      calls (handle repo (TodoHandler_DeleteTodo c todoID) w);
      calls (handle repo
               (TodoHandler_UpdateTodoStatus c todoID setStatus validate_status) w);
      calls (handle repo (TodoHandler_GetOverdueTodos c limit offset) w);
      calls (handle repo (TodoHandler_SearchTodos c query limit offset) w);
      calls (handle repo (TodoHandler_GetTodoStats c) w) ] in
  (∀ run e, run ∈ runs → e ∈ run →
     GetUserID c ≠ ""
     ∧ (∀ userID, user_of e = Some userID → userID = GetUserID c)
     ∧ (is_write e = true →
          (∃ todo, e = todo_event (todoRepo_Create todo))
          ∨ ∃ existing,
              fst found = Ok existing
              ∧ Todo_UserID existing = GetUserID c
              ∧ (e = todo_event (todoRepo_Delete todoID)
                 ∨ (∃ newStatus, e = todo_event (todoRepo_UpdateStatus todoID newStatus))
                 ∨ ∃ todo, e = todo_event (todoRepo_Update todo)
                           ∧ Todo_ID todo = Todo_ID existing
                           ∧ Todo_CreatedAt todo = Todo_CreatedAt existing)))
  ∧ (∀ code todo,
       reply (handle repo (TodoHandler_GetTodo c todoID) w) = Status_JSON code todo →
       fst found = Ok todo ∧ Todo_UserID todo = GetUserID c).
Proof.
  intros found runs. split; [| apply GetTodo_reply].
  intros run e Hrun He. subst runs.
  repeat (apply elem_of_cons in Hrun; destruct Hrun as [-> | Hrun]).
  - by eapply CreateTodo_own.
  - by eapply GetTodos_own.
  - by eapply GetTodo_own.
  - by eapply UpdateTodo_own.
  - by eapply DeleteTodo_own.
  - by eapply UpdateTodoStatus_own.
  - by eapply GetOverdueTodos_own.
  - by eapply SearchTodos_own.
  - by eapply GetTodoStats_own.
  - by apply elem_of_nil in Hrun.
Qed.

(** *** Pages *)

Lemma page_limit_range (limit : Z) :
  1 ≤ page_limit limit ≤ 100
  ∧ (1 ≤ limit ≤ 100 → page_limit limit = limit)
  ∧ (limit ≤ 0 ∨ 100 < limit → page_limit limit = 10).
Proof. unfold page_limit. destruct (Z.leb_spec limit 0), (Z.ltb_spec 100 limit); cbn; lia. Qed.

Lemma page_offset_range (offset : Z) :
  0 ≤ page_offset offset ∧ (0 ≤ offset → page_offset offset = offset)
  ∧ (offset < 0 → page_offset offset = 0).
Proof. unfold page_offset. destruct (Z.ltb_spec offset 0); lia. Qed.

Lemma IsValidStatus_nonempty (status : string) :
  negb (String.eqb status "") && IsValidStatus status = IsValidStatus status.
Proof. destruct (String.eqb_spec status "") as [-> |]; done. Qed.

Lemma IsValidPriority_nonempty (priority : string) :
  negb (String.eqb priority "") && IsValidPriority priority = IsValidPriority priority.
Proof. destruct (String.eqb_spec priority "") as [-> |]; done. Qed.

(** X26. The handlers that answer with a page, for an authenticated
    user.  The limit asked of the repository is the given one when that is
    in 1..100 and 10 otherwise, the offset the given one when that is not
    negative and 0 otherwise.  [GetTodos] makes one call: [GetByStatus]
    when the status is one of the three, else [GetByPriority] when the
    priority is one of the three, else [GetByUserID]; a status or a
    priority that is not valid is ignored.  [GetOverdueTodos] and, with a
    query, [SearchTodos] make their one call.  Each answers 200 with the
    todos, the total, and the limit and offset it used, or 500; none
    rejects the request. *)
Theorem todo_pages_are_never_rejected
    {W : Type} (repo : TodoRepository W) (c : Ctx) (limit offset : Z)
    (status priority query : string) (w : W) :
  GetUserID c ≠ "" →
  let userID := GetUserID c in
  let l := page_limit limit in
  let o := page_offset offset in
  let asked : TodoCmd (result (list Todo * Z)) :=
    if IsValidStatus status then todoRepo_GetByStatus userID status l o
    else if IsValidPriority priority then todoRepo_GetByPriority userID priority l o
    else todoRepo_GetByUserID userID l o in
  let page (message : string) (r : result (list Todo * Z)) : Handled TodoListResponse :=
    match r with
    | Ok (todos, total) =>
        Status_JSON 200 {| TodoListResponse_Todos := todos;
                           TodoListResponse_Total := total;
                           TodoListResponse_Limit := l;
                           TodoListResponse_Offset := o |}
    | Err _ => Status_Map 500 (fiber_Map [("error", "Internal Server Error");
                                          ("message", message)])
    end in
  (1 ≤ l ≤ 100 ∧ (1 ≤ limit ≤ 100 → l = limit) ∧ (limit ≤ 0 ∨ 100 < limit → l = 10))
  ∧ (0 ≤ o ∧ (0 ≤ offset → o = offset))
  ∧ handle repo (TodoHandler_GetTodos c limit offset status priority) w
    = {| reply := page "Failed to get todos" (fst (repo _ asked w));
         repository := snd (repo _ asked w);
         calls := [todo_event asked] |}
  ∧ handle repo (TodoHandler_GetOverdueTodos c limit offset) w
    = {| reply := page "Failed to get overdue todos"
                    (fst (repo _ (todoRepo_GetOverdue userID l o) w));
         repository := snd (repo _ (todoRepo_GetOverdue userID l o) w);
         calls := [todo_event (todoRepo_GetOverdue userID l o)] |}
  ∧ (query ≠ "" →
     handle repo (TodoHandler_SearchTodos c query limit offset) w
     = {| reply := page "Failed to search todos"
                     (fst (repo _ (todoRepo_Search userID query l o) w));
          repository := snd (repo _ (todoRepo_Search userID query l o) w);
          calls := [todo_event (todoRepo_Search userID query l o)] |}).
Proof.
  intros Hu userID l o asked page.
  destruct (page_limit_range limit) as (Hl1 & Hl2 & Hl3).
  destruct (page_offset_range offset) as (Ho1 & Ho2 & _).
  apply String.eqb_neq in Hu.
  split; [done |]. split; [done |]. split_and!.
  - unfold TodoHandler_GetTodos. cbv zeta. rewrite Hu.
    rewrite IsValidStatus_nonempty, IsValidPriority_nonempty. subst asked.
    destruct (IsValidStatus status); [| destruct (IsValidPriority priority)];
      rewrite handle_call_bind, handle_ret; cbn [reply repository calls];
      unfold page_response; fold userID l o;
      match goal with |- context [fst ?r] => by destruct (fst r) as [[? ?] |] end.
  - unfold TodoHandler_GetOverdueTodos. cbv zeta. rewrite Hu.
    rewrite handle_call_bind, handle_ret. cbn [reply repository calls].
    unfold page_response. fold userID l o.
    match goal with |- context [fst ?r] => by destruct (fst r) as [[? ?] |] end.
  - intros Hq%String.eqb_neq. unfold TodoHandler_SearchTodos. cbv zeta. rewrite Hu, Hq.
    rewrite handle_call_bind, handle_ret. cbn [reply repository calls].
    unfold page_response. fold userID l o.
    match goal with |- context [fst ?r] => by destruct (fst r) as [[? ?] |] end.
Qed.

Lemma todo_pages_are_never_rejected_witness :
  handle demo_todoRepo (TodoHandler_GetTodos demo_user_ctx 200 (-5) "done" "") demo_todos
  = {| reply := Status_JSON 200
                  {| TodoListResponse_Todos :=
                       [demo_todo "t1" "user-id" "write" TodoStatusPending;
                        demo_todo "t3" "user-id" "sleep" TodoStatusCompleted];
                     TodoListResponse_Total := 2;
                     TodoListResponse_Limit := 10;
                     TodoListResponse_Offset := 0 |};
       repository := demo_todos;
       calls := [todo_event (todoRepo_GetByUserID "user-id" 10 0)] |}.
Proof.
  refine (proj1 (proj2 (proj2
    (todo_pages_are_never_rejected demo_todoRepo demo_user_ctx 200 (-5) "done" "" "q"
       demo_todos _)))).
  vm_compute. discriminate.
Defined.

(** *** Routes *)

(** X27. Among the routes of the todos, [GET /:id] is registered before
    [GET /overdue], [GET /search] and [GET /stats].  No request is
    dispatched to [GetOverdueTodos], [SearchTodos] or [GetTodoStats]: a
    [GET] of a path of one segment goes to [GetTodo] with the segment as
    the id, so [/overdue], [/search] and [/stats] are served by [GetTodo]
    with the ids "overdue", "search" and "stats". *)
Theorem special_todo_routes_are_shadowed :
  (∀ (method path : string) (handler : TodoRoute) (params : list (string * string)),
     dispatch method path = Some (handler, params) →
     handler ≠ GetOverdueTodos ∧ handler ≠ SearchTodos ∧ handler ≠ GetTodoStats)
  ∧ (∀ path segment,
       segments path = [segment] →
       dispatch fiber_MethodGet path = Some (GetTodo, [("id", segment)]))
  ∧ dispatch "GET" "/overdue" = Some (GetTodo, [("id", "overdue")])
  ∧ dispatch "GET" "/search" = Some (GetTodo, [("id", "search")])
  ∧ dispatch "GET" "/stats" = Some (GetTodo, [("id", "stats")])
  ∧ dispatch "GET" "/" = Some (GetTodos, [])
  ∧ dispatch "PATCH" "/overdue/status" = Some (UpdateTodoStatus, [("id", "overdue")]).
Proof.
  split_and!; try done.
  - intros method path handler params. unfold dispatch.
    generalize (segments path) as segs. intros segs.
    unfold RegisterRoutes. cbn [find_route].
    change (segments "/") with (@nil string).
    change (segments "/:id") with [":id"].
    change (segments "/:id/status") with [":id"; "status"].
    change (segments "/overdue") with ["overdue"].
    change (segments "/search") with ["search"].
    change (segments "/stats") with ["stats"].
    destruct (String.eqb fiber_MethodPost method), (String.eqb fiber_MethodGet method),
      (String.eqb fiber_MethodPut method), (String.eqb fiber_MethodDelete method),
      (String.eqb fiber_MethodPatch method);
      destruct segs as [| s1 [| s2 [| s3 segs]]]; cbn [match_segments];
      repeat match goal with
             | |- context [String.eqb ?a ?b] => destruct (String.eqb a b)
             end;
      by intros [= <- <-].
  - intros path segment Hpath. unfold dispatch. by rewrite Hpath.
Qed.
